(** * Two-dimensional potential flow: singularities and their superposition

    A shallow embedding of [potential/d2/_point.py] (the point doublet,
    source and vortex) and of [potential/d2/_flow_field.py] (the
    [FlowField2D] aggregator), with the theorems that settle the
    properties stated about them.

    Numbers.  The program computes with IEEE doubles.  The embedding keeps
    the special values of the format (the two infinities and not-a-number,
    which is what a division by zero yields under numpy) and idealises the
    finite ones as real numbers: finite arithmetic is exact, without
    rounding, overflow or underflow, and the sign of zero is not tracked
    (every zero divisor of this program is a sum of squares, a positive
    zero).

    Objects.  A singularity is a Python object: a class tag and an
    attribute dictionary, filled by [__init__] and read by the methods.
    Reading an attribute that was never assigned raises [AttributeError].

    Errors.  A Python exception is a value of [exn]; every operation that
    can raise returns a [result]. *)

From Stdlib Require Import Reals Lra Lia ZArith.
From stdpp Require Import gmap strings list fin_maps.

Open Scope R_scope.

(** ** Exceptions and results *)

Inductive exn : Type :=
  | AttributeError (name : string)
  | TypeError
  | ValueError
  | ZeroDivisionError.

Inductive result (A : Type) : Type :=
  | Ok (a : A)
  | Raise (e : exn).
Arguments Ok {A} a.
Arguments Raise {A} e.

#[global] Instance result_ret : MRet result := fun A a => Ok a.
#[global] Instance result_bind : MBind result := fun A B k m =>
  match m with
  | Ok a => k a
  | Raise e => Raise e
  end.
#[global] Instance result_fmap : FMap result := fun A B f m =>
  match m with
  | Ok a => Ok (f a)
  | Raise e => Raise e
  end.

(** ** Floating-point values *)

Inductive fl : Type :=
  | Fin (r : R)
  | Inf (negative : bool)
  | NaN.

Definition is_finite (a : fl) : bool :=
  match a with Fin _ => true | _ => false end.

Definition is_zero (a : fl) : bool :=
  match a with
  | Fin r => if Req_EM_T r 0 then true else false
  | _ => false
  end.

Definition Rneg (r : R) : bool := if Rlt_dec r 0 then true else false.

Definition fneg (a : fl) : fl :=
  match a with
  | Fin r => Fin (- r)
  | Inf s => Inf (negb s)
  | NaN => NaN
  end.

Definition fadd (a b : fl) : fl :=
  match a, b with
  | Fin x, Fin y => Fin (x + y)
  | Fin _, Inf s => Inf s
  | Inf s, Fin _ => Inf s
  | Inf s, Inf t => if Bool.eqb s t then Inf s else NaN
  | _, _ => NaN
  end.

Definition fsub (a b : fl) : fl := fadd a (fneg b).

Definition fmul (a b : fl) : fl :=
  match a, b with
  | Fin x, Fin y => Fin (x * y)
  | Fin x, Inf s => if Req_EM_T x 0 then NaN else Inf (xorb (Rneg x) s)
  | Inf s, Fin y => if Req_EM_T y 0 then NaN else Inf (xorb s (Rneg y))
  | Inf s, Inf t => Inf (xorb s t)
  | _, _ => NaN
  end.

(** Division as numpy performs it: a zero divisor gives an infinity, or
    not-a-number for [0/0], and never raises. *)
Definition fdiv (a b : fl) : fl :=
  match a, b with
  | Fin x, Fin y =>
      if Req_EM_T y 0
      then (if Req_EM_T x 0 then NaN else Inf (Rneg x))
      else Fin (x / y)
  | Fin _, Inf _ => Fin 0
  | Inf s, Fin y => Inf (xorb s (Rneg y))
  | Inf _, Inf _ => NaN
  | _, _ => NaN
  end.

(** [a ** 2.] *)
Definition fsqr (a : fl) : fl := fmul a a.

(** ** Values: Python floats, numpy arrays, strings *)

(** A [numpy.ndarray] of doubles: its shape and its elements in row-major
    order. *)
Record ndarray : Type := mk_ndarray { shape : list nat; data : list fl }.

Inductive value : Type :=
  | VFloat (f : fl)
  | VArray (a : ndarray)
  | VStr (s : string).

(** An expression under evaluation: a value, or the exception raised on
    the way to it. *)
Abbreviation expr := (result value).

Definition val (v : value) : expr := Ok v.
Coercion val : value >-> result.

Definition flt (r : R) : expr := Ok (VFloat (Fin r)).

(** [math.pi] *)
Definition pi : expr := flt PI.

(** A binary arithmetic operator.  [py] is the operation on two Python
    floats, which may raise; [np] is the elementwise operation of numpy,
    which does not.  A float combines with every element of an array; two
    arrays combine elementwise when their shapes are equal, the one case
    this program produces (both coordinate arrays come from a single
    [meshgrid]).  Broadcasting between arrays of unequal shapes is not
    modelled: there the model answers with numpy's error for shapes that
    cannot be combined, also where numpy would stretch one array over the
    other, and the properties of the methods on arrays are stated for
    arrays of one shape. *)
Definition arith (py : fl -> fl -> result fl) (np : fl -> fl -> fl)
    (a b : value) : expr :=
  match a, b with
  | VFloat p, VFloat q => VFloat <$> py p q
  | VFloat p, VArray B => Ok (VArray (mk_ndarray (shape B) (map (np p) (data B))))
  | VArray A, VFloat q => Ok (VArray (mk_ndarray (shape A) (map (fun e => np e q) (data A))))
  | VArray A, VArray B =>
      if decide (shape A = shape B)
      then Ok (VArray (mk_ndarray (shape A) (zip_with np (data A) (data B))))
      else Raise ValueError
  | _, _ => Raise TypeError
  end.

Definition noraise (np : fl -> fl -> fl) (p q : fl) : result fl := Ok (np p q).

(** Division of Python floats raises on a zero divisor. *)
Definition float_div (p q : fl) : result fl :=
  if is_zero q then Raise ZeroDivisionError else Ok (fdiv p q).

Definition unary (np : fl -> fl) (a : value) : expr :=
  match a with
  | VFloat p => Ok (VFloat (np p))
  | VArray A => Ok (VArray (mk_ndarray (shape A) (map np (data A))))
  | VStr _ => Raise TypeError
  end.

(** Python evaluates the left operand, then the right one, then applies
    the operator. *)
Definition binop (op : value -> value -> expr) (a b : expr) : expr :=
  x ← a; y ← b; op x y.

Definition py_add : expr -> expr -> expr := binop (arith (noraise fadd) fadd).
Definition py_sub : expr -> expr -> expr := binop (arith (noraise fsub) fsub).
Definition py_mul : expr -> expr -> expr := binop (arith (noraise fmul) fmul).
Definition py_div : expr -> expr -> expr := binop (arith float_div fdiv).
Definition py_neg (a : expr) : expr := x ← a; unary fneg x.
Definition py_sqr (a : expr) : expr := x ← a; unary fsqr x.

Declare Scope py_scope.
Delimit Scope py_scope with py.
Notation "a + b" := (py_add a b) : py_scope.
Notation "a - b" := (py_sub a b) : py_scope.
Notation "a * b" := (py_mul a b) : py_scope.
Notation "a / b" := (py_div a b) : py_scope.
Notation "- a" := (py_neg a) : py_scope.
Notation "a '**2'" := (py_sqr a) (at level 1, format "a '**2'") : py_scope.

(** An assignment statement [x = e], followed by the rest of the body. *)
Notation "'var' x '::=' e ; k" :=
  (mbind (M := result) (A := value) (fun x : value => k) e%py)
  (at level 10, x name, e at level 100, k at level 200,
   format "'[v' 'var'  x  '::='  e ; '/' k ']'").

(** ** Objects *)

Inductive class : Type := PointDoublet | PointSource | PointVortex.

Record obj : Type := mk_obj { cls : class; attrs : gmap string value }.

(** [self.name] *)
Definition getattr (self : obj) (name : string) : expr :=
  match attrs self !! name with
  | Some v => Ok v
  | None => Raise (AttributeError name)
  end.

(** [self.name = v] *)
Definition setattr (self : obj) (name : string) (v : value) : obj :=
  mk_obj (cls self) (<[name := v]> (attrs self)).

Notation "o '.@' a" := (getattr o a) (at level 2, left associativity, format "o '.@' a").

(** A fresh instance of a class, before [__init__] runs. *)
Definition new (c : class) : obj := mk_obj c ∅.

Definition PointDoublet_init (x y strength : R) (default_color : string) : obj :=
  let self := new PointDoublet in
  let self := setattr self "x" (VFloat (Fin x)) in
  let self := setattr self "y" (VFloat (Fin y)) in
  let self := setattr self "strength" (VFloat (Fin strength)) in
  let self := setattr self "default_color" (VStr default_color) in
  self.

Definition PointDoublet_compute_flow (self : obj) (x y : value) : result (value * value) :=
  var xrel ::= x - self.@"x";
  var yrel ::= y - self.@"y";
  var u ::= - self.@"strength" / flt 2 / pi * (xrel **2 - y **2) / (xrel **2 + yrel **2) **2;
  var v ::= - self.@"strength" / flt 2 / pi * flt 2 * xrel * yrel / (xrel **2 + yrel **2) **2;
  Ok (u, v).

Definition PointDoublet_compute_psi (self : obj) (x y : value) : expr :=
  var xrel ::= x - self.@"x";
  var yrel ::= y - self.@"y";
  (- self.@"strength" / flt 2 / pi * yrel / (xrel **2 + yrel **2))%py.

(** *** numpy.arctan2 and math.log *)

Definition Ratan2 (y x : R) : R :=
  if Rlt_dec 0 x then atan (y / x)
  else if Rlt_dec x 0
       then (if Rlt_dec y 0 then atan (y / x) - PI else atan (y / x) + PI)
       else if Rlt_dec 0 y then PI / 2
            else if Rlt_dec y 0 then - PI / 2 else 0.

Definition fatan2 (y x : fl) : fl :=
  match y, x with
  | NaN, _ | _, NaN => NaN
  | Fin a, Fin b => Fin (Ratan2 a b)
  | Fin a, Inf false => Fin 0
  | Fin a, Inf true => Fin (if Rlt_dec a 0 then - PI else PI)
  | Inf s, Fin _ => Fin (if s then - PI / 2 else PI / 2)
  | Inf s, Inf false => Fin (if s then - PI / 4 else PI / 4)
  | Inf s, Inf true => Fin (if s then - (3 * PI / 4) else 3 * PI / 4)
  end.

(** [numpy.arctan2], elementwise over arrays; on two floats it returns a
    [numpy.float64], which is a Python float. *)
Definition arctan2 : expr -> expr -> expr := binop (arith (noraise fatan2) fatan2).

(** [float(v)], as [math.log] applies it to its argument.  An array of
    any other size than one is refused by every numpy, with [TypeError];
    an array of exactly one element is converted here, as numpy did until
    that conversion was withdrawn for arrays of one or more dimensions.
    The properties below rest on the first case only: where a grid could
    hold a single point they say so and leave that grid out. *)
Definition to_float (v : value) : result fl :=
  match v with
  | VFloat f => Ok f
  | VArray A => match data A with [e] => Ok e | _ => Raise TypeError end
  | VStr _ => Raise TypeError
  end.

(** [math.log] takes one float and returns one float; outside its domain
    it raises [ValueError]. *)
Definition log (a : expr) : expr :=
  v ← a;
  f ← to_float v;
  match f with
  | Fin r => if Rlt_dec 0 r then Ok (VFloat (Fin (ln r))) else Raise ValueError
  | Inf false => Ok (VFloat (Inf false))
  | Inf true => Raise ValueError
  | NaN => Ok (VFloat NaN)
  end.

(** *** PointSource *)

Definition PointSource_init (x y strength : R) (default_color : string) : obj :=
  let self := new PointSource in
  let self := setattr self "x" (VFloat (Fin x)) in
  let self := setattr self "y" (VFloat (Fin y)) in
  let self := setattr self "strength" (VFloat (Fin strength)) in
  let self := setattr self "default_color" (VStr default_color) in
  self.

Definition PointSource_compute_flow (self : obj) (x y : value) : result (value * value) :=
  var xrel ::= x - self.@"x";
  var yrel ::= y - self.@"y";
  var u ::= self.@"strength" / flt 2 / pi * xrel / (xrel **2 + yrel **2);
  var v ::= self.@"strength" / flt 2 / pi * yrel / (xrel **2 + yrel **2);
  Ok (u, v).

Definition PointSource_compute_psi (self : obj) (x y : value) : expr :=
  var xrel ::= x - self.@"x";
  var yrel ::= y - self.@"y";
  (self.@"strength" / flt 2 / pi * arctan2 (yrel - self.@"yrel") (xrel - self.@"xrel"))%py.

(** *** PointVortex *)

Definition PointVortex_init (x y strength : R) (default_color : string) : obj :=
  let self := new PointVortex in
  let self := setattr self "x" (VFloat (Fin x)) in
  let self := setattr self "y" (VFloat (Fin y)) in
  let self := setattr self "strength" (VFloat (Fin strength)) in
  let self := setattr self "default_color" (VStr default_color) in
  self.

Definition PointVortex_compute_flow (self : obj) (x y : value) : result (value * value) :=
  var xrel ::= x - self.@"x";
  var yrel ::= y - self.@"y";
  var u ::= self.@"strength" / flt 2 / pi * yrel / (xrel **2 + yrel **2);
  var v ::= - self.@"strength" / flt 2 / pi * xrel / (xrel **2 + yrel **2);
  Ok (u, v).

Definition PointVortex_compute_psi (self : obj) (x y : value) : expr :=
  var xrel ::= x - self.@"x";
  var yrel ::= y - self.@"y";
  (self.@"strength" / flt 4 / pi * log (xrel **2 + yrel **2))%py.

(** *** Method dispatch: [point.compute_flow(x, y)], [point.compute_psi(x, y)] *)

Definition compute_flow (point : obj) (x y : value) : result (value * value) :=
  match cls point with
  | PointDoublet => PointDoublet_compute_flow point x y
  | PointSource => PointSource_compute_flow point x y
  | PointVortex => PointVortex_compute_flow point x y
  end.

Definition compute_psi (point : obj) (x y : value) : expr :=
  match cls point with
  | PointDoublet => PointDoublet_compute_psi point x y
  | PointSource => PointSource_compute_psi point x y
  | PointVortex => PointVortex_compute_psi point x y
  end.

(** ** numpy: linspace, meshgrid, ones *)

(** [numpy.linspace(start, stop, num)]: [num] samples [start + i * step]
    with [step = (stop - start) / (num - 1)], the last one set to [stop]
    when there are at least two; a negative [num] raises [ValueError]. *)
Definition linspace (start stop : R) (num : Z) : result ndarray :=
  if (num <? 0)%Z then Raise ValueError
  else
    let n := Z.to_nat num in
    let step := (stop - start) / IZR (num - 1) in
    let y := map (fun i => start + INR i * step) (seq 0 n) in
    let y := if (1 <? num)%Z then <[pred n := stop]> y else y in
    Ok (mk_ndarray [n] (map Fin y)).

(** [numpy.meshgrid(xv, yv)] with the default indexing: both results have
    shape [(len(yv), len(xv))]; the first repeats [xv] along every row, the
    second repeats [yv] down every column. *)
Definition meshgrid (xv yv : ndarray) : ndarray * ndarray :=
  let nx := length (data xv) in
  let ny := length (data yv) in
  (mk_ndarray [ny; nx] (mjoin (replicate ny (data xv))),
   mk_ndarray [ny; nx] (mjoin (map (replicate nx) (data yv)))).

(** [numpy.ones(shape)] *)
Definition ones (shp : list nat) : ndarray :=
  mk_ndarray shp (replicate (foldr Nat.mul 1%nat shp) (Fin 1)).

(** The element in row [i] and column [j] of a two-dimensional array. *)
Definition cell (A : ndarray) (i j : nat) : option fl :=
  match shape A with
  | [_; c] => if (j <? c)%nat then data A !! (i * c + j)%nat else None
  | _ => None
  end.

(** ** The heap of list objects *)

(** A Python list is a mutable object reached through a reference; two
    names bound to one list see each other's updates.  The singularities
    themselves are never mutated and are stored by value. *)
Abbreviation loc := nat (only parsing).
Abbreviation heap := (gmap nat (list obj)) (only parsing).

Definition alloc (h : heap) (l : list obj) : heap * loc :=
  let r := fresh (dom h) in (<[r := l]> h, r).

(** [l.append(o)] *)
Definition list_append (h : heap) (l : loc) (o : obj) : heap :=
  alter (fun xs => xs ++ [o]) l h.

(** ** FlowField2D *)

Record FlowField2D : Type := mk_FlowField2D {
  points : loc;
  uinf : R;
  alpha : R;
  xlim : R * R;
  ylim : R * R;
  nx : Z;
  ny : Z
}.

(** The [class] statement runs once, when the module is loaded, and
    evaluates the default of [points], the list display [[]], at that
    moment: one list object, kept with the function. *)
Definition load_module (h : heap) : heap * loc := alloc h [].

(** [FlowField2D.__init__]; [defaults] is the list object made by
    [load_module], [points_arg] is the argument when the caller gives
    one. *)
Definition FlowField2D_init (defaults : loc) (points_arg : option loc)
    (uinf alpha : R) (xlim ylim : R * R) (nx ny : Z) : FlowField2D :=
  let points := match points_arg with Some l => l | None => defaults end in
  mk_FlowField2D points uinf alpha xlim ylim nx ny.

(** [FlowField2D(points)] and [FlowField2D()], every other parameter at
    its default. *)
Definition FlowField2D_defaults (defaults : loc) (points_arg : option loc) : FlowField2D :=
  FlowField2D_init defaults points_arg 0 0 (-1, 1) (-1, 1) 100 100.

Definition FlowField2D_freestream (self : FlowField2D) : R * R :=
  (uinf self * cos (alpha self), uinf self * sin (alpha self)).

Definition FlowField2D_x_values (self : FlowField2D) : result ndarray :=
  linspace (fst (xlim self)) (snd (xlim self)) (nx self).

Definition FlowField2D_y_values (self : FlowField2D) : result ndarray :=
  linspace (fst (ylim self)) (snd (ylim self)) (ny self).

Definition FlowField2D_grid (self : FlowField2D) : result (ndarray * ndarray) :=
  xv ← FlowField2D_x_values self;
  yv ← FlowField2D_y_values self;
  Ok (meshgrid xv yv).

Definition FlowField2D_x (self : FlowField2D) : expr :=
  g ← FlowField2D_grid self; Ok (VArray (fst g)).

Definition FlowField2D_y (self : FlowField2D) : expr :=
  g ← FlowField2D_grid self; Ok (VArray (snd g)).

(** [a.shape] *)
Definition shape_of (a : expr) : result (list nat) :=
  v ← a;
  match v with
  | VArray A => Ok (shape A)
  | _ => Raise (AttributeError "shape")
  end.

(** [t[0]] and [t[1]] of a pair of values. *)
Definition item0 (t : value * value) : value := fst t.
Definition item1 (t : value * value) : value := snd t.

(** [self.points], read through the heap. *)
Definition deref (h : heap) (l : loc) : list obj := default [] (h !! l).

(** The body of [for point in points:] in [flow], with the arrays [u] and
    [v] accumulated so far. *)
Fixpoint flow_loop (self : FlowField2D) (points : list obj) (u v : value)
    : result (value * value) :=
  match points with
  | [] => Ok (u, v)
  | point :: rest =>
      x ← FlowField2D_x self;
      y ← FlowField2D_y self;
      point_flow ← compute_flow point x y;
      var u ::= u + item0 point_flow;
      var v ::= v + item1 point_flow;
      flow_loop self rest u v
  end.

Definition FlowField2D_flow (h : heap) (self : FlowField2D) : result (value * value) :=
  shp ← shape_of (FlowField2D_x self);
  var u ::= VArray (ones shp) * flt (fst (FlowField2D_freestream self));
  shp ← shape_of (FlowField2D_x self);
  var v ::= VArray (ones shp) * flt (snd (FlowField2D_freestream self));
  flow_loop self (deref h (points self)) u v.

Fixpoint psi_loop (self : FlowField2D) (points : list obj) (psi : value) : expr :=
  match points with
  | [] => Ok psi
  | point :: rest =>
      x ← FlowField2D_x self;
      y ← FlowField2D_y self;
      var psi ::= psi + compute_psi point x y;
      psi_loop self rest psi
  end.

Definition FlowField2D_psi (h : heap) (self : FlowField2D) : expr :=
  var psi ::= flt (uinf self)
              * (FlowField2D_y self * flt (cos (alpha self))
                 - FlowField2D_x self * flt (sin (alpha self)));
  psi_loop self (deref h (points self)) psi.

Definition FlowField2D_u (h : heap) (self : FlowField2D) : expr :=
  fst <$> FlowField2D_flow h self.

Definition FlowField2D_v (h : heap) (self : FlowField2D) : expr :=
  snd <$> FlowField2D_flow h self.

(** ** What the methods compute on one element of an array

    The numpy reading of each method body, one element at a time: [x] and
    [y] are the coordinates held at one index of the argument arrays;
    [strength], [x0] and [y0] are the attributes of the singularity. *)

Section elementwise.
Variables (strength x0 y0 : R).

Definition half_over_pi (s : fl) : fl := fdiv (fdiv s (Fin 2)) (Fin PI).
Definition rsq (x y : fl) : fl :=
  fadd (fsqr (fsub x (Fin x0))) (fsqr (fsub y (Fin y0))).

Definition doublet_u (x y : fl) : fl :=
  fdiv (fmul (half_over_pi (fneg (Fin strength)))
             (fsub (fsqr (fsub x (Fin x0))) (fsqr y)))
       (fsqr (rsq x y)).
Definition doublet_v (x y : fl) : fl :=
  fdiv (fmul (fmul (fmul (half_over_pi (fneg (Fin strength))) (Fin 2))
                   (fsub x (Fin x0)))
             (fsub y (Fin y0)))
       (fsqr (rsq x y)).
Definition doublet_psi (x y : fl) : fl :=
  fdiv (fmul (half_over_pi (fneg (Fin strength))) (fsub y (Fin y0))) (rsq x y).

Definition source_u (x y : fl) : fl :=
  fdiv (fmul (half_over_pi (Fin strength)) (fsub x (Fin x0))) (rsq x y).
Definition source_v (x y : fl) : fl :=
  fdiv (fmul (half_over_pi (Fin strength)) (fsub y (Fin y0))) (rsq x y).

Definition vortex_u (x y : fl) : fl :=
  fdiv (fmul (half_over_pi (Fin strength)) (fsub y (Fin y0))) (rsq x y).
Definition vortex_v (x y : fl) : fl :=
  fdiv (fmul (half_over_pi (fneg (Fin strength))) (fsub x (Fin x0))) (rsq x y).
End elementwise.

(** The singularity of class [c] that its [__init__] builds. *)
Definition make (c : class) (x y strength : R) (default_color : string) : obj :=
  match c with
  | PointDoublet => PointDoublet_init x y strength default_color
  | PointSource => PointSource_init x y strength default_color
  | PointVortex => PointVortex_init x y strength default_color
  end.

Definition flow_u (c : class) (strength x0 y0 : R) : fl -> fl -> fl :=
  match c with
  | PointDoublet => doublet_u strength x0 y0
  | PointSource => source_u strength x0 y0
  | PointVortex => vortex_u strength x0 y0
  end.

Definition flow_v (c : class) (strength x0 y0 : R) : fl -> fl -> fl :=
  match c with
  | PointDoublet => doublet_v strength x0 y0
  | PointSource => source_v strength x0 y0
  | PointVortex => vortex_v strength x0 y0
  end.

(** ** The formulas of the specification *)

(** The u-component of a doublet as the specification gives it, in terms
    of the offsets [dx] and [dy] alone. *)
Definition spec_doublet_u (mu dx dy : R) : R :=
  - mu / (2 * PI) * (dx ^ 2 - dy ^ 2) / (dx ^ 2 + dy ^ 2) ^ 2.

(** The stream function of a source as the specification gives it. *)
Definition spec_source_psi (m x0 y0 x y : R) : R :=
  m / (2 * PI) * Ratan2 (y - y0) (x - x0).

(** ** Evenly spaced samples *)

(** The list of numbers [linspace] puts in its result. *)
Definition samples (start stop : R) (num : Z) : list R :=
  let n := Z.to_nat num in
  let y := map (fun i => start + INR i * ((stop - start) / IZR (num - 1))) (seq 0 n) in
  if (1 <? num)%Z then <[pred n := stop]> y else y.

(** Sample [i] of [n] evenly spaced samples that start at [lo] and, when
    there are at least two, end at [hi]. *)
Definition sample (lo hi : R) (n : Z) (i : nat) : R :=
  if (n =? 1)%Z then lo else lo + INR i * (hi - lo) / IZR (n - 1).

(** The coordinates a field samples along each axis. *)
Definition x_samples (self : FlowField2D) : list R :=
  samples (fst (xlim self)) (snd (xlim self)) (nx self).
Definition y_samples (self : FlowField2D) : list R :=
  samples (fst (ylim self)) (snd (ylim self)) (ny self).
Definition x_sample (self : FlowField2D) (j : nat) : R :=
  sample (fst (xlim self)) (snd (xlim self)) (nx self) j.
Definition y_sample (self : FlowField2D) (i : nat) : R :=
  sample (fst (ylim self)) (snd (ylim self)) (ny self) i.

(** ** Reading the elements of a result *)

(** The element of [v] that meets index [k] of an array it is added to: a
    float meets every index. *)
Definition elt (v : value) (k : nat) : option fl :=
  match v with
  | VFloat f => Some f
  | VArray A => data A !! k
  | VStr _ => None
  end.

(** A value that can be added in place to an array of shape [shp] holding
    [n] elements. *)
Definition conforms (shp : list nat) (n : nat) (v : value) : Prop :=
  match v with
  | VFloat _ => True
  | VArray A => shape A = shp /\ length (data A) = n
  | VStr _ => False
  end.

(** The terms [vs] added one after the other to [base], as the loops
    do. *)
Definition accumulate (base : fl) (vs : list fl) : fl := fold_left fadd vs base.

(** ** Fields of singularities built by their constructors *)

(** The arguments of one constructor call: the class and its four
    parameters. *)
Record singularity : Type := mk_singularity {
  s_class : class;
  s_x : R;
  s_y : R;
  s_strength : R;
  s_color : string
}.

Definition build (s : singularity) : obj :=
  make (s_class s) (s_x s) (s_y s) (s_strength s) (s_color s).

Definition u_at (s : singularity) : fl -> fl -> fl :=
  flow_u (s_class s) (s_strength s) (s_x s) (s_y s).

Definition v_at (s : singularity) : fl -> fl -> fl :=
  flow_v (s_class s) (s_strength s) (s_x s) (s_y s).

Definition psi_at (s : singularity) : fl -> fl -> fl :=
  doublet_psi (s_strength s) (s_x s) (s_y s).

(** The singularity sits on the point [(x, y)]. *)
Definition sits_on (x y : R) (s : singularity) : Prop := s_x s = x /\ s_y s = y.

(** ** Worked configurations *)

(** [FlowField2D(points=[PointDoublet()], uinf=1., nx=2, ny=2)]: the four
    corners of the square, none of them the doublet's position. *)
Definition corner_doublet : singularity := mk_singularity PointDoublet 0 0 1 "g".
Definition corner_heap : heap := {[ 0%nat := [build corner_doublet] ]}.
Definition corner_field : FlowField2D :=
  FlowField2D_init 1%nat (Some 0%nat) 1 0 (-1, 1) (-1, 1) 2 2.

(** [FlowField2D(points=[PointVortex()], nx=3, ny=3)]: the centre of the
    grid is the vortex's position. *)
Definition centre_vortex : singularity := mk_singularity PointVortex 0 0 1 "c".
Definition centre_heap : heap := {[ 0%nat := [build centre_vortex] ]}.
Definition centre_field : FlowField2D :=
  FlowField2D_init 1%nat (Some 0%nat) 0 0 (-1, 1) (-1, 1) 3 3.

(** Two doublets given in both orders, [points=[a, b]] and
    [points=[b, a]], on the same four corners. *)
Definition offset_doublet : singularity := mk_singularity PointDoublet 2 0 1 "g".
Definition pair_heap : heap :=
  <[ 1%nat := [build offset_doublet; build corner_doublet] ]>
    {[ 0%nat := [build corner_doublet; build offset_doublet] ]}.
Definition pair_field_ab : FlowField2D :=
  FlowField2D_init 2%nat (Some 0%nat) 1 0 (-1, 1) (-1, 1) 2 2.
Definition pair_field_ba : FlowField2D :=
  FlowField2D_init 2%nat (Some 1%nat) 1 0 (-1, 1) (-1, 1) 2 2.

(** A singularity whose [compute_psi] cannot serve a grid: a source, or a
    vortex when the grid holds more than one cell. *)
Definition psi_unsupported (s : singularity) : Prop :=
  s_class s = PointSource \/ s_class s = PointVortex.

(** The results of the methods for a constructed singularity on the
    arrays [X] and [Y]. *)
Definition flow_result (X Y : ndarray) (s : singularity) : value * value :=
  (VArray (mk_ndarray (shape X) (zip_with (u_at s) (data X) (data Y))),
   VArray (mk_ndarray (shape X) (zip_with (v_at s) (data X) (data Y)))).

Definition psi_result (X Y : ndarray) (s : singularity) : value :=
  VArray (mk_ndarray (shape X) (zip_with (psi_at s) (data X) (data Y))).

(** ** Drawing: [plot_streamlines] and the examples

    The methods of matplotlib are outside the repository.  Their calls are
    kept as a trace, in the order the code makes them and with the
    arguments it passes; a recorded call returns to the caller.  What is
    modelled is the code around them: which calls are made, when the
    properties of the field are evaluated, and where an exception of the
    field cuts the method short. *)

(** The axes a call is sent to: one the caller passed in, or the one
    [plt.subplot(n)] returned. *)
Inductive Axes : Type :=
  | caller_axes (id : nat)
  | subplot_axes (n : Z).

Inductive call : Type :=
  | plt_subplot (n : Z)
  | plt_show
  | streamplot (ax : Axes) (x y u v : value) (density linewidth arrowsize : R)
      (arrowstyle : string)
  | set_title (ax : Axes) (s : string)
  | set_xlabel (ax : Axes) (s : string)
  | set_ylabel (ax : Axes) (s : string)
  | axes_grid (ax : Axes)
  | set_xlim (ax : Axes) (lim : R * R)
  | set_ylim (ax : Axes) (lim : R * R)
  | contour (ax : Axes) (x y psi : value) (levels : list R) (colors : string) (linewidth : R)
  | axes_plot (ax : Axes) (x y color : value) (marker : string)
  | axes_axis (ax : Axes) (option : string).

(** The state a run goes through: the list objects, and the matplotlib
    calls made so far. *)
Record world : Type := mk_world { w_heap : heap; w_trace : list call }.

(** A statement that may change the world and may raise; the world at the
    moment of the exception is kept. *)
Definition io (A : Type) : Type := world -> world * result A.

#[global] Instance io_ret : MRet io := fun A a w => (w, Ok a).
#[global] Instance io_bind : MBind io := fun A B k m w =>
  match m w with
  | (w', Ok a) => k a w'
  | (w', Raise e) => (w', Raise e)
  end.

(** An expression of the field, evaluated against the lists as they are
    now. *)
Definition eval {A} (e : heap -> result A) : io A := fun w => (w, e (w_heap w)).

Definition emit (c : call) : io unit :=
  fun w => (mk_world (w_heap w) (w_trace w ++ [c]), Ok tt).

(** A list display [[a, b, ...]]: a new list object. *)
Definition new_list (l : list obj) : io loc :=
  fun w => (mk_world (fst (alloc (w_heap w) l)) (w_trace w), Ok (snd (alloc (w_heap w) l))).

(** The truth value of an optional string: [None] and the empty string are
    false. *)
Definition truthy (s : option string) : option string :=
  match s with
  | Some (String c r) => Some (String c r)
  | _ => None
  end.

(** The keyword arguments of [plot_streamlines]. *)
Record plot_args : Type := mk_plot_args {
  arrowsize : R;
  arrowstyle : string;
  axes : option Axes;
  density : R;
  divide_linecolor : string;
  divide_linewidth : R;
  grid : bool;
  linewidth : R;
  scaled : bool;
  show_divide : bool;
  show_points : bool;
  title : option string;
  xlabel : option string;
  ylabel : option string
}.

(** The defaults of the signature. *)
Definition default_args : plot_args :=
  mk_plot_args 1 "->" None 1 "r" 2 true 1 true false true None (Some "x") (Some "y").

(** [for point in self.points: axes.plot(point.x, point.y, ...)] *)
Fixpoint plot_points (ax : Axes) (points : list obj) : io unit :=
  match points with
  | [] => mret tt
  | point :: rest =>
      x ← eval (fun _ => point.@"x");
      y ← eval (fun _ => point.@"y");
      color ← eval (fun _ => point.@"default_color");
      emit (axes_plot ax x y color "o");;
      plot_points ax rest
  end.

Definition plot_streamlines (self : FlowField2D) (a : plot_args) : io Axes :=
  ax ← match axes a with
       | Some ax => mret ax
       | None => emit (plt_subplot 111);; mret (subplot_axes 111)
       end;
  x ← eval (fun _ => FlowField2D_x self);
  y ← eval (fun _ => FlowField2D_y self);
  u ← eval (fun h => FlowField2D_u h self);
  v ← eval (fun h => FlowField2D_v h self);
  emit (streamplot ax x y u v (density a) (linewidth a) (arrowsize a) (arrowstyle a));;
  match truthy (title a) with Some s => emit (set_title ax s) | None => mret tt end;;
  match truthy (xlabel a) with Some s => emit (set_xlabel ax s) | None => mret tt end;;
  match truthy (ylabel a) with Some s => emit (set_ylabel ax s) | None => mret tt end;;
  (if grid a then emit (axes_grid ax) else mret tt);;
  emit (set_xlim ax (xlim self));;
  emit (set_ylim ax (ylim self));;
  (if show_divide a then
     x ← eval (fun _ => FlowField2D_x self);
     y ← eval (fun _ => FlowField2D_y self);
     psi ← eval (fun h => FlowField2D_psi h self);
     emit (contour ax x y psi [0] (divide_linecolor a) (divide_linewidth a))
   else mret tt);;
  (if show_points a then
     points ← eval (fun h => Ok (deref h (points self)));
     plot_points ax points
   else mret tt);;
  (if scaled a then emit (axes_axis ax "scaled") else mret tt);;
  mret ax.

(** The calls up to [set_ylim], made once the grid and the velocity are
    there. *)
Definition drawn (self : FlowField2D) (a : plot_args) (ax : Axes) (X Y U V : ndarray)
    : list call :=
  match axes a with Some _ => [] | None => [plt_subplot 111] end
  ++ [streamplot ax (VArray X) (VArray Y) (VArray U) (VArray V)
        (density a) (linewidth a) (arrowsize a) (arrowstyle a)]
  ++ match truthy (title a) with Some s => [set_title ax s] | None => [] end
  ++ match truthy (xlabel a) with Some s => [set_xlabel ax s] | None => [] end
  ++ match truthy (ylabel a) with Some s => [set_ylabel ax s] | None => [] end
  ++ (if grid a then [axes_grid ax] else [])
  ++ [set_xlim ax (xlim self); set_ylim ax (ylim self)].

(** ** The examples, [examples/ex_potential_2d.py]

    [defaults] is the list object the class statement of [FlowField2D]
    made for [points=[]]; the names imported from [potential.d2] are the
    classes above. *)

(** The numbers of an array of finite elements, as the iteration
    [for xi in np.linspace(...)] visits them. *)
Definition reals (A : ndarray) : list R :=
  flat_map (fun f => match f with Fin r => [r] | _ => [] end) (data A).

Module ex_potential_2d.

Definition doublet (defaults : loc) : io unit :=
  let doublet := PointDoublet_init 0 0 1 "g" in
  l ← new_list [doublet];
  let flow_field := FlowField2D_init defaults (Some l) 1 0 (-1, 1) (-1, 1) 300 300 in
  plot_streamlines flow_field
    (mk_plot_args 1 "->" None 1 "r" 2 true 1 true true true None (Some "x") (Some "y"));;
  emit plt_show.

Definition rankine (defaults : loc) : io unit :=
  let source := PointSource_init 0 0 1 "r" in
  let sink := PointSource_init 1 0 (-1) "r" in
  l ← new_list [source; sink];
  let flow_field := FlowField2D_init defaults (Some l) 0 0 (-1, 2) (-1, 1) 100 100 in
  plot_streamlines flow_field default_args;;
  emit plt_show.

Definition simple_freestream (defaults : loc) : io unit :=
  let source := PointSource_init 0 0 1 "r" in
  let sink := PointSource_init 1 0 (-1) "r" in
  l ← new_list [source; sink];
  let flow_field := FlowField2D_init defaults (Some l) 1 0 (-1, 2) (-1, 1) 200 200 in
  plot_streamlines flow_field
    (mk_plot_args 1 "->" None 1 "r" 2 true 1 true true true None (Some "x") (Some "y"));;
  emit plt_show.

Definition source (defaults : loc) : io unit :=
  let source := PointSource_init 0 0 1 "r" in
  l ← new_list [source];
  let flow_field := FlowField2D_defaults defaults (Some l) in
  plot_streamlines flow_field default_args;;
  emit plt_show.

Definition vortex (defaults : loc) : io unit :=
  let vortex := PointVortex_init 0 0 1 "c" in
  l ← new_list [vortex];
  let flow_field := FlowField2D_defaults defaults (Some l) in
  plot_streamlines flow_field default_args;;
  emit plt_show.

Definition vortex_sheet (defaults : loc) : io unit :=
  let xmin := -1 in
  let xmax := 1 in
  let n := 20%Z in
  xs ← eval (fun _ => linspace xmin xmax n);
  l ← new_list (map (fun xi => PointVortex_init xi 0 1 "c") (reals xs));
  let flow_field := FlowField2D_init defaults (Some l) 0 0 (xmin, xmax) (-1, 1) 100 100 in
  plot_streamlines flow_field default_args;;
  emit plt_show.


End ex_potential_2d.

(** * Properties *)

(** ** Arithmetic of the floating-point values *)

Lemma is_zero_Fin (r : R) : r <> 0 -> is_zero (Fin r) = false.
Proof. intros H. unfold is_zero. destruct (Req_EM_T r 0); [contradiction | reflexivity]. Qed.

Lemma is_zero_Fin_0 : is_zero (Fin 0) = true.
Proof. unfold is_zero. destruct (Req_EM_T 0 0); [reflexivity | contradiction]. Qed.

Lemma fdiv_Fin (x y : R) : y <> 0 -> fdiv (Fin x) (Fin y) = Fin (x / y).
Proof. intros H. unfold fdiv. destruct (Req_EM_T y 0); [contradiction | reflexivity]. Qed.

Lemma float_div_0 (p : fl) : float_div p (Fin 0) = Raise ZeroDivisionError.
Proof. unfold float_div. rewrite is_zero_Fin_0. reflexivity. Qed.

Lemma fadd_comm (a b : fl) : fadd a b = fadd b a.
Proof.
  destruct a as [x|s|], b as [y|t|]; simpl; try reflexivity.
  - f_equal. lra.
  - destruct s, t; reflexivity.
Qed.

Lemma fadd_assoc (a b c : fl) : fadd (fadd a b) c = fadd a (fadd b c).
Proof.
  destruct a as [x|s|], b as [y|t|], c as [z|u|]; simpl; try reflexivity;
    try (f_equal; lra);
    repeat match goal with s : bool |- _ => destruct s end; reflexivity.
Qed.

Lemma fadd_right_comm (a b c : fl) : fadd (fadd a b) c = fadd (fadd a c) b.
Proof. rewrite !fadd_assoc. f_equal. apply fadd_comm. Qed.

(** A sum is finite exactly when both terms are. *)
Lemma fadd_finite (a b : fl) : is_finite (fadd a b) = is_finite a && is_finite b.
Proof.
  destruct a as [x|s|], b as [y|t|]; simpl; try reflexivity.
  destruct (Bool.eqb s t); reflexivity.
Qed.

(** ** Attributes of freshly built singularities *)

Ltac attr :=
  unfold getattr, PointDoublet_init, PointSource_init, PointVortex_init,
    setattr, new; cbn [attrs cls];
  repeat (rewrite lookup_insert_ne by discriminate);
  rewrite ?lookup_insert_eq, ?lookup_empty; try reflexivity.

Section attributes.
Variables (x y strength : R) (color : string).

Lemma PointDoublet_x : (PointDoublet_init x y strength color).@"x" = Ok (VFloat (Fin x)).
Proof. attr. Qed.
Lemma PointDoublet_y : (PointDoublet_init x y strength color).@"y" = Ok (VFloat (Fin y)).
Proof. attr. Qed.
Lemma PointDoublet_strength :
  (PointDoublet_init x y strength color).@"strength" = Ok (VFloat (Fin strength)).
Proof. attr. Qed.

Lemma PointSource_x : (PointSource_init x y strength color).@"x" = Ok (VFloat (Fin x)).
Proof. attr. Qed.
Lemma PointSource_y : (PointSource_init x y strength color).@"y" = Ok (VFloat (Fin y)).
Proof. attr. Qed.
Lemma PointSource_strength :
  (PointSource_init x y strength color).@"strength" = Ok (VFloat (Fin strength)).
Proof. attr. Qed.
Lemma PointSource_xrel :
  (PointSource_init x y strength color).@"xrel" = Raise (AttributeError "xrel").
Proof. attr. Qed.
Lemma PointSource_yrel :
  (PointSource_init x y strength color).@"yrel" = Raise (AttributeError "yrel").
Proof. attr. Qed.

Lemma PointVortex_x : (PointVortex_init x y strength color).@"x" = Ok (VFloat (Fin x)).
Proof. attr. Qed.
Lemma PointVortex_y : (PointVortex_init x y strength color).@"y" = Ok (VFloat (Fin y)).
Proof. attr. Qed.
Lemma PointVortex_strength :
  (PointVortex_init x y strength color).@"strength" = Ok (VFloat (Fin strength)).
Proof. attr. Qed.
End attributes.

(** ** Evaluating expressions *)

Lemma bind_Ok {A B} (f : A -> result B) (a : A) : mbind f (Ok a) = f a.
Proof. reflexivity. Qed.

Lemma bind_Raise {A B} (f : A -> result B) (e : exn) : mbind f (Raise e) = Raise e.
Proof. reflexivity. Qed.

Lemma fmap_Ok {A B} (f : A -> B) (a : A) : f <$> Ok a = Ok (f a).
Proof. reflexivity. Qed.

Lemma float_div_nonzero (p : fl) (r : R) :
  r <> 0 -> float_div p (Fin r) = Ok (fdiv p (Fin r)).
Proof. intros H. unfold float_div. rewrite is_zero_Fin by assumption. reflexivity. Qed.

Lemma half_over_pi_Fin (s : R) : half_over_pi (Fin s) = Fin (s / 2 / PI).
Proof. unfold half_over_pi. rewrite fdiv_Fin by lra. apply fdiv_Fin, PI_neq0. Qed.

(** [s / 2. / pi] on a Python float never raises. *)
Lemma half_over_pi_py (s : fl) :
  (val (VFloat s) / flt 2 / pi)%py = Ok (VFloat (half_over_pi s)).
Proof.
  unfold py_div, binop, pi, flt, val. rewrite !bind_Ok. unfold arith at 2.
  rewrite float_div_nonzero by lra. rewrite fmap_Ok, !bind_Ok. unfold arith.
  rewrite float_div_nonzero by apply PI_neq0. reflexivity.
Qed.

Lemma float_div_ok (p q : fl) : is_zero q = false -> float_div p q = Ok (fdiv p q).
Proof. intros H. unfold float_div. rewrite H. reflexivity. Qed.

Ltac py_eval :=
  unfold py_neg, py_sub, py_div, py_mul, py_add, py_sqr, binop, val, pi, flt;
  repeat first
    [ rewrite bind_Ok | rewrite fmap_Ok
    | rewrite decide_True by (cbn [shape]; congruence)
    | rewrite float_div_ok by assumption
    | rewrite float_div_nonzero by (first [lra | apply PI_neq0])
    | progress cbn [unary arith shape data]
    | progress unfold noraise ].

(** Two lists built by the same maps and zips over [data X] and [data Y]
    are equal when they agree element by element. *)
Ltac elementwise X Y :=
  generalize (data Y); generalize (data X);
  let l := fresh "l" in let IH := fresh "IH" in
  intros l; induction l as [|? l IH]; intros [|? ?]; cbn [map zip_with];
  try reflexivity; f_equal; apply IH.

(** [-self.strength / 2. / pi] and [self.strength / 2. / pi] *)
Ltac strength_factor s :=
  unfold py_neg; rewrite ?bind_Ok; cbn [unary];
  repeat change (Ok (VFloat (fneg (Fin s)))) with (val (VFloat (fneg (Fin s))));
  repeat change (Ok (VFloat (Fin s))) with (val (VFloat (Fin s)));
  rewrite !half_over_pi_py.

(** ** The methods on arrays: total, elementwise, shape preserved *)

Section arrays.
Variables (strength x0 y0 : R) (color : string) (X Y : ndarray).
Hypothesis same_shape : shape X = shape Y.

Lemma PointDoublet_compute_flow_array :
  PointDoublet_compute_flow (PointDoublet_init x0 y0 strength color) (VArray X) (VArray Y)
  = Ok (VArray (mk_ndarray (shape X) (zip_with (doublet_u strength x0 y0) (data X) (data Y))),
        VArray (mk_ndarray (shape X) (zip_with (doublet_v strength x0 y0) (data X) (data Y)))).
Proof.
  unfold PointDoublet_compute_flow.
  rewrite PointDoublet_x, PointDoublet_y, PointDoublet_strength.
  strength_factor strength. py_eval.
  unfold doublet_u, doublet_v, rsq.
  f_equal. f_equal; f_equal; f_equal; elementwise X Y.
Qed.

Lemma PointDoublet_compute_psi_array :
  PointDoublet_compute_psi (PointDoublet_init x0 y0 strength color) (VArray X) (VArray Y)
  = Ok (VArray (mk_ndarray (shape X) (zip_with (doublet_psi strength x0 y0) (data X) (data Y)))).
Proof.
  unfold PointDoublet_compute_psi.
  rewrite PointDoublet_x, PointDoublet_y, PointDoublet_strength.
  strength_factor strength. py_eval.
  unfold doublet_psi, rsq.
  f_equal. f_equal. rewrite <- same_shape. f_equal. elementwise X Y.
Qed.

Lemma PointSource_compute_flow_array :
  PointSource_compute_flow (PointSource_init x0 y0 strength color) (VArray X) (VArray Y)
  = Ok (VArray (mk_ndarray (shape X) (zip_with (source_u strength x0 y0) (data X) (data Y))),
        VArray (mk_ndarray (shape X) (zip_with (source_v strength x0 y0) (data X) (data Y)))).
Proof.
  unfold PointSource_compute_flow.
  rewrite PointSource_x, PointSource_y, PointSource_strength.
  strength_factor strength. py_eval.
  unfold source_u, source_v, rsq.
  f_equal. f_equal; f_equal; rewrite <- ?same_shape; f_equal; elementwise X Y.
Qed.

Lemma PointVortex_compute_flow_array :
  PointVortex_compute_flow (PointVortex_init x0 y0 strength color) (VArray X) (VArray Y)
  = Ok (VArray (mk_ndarray (shape X) (zip_with (vortex_u strength x0 y0) (data X) (data Y))),
        VArray (mk_ndarray (shape X) (zip_with (vortex_v strength x0 y0) (data X) (data Y)))).
Proof.
  unfold PointVortex_compute_flow.
  rewrite PointVortex_x, PointVortex_y, PointVortex_strength.
  strength_factor strength. py_eval.
  unfold vortex_u, vortex_v, rsq.
  f_equal. f_equal; f_equal; rewrite <- ?same_shape; f_equal; elementwise X Y.
Qed.

(** Whatever the class, [compute_flow] on two arrays of one shape returns
    two arrays of that shape. *)
Lemma compute_flow_array (c : class) :
  compute_flow (make c x0 y0 strength color) (VArray X) (VArray Y)
  = Ok (VArray (mk_ndarray (shape X) (zip_with (flow_u c strength x0 y0) (data X) (data Y))),
        VArray (mk_ndarray (shape X) (zip_with (flow_v c strength x0 y0) (data X) (data Y)))).
Proof.
  destruct c; unfold compute_flow; cbn.
  - apply PointDoublet_compute_flow_array.
  - apply PointSource_compute_flow_array.
  - apply PointVortex_compute_flow_array.
Qed.
End arrays.

(** ** The methods on single points *)

Lemma is_zero_fsqr (a : fl) : is_zero (fsqr a) = is_zero a.
Proof.
  destruct a as [r|s|]; try reflexivity. unfold fsqr, fmul, is_zero.
  destruct (Req_EM_T (r * r) 0), (Req_EM_T r 0); try reflexivity; exfalso; nra.
Qed.

Lemma rsq_Fin (x0 y0 x y : R) :
  rsq x0 y0 (Fin x) (Fin y) = Fin ((x - x0) * (x - x0) + (y - y0) * (y - y0)).
Proof. reflexivity. Qed.

(** The squared distance is zero at the singularity and nowhere else. *)
Lemma rsq_zero (x0 y0 : R) (x y : fl) :
  is_zero (rsq x0 y0 x y) = true <-> x = Fin x0 /\ y = Fin y0.
Proof.
  destruct x as [a|s|], y as [b|t|]; cbn;
    try (split; [discriminate | intros [? ?]; discriminate]).
  - destruct (Req_EM_T _ 0) as [E|E]; split; try discriminate; try reflexivity.
    + intros _. destruct (Rplus_sqr_eq_0 (a + - x0) (b + - y0)) as [? ?];
        [unfold Rsqr; exact E | split; f_equal; lra].
    + intros [Ha Hb]. injection Ha as Ha. injection Hb as Hb. subst.
      exfalso. apply E. lra.
  - destruct s, t; cbn; (split; [discriminate | intros [? ?]; discriminate]).
Qed.

Lemma rsq_nonzero (x0 y0 : R) (x y : fl) :
  (x, y) <> (Fin x0, Fin y0) -> is_zero (rsq x0 y0 x y) = false.
Proof.
  intros H. destruct (is_zero (rsq x0 y0 x y)) eqn:E; [|reflexivity].
  apply rsq_zero in E as [-> ->]. contradiction.
Qed.

Section floats.
Variables (strength x0 y0 : R) (color : string) (x y : fl).
Hypothesis off : (x, y) <> (Fin x0, Fin y0).

Let Hr : is_zero (fadd (fsqr (fsub x (Fin x0))) (fsqr (fsub y (Fin y0)))) = false.
Proof. exact (rsq_nonzero _ _ _ _ off). Qed.

Let Hq : is_zero (fsqr (fadd (fsqr (fsub x (Fin x0))) (fsqr (fsub y (Fin y0))))) = false.
Proof. rewrite is_zero_fsqr. exact Hr. Qed.

Lemma PointDoublet_compute_flow_float :
  PointDoublet_compute_flow (PointDoublet_init x0 y0 strength color) (VFloat x) (VFloat y)
  = Ok (VFloat (doublet_u strength x0 y0 x y), VFloat (doublet_v strength x0 y0 x y)).
Proof.
  pose proof Hr; pose proof Hq. unfold PointDoublet_compute_flow.
  rewrite PointDoublet_x, PointDoublet_y, PointDoublet_strength.
  strength_factor strength. py_eval. reflexivity.
Qed.

Lemma PointDoublet_compute_psi_float :
  PointDoublet_compute_psi (PointDoublet_init x0 y0 strength color) (VFloat x) (VFloat y)
  = Ok (VFloat (doublet_psi strength x0 y0 x y)).
Proof.
  pose proof Hr. unfold PointDoublet_compute_psi.
  rewrite PointDoublet_x, PointDoublet_y, PointDoublet_strength.
  strength_factor strength. py_eval. reflexivity.
Qed.

Lemma PointSource_compute_flow_float :
  PointSource_compute_flow (PointSource_init x0 y0 strength color) (VFloat x) (VFloat y)
  = Ok (VFloat (source_u strength x0 y0 x y), VFloat (source_v strength x0 y0 x y)).
Proof.
  pose proof Hr. unfold PointSource_compute_flow.
  rewrite PointSource_x, PointSource_y, PointSource_strength.
  strength_factor strength. py_eval. reflexivity.
Qed.

Lemma PointVortex_compute_flow_float :
  PointVortex_compute_flow (PointVortex_init x0 y0 strength color) (VFloat x) (VFloat y)
  = Ok (VFloat (vortex_u strength x0 y0 x y), VFloat (vortex_v strength x0 y0 x y)).
Proof.
  pose proof Hr. unfold PointVortex_compute_flow.
  rewrite PointVortex_x, PointVortex_y, PointVortex_strength.
  strength_factor strength. py_eval. reflexivity.
Qed.

(** Off the singularity, [compute_flow] on a single point returns. *)
Lemma compute_flow_float (c : class) :
  compute_flow (make c x0 y0 strength color) (VFloat x) (VFloat y)
  = Ok (VFloat (flow_u c strength x0 y0 x y), VFloat (flow_v c strength x0 y0 x y)).
Proof.
  destruct c; unfold compute_flow; cbn.
  - apply PointDoublet_compute_flow_float.
  - apply PointSource_compute_flow_float.
  - apply PointVortex_compute_flow_float.
Qed.
End floats.

Lemma rsq_at_singularity (x0 y0 : R) :
  fadd (fsqr (fsub (Fin x0) (Fin x0))) (fsqr (fsub (Fin y0) (Fin y0))) = Fin 0.
Proof. cbn. f_equal. ring. Qed.

(** On a single Python float the division is Python's own: at the
    singularity itself [compute_flow] raises [ZeroDivisionError], where
    the same point inside an array gives a non-finite element. *)
Lemma compute_flow_float_at_singularity (c : class) (x0 y0 strength : R) (color : string) :
  compute_flow (make c x0 y0 strength color) (VFloat (Fin x0)) (VFloat (Fin y0))
  = Raise ZeroDivisionError.
Proof.
  pose proof (rsq_at_singularity x0 y0) as H0.
  destruct c; unfold compute_flow, make; cbn [cls PointDoublet_init PointSource_init
    PointVortex_init setattr new];
    [unfold PointDoublet_compute_flow; rewrite PointDoublet_x, PointDoublet_y, PointDoublet_strength
    |unfold PointSource_compute_flow; rewrite PointSource_x, PointSource_y, PointSource_strength
    |unfold PointVortex_compute_flow; rewrite PointVortex_x, PointVortex_y, PointVortex_strength];
    strength_factor strength; py_eval; rewrite H0;
    change (fsqr (Fin 0)) with (Fin (0 * 0)); rewrite ?Rmult_0_l, !float_div_0; reflexivity.
Qed.

(** ** The doublet's u-component (C1) *)

Lemma off_singularity (x0 y0 x y : R) :
  (x, y) <> (x0, y0) -> (x - x0) * (x - x0) + (y - y0) * (y - y0) <> 0.
Proof.
  intros H E. apply H.
  destruct (Rplus_sqr_eq_0 (x - x0) (y - y0)) as [? ?]; [exact E|].
  f_equal; lra.
Qed.

(** What the code computes at a point off the doublet: the second square
    in the numerator is the square of the absolute [y]. *)
Lemma doublet_u_real (mu x0 y0 x y : R) :
  (x, y) <> (x0, y0) ->
  doublet_u mu x0 y0 (Fin x) (Fin y)
  = Fin (- mu / (2 * PI) * ((x - x0) ^ 2 - y ^ 2) / ((x - x0) ^ 2 + (y - y0) ^ 2) ^ 2).
Proof.
  intros H. apply off_singularity in H.
  unfold doublet_u. cbn [fneg]. rewrite half_over_pi_Fin, rsq_Fin.
  cbn [fsub fadd fneg fsqr fmul].
  assert (Hq : ((x - x0) * (x - x0) + (y - y0) * (y - y0))
               * ((x - x0) * (x - x0) + (y - y0) * (y - y0)) <> 0) by nra.
  rewrite fdiv_Fin by exact Hq. f_equal.
  pose proof PI_neq0. field. split; [assumption |].
  intros E. apply H. rewrite <- E. ring.
Qed.

(** For a doublet on the x-axis the absolute and the relative [y] are the
    same number, and the code computes the formula of the
    specification. *)
Lemma doublet_u_on_axis (mu x0 x y : R) :
  (x, y) <> (x0, 0) ->
  doublet_u mu x0 0 (Fin x) (Fin y) = Fin (spec_doublet_u mu (x - x0) (y - 0)).
Proof.
  intros H. rewrite doublet_u_real by exact H. unfold spec_doublet_u.
  f_equal. f_equal. f_equal. f_equal. rewrite Rminus_0_r. reflexivity.
Qed.

(** C1 (defect in the code).  The doublet of strength 1 at (0, 1),
    evaluated at (1, 1): the offsets are dx = 1, dy = 0 and the formula of
    the specification gives -1/(2 pi); [compute_flow] squares the absolute
    y = 1 and returns u = 0.  The same offsets with the doublet at the
    origin give -1/(2 pi), so the result is not invariant under a common
    translation either. *)
Theorem C1_doublet_u_squares_absolute_y :
  PointDoublet_compute_flow (PointDoublet_init 0 1 1 "g") (VFloat (Fin 1)) (VFloat (Fin 1))
  = Ok (VFloat (Fin 0), VFloat (Fin 0))
  /\ spec_doublet_u 1 (1 - 0) (1 - 1) = - / (2 * PI)
  /\ spec_doublet_u 1 (1 - 0) (1 - 1) <> 0
  /\ PointDoublet_compute_flow (PointDoublet_init 0 0 1 "g") (VFloat (Fin 1)) (VFloat (Fin 0))
     = Ok (VFloat (Fin (- / (2 * PI))), VFloat (Fin 0)).
Proof.
  pose proof PI_neq0 as Hpi. pose proof PI_RGT_0 as Hpos.
  assert (Hs : spec_doublet_u 1 (1 - 0) (1 - 1) = - / (2 * PI)).
  { unfold spec_doublet_u. field. exact Hpi. }
  assert (Hinv : 0 < / (2 * PI)) by (apply Rinv_0_lt_compat; lra).
  repeat split.
  - rewrite PointDoublet_compute_flow_float by (intros E; injection E; intros; lra).
    unfold doublet_u, doublet_v. cbn [fneg]. rewrite half_over_pi_Fin, rsq_Fin.
    cbn [fsub fadd fneg fsqr fmul].
    rewrite !fdiv_Fin by lra. do 3 f_equal; f_equal; field; exact Hpi.
  - exact Hs.
  - rewrite Hs. lra.
  - rewrite PointDoublet_compute_flow_float by (intros E; injection E; intros; lra).
    unfold doublet_u, doublet_v. cbn [fneg]. rewrite half_over_pi_Fin, rsq_Fin.
    cbn [fsub fadd fneg fsqr fmul].
    rewrite !fdiv_Fin by lra. do 3 f_equal; f_equal; field; exact Hpi.
Qed.

(** ** The source's stream function (C2) *)

(** C2 (defect in the code).  [PointSource.compute_psi] reads [self.yrel],
    which [__init__] never assigns: for every source and every point the
    call raises [AttributeError] and returns no value. *)
Theorem C2_PointSource_compute_psi_raises (m x0 y0 : R) (color : string) (x y : R) :
  PointSource_compute_psi (PointSource_init x0 y0 m color) (VFloat (Fin x)) (VFloat (Fin y))
  = Raise (AttributeError "yrel").
Proof.
  unfold PointSource_compute_psi.
  rewrite PointSource_x, PointSource_y, PointSource_strength, PointSource_yrel.
  strength_factor m. py_eval. reflexivity.
Qed.

(** The same on arrays: whatever the coordinates, no value comes back. *)
Lemma PointSource_compute_psi_array_raises (m x0 y0 : R) (color : string) (X Y : ndarray) :
  PointSource_compute_psi (PointSource_init x0 y0 m color) (VArray X) (VArray Y)
  = Raise (AttributeError "yrel").
Proof.
  unfold PointSource_compute_psi.
  rewrite PointSource_x, PointSource_y, PointSource_strength, PointSource_yrel.
  strength_factor m. py_eval. reflexivity.
Qed.

(** Had [xrel] and [yrel] been attributes holding zero, the method would
    return the formula of the specification. *)
Lemma PointSource_compute_psi_patched (m x0 y0 : R) (color : string) (x y : R) :
  let self := setattr (setattr (PointSource_init x0 y0 m color)
                         "xrel" (VFloat (Fin 0))) "yrel" (VFloat (Fin 0)) in
  PointSource_compute_psi self (VFloat (Fin x)) (VFloat (Fin y))
  = Ok (VFloat (Fin (spec_source_psi m x0 y0 x y))).
Proof.
  intros self.
  assert (Hx : self.@"x" = Ok (VFloat (Fin x0))) by (subst self; attr).
  assert (Hy : self.@"y" = Ok (VFloat (Fin y0))) by (subst self; attr).
  assert (Hs : self.@"strength" = Ok (VFloat (Fin m))) by (subst self; attr).
  assert (Hxr : self.@"xrel" = Ok (VFloat (Fin 0))) by (subst self; attr).
  assert (Hyr : self.@"yrel" = Ok (VFloat (Fin 0))) by (subst self; attr).
  unfold PointSource_compute_psi. rewrite Hx, Hy, Hs, Hxr, Hyr.
  py_eval. unfold arctan2, binop. py_eval.
  cbn [fsub fadd fneg fatan2 fmul]. rewrite !fdiv_Fin by (first [lra | apply PI_neq0]).
  cbn [fmul]. unfold spec_source_psi. do 3 f_equal.
  replace (y + - y0 + - 0) with (y - y0) by lra.
  replace (x + - x0 + - 0) with (x - x0) by lra.
  pose proof PI_neq0. field. assumption.
Qed.

(** ** Arrays handed to the vortex's stream function (C3) *)

(** [math.log] converts its argument to one float: an array of any other
    size than one is refused. *)
Lemma log_array_raises (A : ndarray) :
  length (data A) <> 1%nat -> log (Ok (VArray A)) = Raise TypeError.
Proof.
  intros H. unfold log. rewrite bind_Ok. unfold to_float.
  destruct (data A) as [|e [|e' l]]; try reflexivity. contradiction.
Qed.

Lemma PointVortex_compute_psi_array_raises (strength x0 y0 : R) (color : string)
    (X Y : ndarray) :
  shape X = shape Y ->
  length (data X) = length (data Y) ->
  length (data X) <> 1%nat ->
  PointVortex_compute_psi (PointVortex_init x0 y0 strength color) (VArray X) (VArray Y)
  = Raise TypeError.
Proof.
  intros Hs Hl H1. unfold PointVortex_compute_psi.
  rewrite PointVortex_x, PointVortex_y, PointVortex_strength.
  py_eval. rewrite log_array_raises; [reflexivity |].
  cbn [data]. rewrite length_zip_with, !length_map. lia.
Qed.

(** On a single point off the vortex the same method returns
    [strength/(4 pi) * ln(r^2)]. *)
Lemma PointVortex_compute_psi_float (strength x0 y0 : R) (color : string) (x y : R) :
  (x, y) <> (x0, y0) ->
  PointVortex_compute_psi (PointVortex_init x0 y0 strength color) (VFloat (Fin x)) (VFloat (Fin y))
  = Ok (VFloat (Fin (strength / 4 / PI * ln ((x - x0) * (x - x0) + (y - y0) * (y - y0))))).
Proof.
  intros H. apply off_singularity in H. unfold PointVortex_compute_psi.
  rewrite PointVortex_x, PointVortex_y, PointVortex_strength.
  py_eval. unfold log. rewrite bind_Ok. cbn [to_float fsub fadd fneg fsqr fmul].
  rewrite bind_Ok.
  destruct (Rlt_dec 0 _) as [Hp|Hn].
  - rewrite bind_Ok. cbn [arith]. rewrite fmap_Ok. unfold noraise.
    rewrite !fdiv_Fin by (first [lra | apply PI_neq0]). reflexivity.
  - exfalso. apply Hn.
    pose proof (Rle_0_sqr (x + - x0)). pose proof (Rle_0_sqr (y + - y0)).
    unfold Rsqr in *.
    assert ((x + - x0) * (x + - x0) + (y + - y0) * (y + - y0) <> 0)
      by (intros E; apply H; rewrite <- E; ring).
    lra.
Qed.

(** C3 (defect in the code).  A vortex at the origin and the two points
    (1, 0) and (2, 0), neither of them the vortex's position, given as two
    arrays of shape (2,): [compute_psi] hands the array of squared distances
    to [math.log], which takes a single float, and raises [TypeError]
    instead of returning an array of shape (2,). *)
Theorem C3_PointVortex_compute_psi_array_raises :
  PointVortex_compute_psi (PointVortex_init 0 0 1 "c")
    (VArray (mk_ndarray [2%nat] [Fin 1; Fin 2]))
    (VArray (mk_ndarray [2%nat] [Fin 0; Fin 0]))
  = Raise TypeError.
Proof. apply PointVortex_compute_psi_array_raises; cbn; [reflexivity | reflexivity | lia]. Qed.

(** ** Lists repeated into grids *)

Lemma lookup_join_replicate {A} (l : list A) (n i j : nat) :
  (i < n)%nat -> (j < length l)%nat ->
  mjoin (replicate n l) !! (i * length l + j)%nat = l !! j.
Proof.
  revert i. induction n as [|n IH]; intros i Hi Hj; [lia|].
  cbn [replicate mjoin list_join]. destruct i as [|i].
  - cbn. apply lookup_app_l. exact Hj.
  - rewrite lookup_app_r by (cbn; lia).
    replace (S i * length l + j - length l)%nat with (i * length l + j)%nat by (cbn; lia).
    apply IH; [lia | exact Hj].
Qed.

Lemma lookup_join_map_replicate {A} (l : list A) (n i j : nat) :
  (j < n)%nat ->
  mjoin (map (replicate n) l) !! (i * n + j)%nat = l !! i.
Proof.
  intros Hj. revert i. induction l as [|a l IH]; intros i.
  - cbn. rewrite lookup_nil. reflexivity.
  - cbn [map mjoin list_join]. destruct i as [|i].
    + cbn. rewrite lookup_app_l by (rewrite length_replicate; exact Hj).
      apply lookup_replicate_2. exact Hj.
    + rewrite lookup_app_r by (rewrite length_replicate; cbn; lia).
      rewrite length_replicate.
      replace (S i * n + j - n)%nat with (i * n + j)%nat by (cbn; lia).
      apply IH.
Qed.

Lemma length_join_replicate {A} (l : list A) (n : nat) :
  length (mjoin (replicate n l)) = (n * length l)%nat.
Proof.
  induction n as [|n IH]; [reflexivity|].
  change (mjoin (replicate (S n) l)) with (l ++ mjoin (replicate n l)).
  rewrite length_app, IH. reflexivity.
Qed.

Lemma length_join_map_replicate {A} (l : list A) (n : nat) :
  length (mjoin (map (replicate n) l)) = (length l * n)%nat.
Proof.
  induction l as [|a l IH]; [reflexivity|].
  change (mjoin (map (replicate n) (a :: l)))
    with (replicate n a ++ mjoin (map (replicate n) l)).
  rewrite length_app, length_replicate, IH. reflexivity.
Qed.

(** ** linspace *)

Lemma linspace_negative (start stop : R) (num : Z) :
  (num < 0)%Z -> linspace start stop num = Raise ValueError.
Proof. intros H. unfold linspace. rewrite (proj2 (Z.ltb_lt _ _) H). reflexivity. Qed.

Lemma linspace_ok (start stop : R) (num : Z) :
  (0 <= num)%Z ->
  linspace start stop num = Ok (mk_ndarray [Z.to_nat num] (map Fin (samples start stop num))).
Proof. intros H. unfold linspace. rewrite (proj2 (Z.ltb_ge _ _) H). reflexivity. Qed.

Lemma length_samples (start stop : R) (num : Z) :
  length (samples start stop num) = Z.to_nat num.
Proof.
  unfold samples.
  destruct (1 <? num)%Z; rewrite ?length_insert, length_map, length_seq; reflexivity.
Qed.

Lemma samples_lookup (start stop : R) (num : Z) (i : nat) :
  (2 <= num)%Z -> (i < Z.to_nat num)%nat ->
  samples start stop num !! i = Some (start + INR i * (stop - start) / IZR (num - 1)).
Proof.
  intros Hn Hi. unfold samples. rewrite (proj2 (Z.ltb_lt 1 num)) by lia.
  destruct (decide (i = pred (Z.to_nat num))) as [->|Hne].
  - rewrite list_lookup_insert_eq by (rewrite length_map, length_seq; lia).
    f_equal. replace (INR (pred (Z.to_nat num))) with (IZR (num - 1)).
    + field. apply not_0_IZR. lia.
    + rewrite INR_IZR_INZ. f_equal. lia.
  - rewrite list_lookup_insert_ne by congruence.
    rewrite list_lookup_fmap. rewrite lookup_seq_lt by exact Hi. cbn. f_equal.
    unfold Rdiv. ring.
Qed.

Lemma samples_one (start stop : R) : samples start stop 1 = [start].
Proof.
  unfold samples. change (Z.to_nat 1) with 1%nat.
  cbn [Z.ltb Z.compare Pos.compare Pos.compare_cont seq map].
  f_equal. cbn [INR]. ring.
Qed.

(** Every sample of [linspace] is the evenly spaced one; with a single
    sample that is the start of the interval. *)
Lemma samples_sample (start stop : R) (num : Z) (i : nat) :
  (0 < num)%Z -> (i < Z.to_nat num)%nat ->
  samples start stop num !! i = Some (sample start stop num i).
Proof.
  intros Hn Hi. unfold sample. destruct (Z.eqb_spec num 1) as [->|Hne].
  - rewrite samples_one. destruct i as [|i]; [reflexivity|].
    change (Z.to_nat 1) with 1%nat in Hi. lia.
  - apply samples_lookup; [lia | exact Hi].
Qed.

(** ** The grid (C8, C9) *)

Lemma grid_raises (self : FlowField2D) :
  (nx self < 0)%Z \/ (ny self < 0)%Z -> FlowField2D_grid self = Raise ValueError.
Proof.
  intros H. unfold FlowField2D_grid, FlowField2D_x_values, FlowField2D_y_values.
  destruct (Z.ltb_spec (nx self) 0) as [Hx|Hx].
  - rewrite (linspace_negative _ _ (nx self)) by exact Hx. reflexivity.
  - rewrite (linspace_ok _ _ (nx self)) by exact Hx. rewrite bind_Ok.
    rewrite linspace_negative by lia. reflexivity.
Qed.

Lemma grid_ok (self : FlowField2D) :
  (0 <= nx self)%Z -> (0 <= ny self)%Z ->
  FlowField2D_grid self
  = Ok (meshgrid (mk_ndarray [Z.to_nat (nx self)] (map Fin (x_samples self)))
                 (mk_ndarray [Z.to_nat (ny self)] (map Fin (y_samples self)))).
Proof.
  intros Hx Hy. unfold FlowField2D_grid, FlowField2D_x_values, FlowField2D_y_values.
  rewrite !linspace_ok by assumption. reflexivity.
Qed.

Lemma meshgrid_shape (xv yv : ndarray) :
  shape (fst (meshgrid xv yv)) = [length (data yv); length (data xv)]
  /\ shape (snd (meshgrid xv yv)) = [length (data yv); length (data xv)].
Proof. split; reflexivity. Qed.

Lemma meshgrid_length (xv yv : ndarray) :
  length (data (fst (meshgrid xv yv))) = (length (data yv) * length (data xv))%nat
  /\ length (data (snd (meshgrid xv yv))) = (length (data yv) * length (data xv))%nat.
Proof.
  unfold meshgrid. cbn [fst snd data]. split.
  - apply length_join_replicate.
  - apply length_join_map_replicate.
Qed.

Lemma meshgrid_cell (xv yv : ndarray) (i j : nat) :
  (i < length (data yv))%nat -> (j < length (data xv))%nat ->
  cell (fst (meshgrid xv yv)) i j = data xv !! j
  /\ cell (snd (meshgrid xv yv)) i j = data yv !! i.
Proof.
  intros Hi Hj. unfold cell, meshgrid. cbn [fst snd shape data].
  rewrite (proj2 (Nat.ltb_lt _ _) Hj). split.
  - apply lookup_join_replicate; assumption.
  - apply lookup_join_map_replicate; assumption.
Qed.

Lemma length_x_samples self : length (x_samples self) = Z.to_nat (nx self).
Proof. apply length_samples. Qed.
Lemma length_y_samples self : length (y_samples self) = Z.to_nat (ny self).
Proof. apply length_samples. Qed.

Lemma grid_shape (self : FlowField2D) :
  (0 <= nx self)%Z -> (0 <= ny self)%Z ->
  exists X Y, FlowField2D_grid self = Ok (X, Y)
    /\ shape X = [Z.to_nat (ny self); Z.to_nat (nx self)]
    /\ shape Y = [Z.to_nat (ny self); Z.to_nat (nx self)]
    /\ length (data X) = (Z.to_nat (ny self) * Z.to_nat (nx self))%nat
    /\ length (data Y) = (Z.to_nat (ny self) * Z.to_nat (nx self))%nat
    /\ forall i j, (i < Z.to_nat (ny self))%nat -> (j < Z.to_nat (nx self))%nat ->
         cell X i j = Fin <$> x_samples self !! j
         /\ cell Y i j = Fin <$> y_samples self !! i.
Proof.
  intros Hx Hy. eexists _, _. split; [apply grid_ok; assumption|].
  pose proof (length_x_samples self) as Lx. pose proof (length_y_samples self) as Ly.
  unfold meshgrid. cbn [shape data]. rewrite !length_map, Lx, Ly.
  split; [reflexivity|]. split; [reflexivity|].
  split; [rewrite length_join_replicate, length_map, Lx; reflexivity|].
  split; [rewrite length_join_map_replicate, length_map, Ly; reflexivity|].
  intros i j Hi Hj. unfold cell. cbn [shape data].
  rewrite (proj2 (Nat.ltb_lt _ _) Hj), <- !list_lookup_fmap. split.
  - replace (Z.to_nat (nx self)) with (length (map Fin (x_samples self))) at 1
      by (rewrite length_map; exact Lx).
    apply lookup_join_replicate; [assumption | rewrite length_map, Lx; assumption].
  - apply lookup_join_map_replicate. assumption.
Qed.

(** C8, counterexample.  With xlim = (1, 1), where xlim[0] >= xlim[1], and
    nx = ny = 2 the grid is generated without any error: every x
    coordinate is 1. *)
Lemma C8_degenerate_limits_accepted :
  let self := FlowField2D_init 0%nat None 0 0 (1, 1) (-1, 1) 2 2 in
  fst (xlim self) >= snd (xlim self)
  /\ FlowField2D_grid self
     = Ok (mk_ndarray [2%nat; 2%nat] [Fin 1; Fin 1; Fin 1; Fin 1],
           mk_ndarray [2%nat; 2%nat] [Fin (-1); Fin (-1); Fin 1; Fin 1]).
Proof.
  cbn zeta. split; [cbn; lra|].
  rewrite grid_ok by (cbn; lia).
  unfold x_samples, y_samples, samples, meshgrid, FlowField2D_init.
  cbn [nx ny xlim ylim fst snd data shape].
  change (Z.to_nat 2) with 2%nat.
  cbn [Z.ltb Z.compare Pos.compare Pos.compare_cont seq map pred length replicate
       mjoin list_join app list_insert insert INR Z.sub Z.add Z.opp Z.pos_sub Pos.pred_double].
  repeat (f_equal; try ring).
Qed.

Lemma sample_first lo hi n : sample lo hi n 0 = lo.
Proof. unfold sample. destruct (n =? 1)%Z; [reflexivity|]. cbn [INR]. unfold Rdiv. ring. Qed.

Lemma sample_last lo hi n :
  (2 <= n)%Z -> sample lo hi n (Z.to_nat n - 1) = hi.
Proof.
  intros H. unfold sample. rewrite (proj2 (Z.eqb_neq n 1)) by lia.
  replace (INR (Z.to_nat n - 1)) with (IZR (n - 1)).
  - field. apply not_0_IZR. lia.
  - rewrite INR_IZR_INZ. f_equal. lia.
Qed.

Lemma sample_step lo hi n i :
  (2 <= n)%Z ->
  sample lo hi n (S i) - sample lo hi n i = (hi - lo) / IZR (n - 1).
Proof.
  intros H. unfold sample. rewrite (proj2 (Z.eqb_neq n 1)) by lia.
  rewrite S_INR. field. apply not_0_IZR. lia.
Qed.

(** C9, as amended.  For a valid configuration the grid is a pair of arrays
    of shape (ny, nx); column [j] of the first holds sample [j] of nx evenly
    spaced samples over xlim, row [i] of the second holds sample [i] of ny
    evenly spaced samples over ylim.  With at least two samples the extreme
    columns (rows) carry xlim[0] and xlim[1] (ylim[0] and ylim[1]) exactly;
    with a single sample the only column (row) carries xlim[0]
    (ylim[0]). *)
Theorem C9_grid_samples (self : FlowField2D) :
  fst (xlim self) < snd (xlim self) -> fst (ylim self) < snd (ylim self) ->
  (0 < nx self)%Z -> (0 < ny self)%Z ->
  exists X Y, FlowField2D_grid self = Ok (X, Y)
    /\ shape X = [Z.to_nat (ny self); Z.to_nat (nx self)]
    /\ shape Y = [Z.to_nat (ny self); Z.to_nat (nx self)]
    /\ (forall i j, (i < Z.to_nat (ny self))%nat -> (j < Z.to_nat (nx self))%nat ->
          cell X i j = Some (Fin (x_sample self j))
          /\ cell Y i j = Some (Fin (y_sample self i)))
    /\ ((2 <= nx self)%Z -> forall i, (i < Z.to_nat (ny self))%nat ->
          cell X i 0 = Some (Fin (fst (xlim self)))
          /\ cell X i (Z.to_nat (nx self) - 1) = Some (Fin (snd (xlim self))))
    /\ ((2 <= ny self)%Z -> forall j, (j < Z.to_nat (nx self))%nat ->
          cell Y 0 j = Some (Fin (fst (ylim self)))
          /\ cell Y (Z.to_nat (ny self) - 1) j = Some (Fin (snd (ylim self))))
    /\ ((nx self = 1)%Z -> forall i, (i < Z.to_nat (ny self))%nat ->
          cell X i 0 = Some (Fin (fst (xlim self))))
    /\ ((ny self = 1)%Z -> forall j, (j < Z.to_nat (nx self))%nat ->
          cell Y 0 j = Some (Fin (fst (ylim self)))).
Proof.
  intros _ _ Hx Hy.
  destruct (grid_shape self) as (X & Y & HG & HX & HY & _ & _ & HC); [lia | lia |].
  assert (HS : forall i j, (i < Z.to_nat (ny self))%nat -> (j < Z.to_nat (nx self))%nat ->
            cell X i j = Some (Fin (x_sample self j))
            /\ cell Y i j = Some (Fin (y_sample self i))).
  { intros i j Hi Hj. destruct (HC i j Hi Hj) as [-> ->].
    unfold x_samples, y_samples, x_sample, y_sample.
    rewrite !samples_sample by assumption. split; reflexivity. }
  exists X, Y. do 4 (split; [assumption|]).
  split; [|split; [|split]].
  - intros H2 i Hi. split.
    + destruct (HS i 0%nat) as [-> _]; [assumption | lia |].
      unfold x_sample. rewrite sample_first. reflexivity.
    + destruct (HS i (Z.to_nat (nx self) - 1)%nat) as [-> _]; [assumption | lia |].
      unfold x_sample. rewrite sample_last by assumption. reflexivity.
  - intros H2 j Hj. split.
    + destruct (HS 0%nat j) as [_ ->]; [lia | assumption |].
      unfold y_sample. rewrite sample_first. reflexivity.
    + destruct (HS (Z.to_nat (ny self) - 1)%nat j) as [_ ->]; [lia | assumption |].
      unfold y_sample. rewrite sample_last by assumption. reflexivity.
  - intros H1 i Hi. destruct (HS i 0%nat) as [-> _]; [assumption | lia |].
    unfold x_sample. rewrite sample_first. reflexivity.
  - intros H1 j Hj. destruct (HS 0%nat j) as [_ ->]; [lia | assumption |].
    unfold y_sample. rewrite sample_first. reflexivity.
Qed.


(** C9, witness: nx = ny = 300 over xlim = (-1, 2) gives arrays of shape
    (300, 300) whose extreme columns carry -1 and 2. *)
Lemma C9_grid_300 :
  let self := FlowField2D_init 0%nat None 0 0 (-1, 2) (-1, 1) 300 300 in
  exists X Y, FlowField2D_grid self = Ok (X, Y)
    /\ shape X = [300%nat; 300%nat] /\ shape Y = [300%nat; 300%nat]
    /\ forall i, (i < 300)%nat ->
         cell X i 0 = Some (Fin (-1)) /\ cell X i 299 = Some (Fin 2).
Proof.
  intros self.
  destruct (C9_grid_samples self) as (X & Y & HG & HX & HY & _ & HE & _);
    [cbn; lra | cbn; lra | cbn; lia | cbn; lia |].
  exists X, Y. split; [exact HG|]. split; [exact HX|]. split; [exact HY|].
  intros i Hi. apply (HE ltac:(cbn; lia) i). exact Hi.
Defined.

(** C9, counterexample.  nx = ny = 1 over (-1, 1) is a valid configuration;
    the grid has the single column x = -1 = xlim[0], so its last column
    does not carry xlim[1] = 1: the samples are not inclusive of the upper
    limit. *)
Lemma C9_single_sample_misses_upper_limit :
  let self := FlowField2D_init 0%nat None 0 0 (-1, 1) (-1, 1) 1 1 in
  fst (xlim self) < snd (xlim self) /\ fst (ylim self) < snd (ylim self)
  /\ (0 < nx self)%Z /\ (0 < ny self)%Z
  /\ FlowField2D_grid self
     = Ok (mk_ndarray [1%nat; 1%nat] [Fin (-1)], mk_ndarray [1%nat; 1%nat] [Fin (-1)])
  /\ cell (mk_ndarray [1%nat; 1%nat] [Fin (-1)]) 0 (Z.to_nat (nx self) - 1) = Some (Fin (-1))
  /\ Fin (-1) <> Fin (snd (xlim self)).
Proof.
  cbn zeta. repeat split; try (cbn; lra); try (cbn; lia).
  - rewrite grid_ok by (cbn; lia).
    unfold x_samples, y_samples, FlowField2D_init. cbn [nx ny xlim ylim fst snd].
    rewrite !samples_one. reflexivity.
  - cbn. intros E. injection E. lra.
Qed.

Lemma sample_constant lo n i : sample lo lo n i = lo.
Proof. unfold sample. destruct (n =? 1)%Z; [reflexivity|]. unfold Rdiv. ring. Qed.

Lemma sample_decreases lo hi n i :
  hi < lo -> (S i < Z.to_nat n)%nat -> sample lo hi n (S i) < sample lo hi n i.
Proof.
  intros Hlt Hi. assert (Hn : (2 <= n)%Z) by lia.
  pose proof (sample_step lo hi n i Hn) as E.
  assert (0 < / IZR (n - 1)) by (apply Rinv_0_lt_compat, IZR_lt; lia).
  assert ((hi - lo) / IZR (n - 1) < 0) by (unfold Rdiv; nra).
  lra.
Qed.

(** What grid generation returns for non-negative counts, the limits in
    any order. *)
Lemma grid_limits (self : FlowField2D) :
  (0 <= nx self)%Z -> (0 <= ny self)%Z ->
  exists X Y, FlowField2D_grid self = Ok (X, Y)
    /\ shape X = [Z.to_nat (ny self); Z.to_nat (nx self)]
    /\ shape Y = [Z.to_nat (ny self); Z.to_nat (nx self)]
    /\ length (data X) = (Z.to_nat (ny self) * Z.to_nat (nx self))%nat
    /\ length (data Y) = (Z.to_nat (ny self) * Z.to_nat (nx self))%nat
    /\ (nx self = 0%Z \/ ny self = 0%Z -> data X = [] /\ data Y = [])
    /\ forall i j, (i < Z.to_nat (ny self))%nat -> (j < Z.to_nat (nx self))%nat ->
         exists x y, cell X i j = Some (Fin x) /\ cell Y i j = Some (Fin y)
           /\ (fst (xlim self) = snd (xlim self) -> x = fst (xlim self))
           /\ (fst (ylim self) = snd (ylim self) -> y = fst (ylim self))
           /\ (snd (xlim self) < fst (xlim self) -> (S j < Z.to_nat (nx self))%nat ->
               exists x', cell X i (S j) = Some (Fin x') /\ x' < x)
           /\ (snd (ylim self) < fst (ylim self) -> (S i < Z.to_nat (ny self))%nat ->
               exists y', cell Y (S i) j = Some (Fin y') /\ y' < y).
Proof.
  intros Hx Hy. destruct (grid_shape self Hx Hy) as (X & Y & HG & HX & HY & LX & LY & HC).
  assert (HS : forall i j, (i < Z.to_nat (ny self))%nat -> (j < Z.to_nat (nx self))%nat ->
            cell X i j = Some (Fin (x_sample self j))
            /\ cell Y i j = Some (Fin (y_sample self i))).
  { intros i j Hi Hj. destruct (HC i j Hi Hj) as [-> ->].
    unfold x_samples, y_samples, x_sample, y_sample.
    rewrite !samples_sample by lia. split; reflexivity. }
  exists X, Y. do 5 (split; [assumption|]). split.
  - intros H0. split; apply nil_length_inv; [rewrite LX | rewrite LY];
      destruct H0 as [-> | ->]; cbn; lia.
  - intros i j Hi Hj. destruct (HS i j Hi Hj) as [Cx Cy].
    exists (x_sample self j), (y_sample self i). split; [exact Cx|]. split; [exact Cy|].
    unfold x_sample, y_sample.
    split; [intros <-; apply sample_constant|].
    split; [intros <-; apply sample_constant|]. split.
    + intros Hlt HSj. eexists. split; [apply (HS i (S j) Hi HSj)|].
      apply sample_decreases; assumption.
    + intros Hlt HSi. eexists. split; [apply (HS (S i) j HSi Hj)|].
      apply sample_decreases; assumption.
Qed.

(** C8, as amended.  [FlowField2D.__init__] stores its arguments and checks
    nothing, so construction always succeeds.  Grid generation raises
    exactly when [nx] or [ny] is negative, the [ValueError] of
    [numpy.linspace]; for every other configuration, the limits in any
    order and the counts possibly zero, it returns two arrays of shape
    (ny, nx) holding ny * nx elements: none when a count is zero; with
    equal limits every coordinate along that axis is the limit itself, and
    with the limits inverted the coordinates strictly decrease along the
    axis. *)
Theorem C8_grid_raises_only_on_negative_counts
    (defaults : loc) (points_arg : option loc) (uinf alpha : R)
    (xlim ylim : R * R) (nx ny : Z) :
  let self := FlowField2D_init defaults points_arg uinf alpha xlim ylim nx ny in
  ((nx < 0)%Z \/ (ny < 0)%Z -> FlowField2D_grid self = Raise ValueError)
  /\ ((0 <= nx)%Z -> (0 <= ny)%Z ->
      exists X Y, FlowField2D_grid self = Ok (X, Y)
        /\ shape X = [Z.to_nat ny; Z.to_nat nx] /\ shape Y = [Z.to_nat ny; Z.to_nat nx]
        /\ length (data X) = (Z.to_nat ny * Z.to_nat nx)%nat
        /\ length (data Y) = (Z.to_nat ny * Z.to_nat nx)%nat
        /\ (nx = 0%Z \/ ny = 0%Z -> data X = [] /\ data Y = [])
        /\ forall i j, (i < Z.to_nat ny)%nat -> (j < Z.to_nat nx)%nat ->
             exists x y, cell X i j = Some (Fin x) /\ cell Y i j = Some (Fin y)
               /\ (fst xlim = snd xlim -> x = fst xlim)
               /\ (fst ylim = snd ylim -> y = fst ylim)
               /\ (snd xlim < fst xlim -> (S j < Z.to_nat nx)%nat ->
                   exists x', cell X i (S j) = Some (Fin x') /\ x' < x)
               /\ (snd ylim < fst ylim -> (S i < Z.to_nat ny)%nat ->
                   exists y', cell Y (S i) j = Some (Fin y') /\ y' < y)).
Proof.
  intros self. split.
  - intros H. apply grid_raises. exact H.
  - intros Hx Hy. exact (grid_limits self Hx Hy).
Qed.

(** C8, witness: nx = -1 raises; nx = 0 with inverted limits returns an
    empty grid; nx = ny = 2 with xlim inverted returns a grid whose x
    coordinates decrease along the row. *)
Lemma C8_witness :
  FlowField2D_grid (FlowField2D_init 0%nat None 0 0 (-1, 1) (-1, 1) (-1) 100) = Raise ValueError
  /\ (exists X Y, FlowField2D_grid (FlowField2D_init 0%nat None 0 0 (1, -1) (-1, 1) 0 5) = Ok (X, Y)
        /\ shape X = [5%nat; 0%nat] /\ shape Y = [5%nat; 0%nat]
        /\ data X = [] /\ data Y = [])
  /\ (exists X Y, FlowField2D_grid (FlowField2D_init 0%nat None 0 0 (1, -1) (-1, 1) 2 2) = Ok (X, Y)
        /\ exists x x', cell X 0 0 = Some (Fin x) /\ cell X 0 1 = Some (Fin x') /\ x' < x).
Proof.
  split; [|split].
  - apply (C8_grid_raises_only_on_negative_counts 0%nat None 0 0 (-1, 1) (-1, 1) (-1) 100).
    left. lia.
  - destruct (C8_grid_raises_only_on_negative_counts 0%nat None 0 0 (1, -1) (-1, 1) 0 5)
      as [_ H].
    destruct H as (X & Y & HG & HX & HY & _ & _ & HE & _); [lia | lia |].
    exists X, Y. split; [exact HG|]. split; [exact HX|]. split; [exact HY|].
    apply HE. left. reflexivity.
  - destruct (C8_grid_raises_only_on_negative_counts 0%nat None 0 0 (1, -1) (-1, 1) 2 2)
      as [_ H].
    destruct H as (X & Y & HG & _ & _ & _ & _ & _ & HC); [lia | lia |].
    exists X, Y. split; [exact HG|].
    destruct (HC 0%nat 0%nat) as (x & y & Cx & _ & _ & _ & Hd & _); [cbn; lia | cbn; lia |].
    destruct Hd as (x' & Cx' & Hlt); [cbn; lra | cbn; lia |].
    exists x, x'. split; [exact Cx|]. split; [exact Cx'|]. exact Hlt.
Defined.

(** ** Superposition (C5, C6, C7) *)

Lemma py_add_values (a b : value) : (val a + val b)%py = arith (noraise fadd) fadd a b.
Proof. reflexivity. Qed.

(** Adding a conforming value to an array: the array keeps its shape and
    every element receives the element of the value at its index. *)
Lemma add_conforms (U : ndarray) (r : value) :
  conforms (shape U) (length (data U)) r ->
  exists U', arith (noraise fadd) fadd (VArray U) r = Ok (VArray U')
    /\ shape U' = shape U /\ length (data U') = length (data U)
    /\ forall k a b, data U !! k = Some a -> elt r k = Some b ->
         data U' !! k = Some (fadd a b).
Proof.
  destruct r as [f|A|s]; cbn [conforms arith]; [intros _ | intros [Hs Hl] | contradiction].
  - eexists. split; [reflexivity|]. cbn [shape data]. rewrite length_map.
    repeat split. intros k a b Ha [= <-].
    rewrite list_lookup_fmap, Ha. reflexivity.
  - rewrite decide_True by congruence.
    eexists. split; [reflexivity|]. cbn [shape data elt].
    rewrite length_zip_with, Hl. repeat split; [lia|].
    intros k a b Ha Hb. rewrite lookup_zip_with, Ha. cbn. rewrite Hb. reflexivity.
Qed.

Section superposition.
Variables (self : FlowField2D) (X Y : ndarray).
Hypothesis HG : FlowField2D_grid self = Ok (X, Y).

Lemma self_x : FlowField2D_x self = Ok (VArray X).
Proof. unfold FlowField2D_x. rewrite HG. reflexivity. Qed.

Lemma self_y : FlowField2D_y self = Ok (VArray Y).
Proof. unfold FlowField2D_y. rewrite HG. reflexivity. Qed.

Lemma psi_loop_sum (ps : list obj) (rs : list value) :
  Forall2 (fun p r => compute_psi p (VArray X) (VArray Y) = Ok r
                      /\ conforms (shape X) (length (data X)) r) ps rs ->
  forall P, shape P = shape X -> length (data P) = length (data X) ->
  exists P', psi_loop self ps (VArray P) = Ok (VArray P')
    /\ shape P' = shape X /\ length (data P') = length (data X)
    /\ forall k a vs, data P !! k = Some a ->
         Forall2 (fun r v => elt r k = Some v) rs vs ->
         data P' !! k = Some (accumulate a vs).
Proof.
  induction 1 as [|p r ps rs [Hp Hc] _ IH]; intros P HS HL.
  - exists P. split; [reflexivity|]. repeat split; try assumption.
    intros k a vs Ha Hvs. inversion Hvs. exact Ha.
  - cbn [psi_loop]. rewrite self_x, self_y, !bind_Ok, Hp.
    rewrite <- HS, <- HL in Hc.
    destruct (add_conforms P r Hc) as (P1 & HA & HS1 & HL1 & HE).
    rewrite py_add_values, HA, bind_Ok.
    destruct (IH P1) as (P' & HR & HS' & HL' & HE'); [congruence | congruence |].
    exists P'. split; [exact HR|]. repeat split; try assumption.
    intros k a vs Ha Hvs. inversion Hvs as [|? v ? vs' Hv Hvs']; subst.
    cbn [accumulate fold_left]. apply HE'; [|exact Hvs'].
    apply HE; assumption.
Qed.

Lemma flow_loop_sum (ps : list obj) (rs : list (value * value)) :
  Forall2 (fun p r => compute_flow p (VArray X) (VArray Y) = Ok r
                      /\ conforms (shape X) (length (data X)) (fst r)
                      /\ conforms (shape X) (length (data X)) (snd r)) ps rs ->
  forall U V, shape U = shape X -> length (data U) = length (data X) ->
              shape V = shape X -> length (data V) = length (data X) ->
  exists U' V', flow_loop self ps (VArray U) (VArray V) = Ok (VArray U', VArray V')
    /\ shape U' = shape X /\ length (data U') = length (data X)
    /\ shape V' = shape X /\ length (data V') = length (data X)
    /\ (forall k a us, data U !! k = Some a ->
          Forall2 (fun r u => elt (fst r) k = Some u) rs us ->
          data U' !! k = Some (accumulate a us))
    /\ (forall k b vs, data V !! k = Some b ->
          Forall2 (fun r v => elt (snd r) k = Some v) rs vs ->
          data V' !! k = Some (accumulate b vs)).
Proof.
  induction 1 as [|p r ps rs (Hp & Hcu & Hcv) _ IH]; intros U V HSU HLU HSV HLV.
  - exists U, V. split; [reflexivity|]. do 4 (split; [assumption|]).
    split; intros k a vs Ha Hvs; inversion Hvs; exact Ha.
  - cbn [flow_loop]. rewrite self_x, self_y, !bind_Ok, Hp, bind_Ok.
    rewrite <- HSU, <- HLU in Hcu. rewrite <- HSV, <- HLV in Hcv.
    destruct (add_conforms U (fst r) Hcu) as (U1 & HAU & HSU1 & HLU1 & HEU).
    destruct (add_conforms V (snd r) Hcv) as (V1 & HAV & HSV1 & HLV1 & HEV).
    unfold item0, item1.
    rewrite (py_add_values (VArray U) (fst r)), HAU, bind_Ok.
    rewrite (py_add_values (VArray V) (snd r)), HAV, bind_Ok.
    destruct (IH U1 V1) as (U' & V' & HR & HSU' & HLU' & HSV' & HLV' & HEU' & HEV');
      [congruence | congruence | congruence | congruence |].
    exists U', V'. split; [exact HR|]. do 4 (split; [assumption|]).
    split.
    + intros k a us Ha Hus. inversion Hus as [|? u ? us' Hu Hus']; subst.
      cbn [accumulate fold_left]. apply HEU'; [|exact Hus']. apply HEU; assumption.
    + intros k b vs Hb Hvs. inversion Hvs as [|? v ? vs' Hv Hvs']; subst.
      cbn [accumulate fold_left]. apply HEV'; [|exact Hvs']. apply HEV; assumption.
Qed.

(** The freestream part of the stream function. *)
Lemma psi_freestream :
  shape X = shape Y -> length (data X) = length (data Y) ->
  exists P, (flt (uinf self)
             * (FlowField2D_y self * flt (cos (alpha self))
                - FlowField2D_x self * flt (sin (alpha self))))%py = Ok (VArray P)
    /\ shape P = shape X /\ length (data P) = length (data X)
    /\ forall k x y, data X !! k = Some (Fin x) -> data Y !! k = Some (Fin y) ->
         data P !! k
         = Some (Fin (uinf self * (y * cos (alpha self) - x * sin (alpha self)))).
Proof.
  intros HS HL. rewrite self_x, self_y. py_eval.
  eexists. split; [reflexivity|]. cbn [shape data].
  rewrite length_map, length_zip_with, !length_map.
  split; [congruence|]. split; [lia|].
  intros k x y Hx Hy.
  rewrite list_lookup_fmap, lookup_zip_with, !list_lookup_fmap, Hx, Hy. reflexivity.
Qed.

Lemma shape_of_x : shape_of (FlowField2D_x self) = Ok (shape X).
Proof. rewrite self_x. reflexivity. Qed.

(** The freestream part of one velocity component. *)
Lemma flow_freestream (w : R) :
  length (data X) = foldr Nat.mul 1%nat (shape X) ->
  exists U, (VArray (ones (shape X)) * flt w)%py = Ok (VArray U)
    /\ shape U = shape X /\ length (data U) = length (data X)
    /\ forall k, (k < length (data X))%nat -> data U !! k = Some (Fin w).
Proof.
  intros HN. py_eval.
  eexists. split; [reflexivity|]. cbn [shape data ones].
  rewrite length_map, length_replicate. split; [reflexivity|]. split; [lia|].
  intros k Hk. rewrite list_lookup_fmap, lookup_replicate_2 by lia.
  cbn. do 2 f_equal. ring.
Qed.
End superposition.

Lemma grid_inv (self : FlowField2D) (X Y : ndarray) :
  FlowField2D_grid self = Ok (X, Y) ->
  (0 <= nx self)%Z /\ (0 <= ny self)%Z
  /\ shape X = [Z.to_nat (ny self); Z.to_nat (nx self)]
  /\ shape Y = [Z.to_nat (ny self); Z.to_nat (nx self)]
  /\ length (data X) = (Z.to_nat (ny self) * Z.to_nat (nx self))%nat
  /\ length (data Y) = (Z.to_nat (ny self) * Z.to_nat (nx self))%nat.
Proof.
  intros HG.
  destruct (Z.ltb_spec (nx self) 0) as [Hx|Hx];
    [rewrite grid_raises in HG by (left; exact Hx); discriminate|].
  destruct (Z.ltb_spec (ny self) 0) as [Hy|Hy];
    [rewrite grid_raises in HG by (right; exact Hy); discriminate|].
  destruct (grid_shape self Hx Hy) as (X' & Y' & HG' & HX & HY & LX & LY & _).
  rewrite HG in HG'. injection HG' as -> ->. repeat split; assumption.
Qed.

Lemma grid_size (self : FlowField2D) (X Y : ndarray) :
  FlowField2D_grid self = Ok (X, Y) ->
  shape X = shape Y /\ length (data X) = length (data Y)
  /\ length (data X) = foldr Nat.mul 1%nat (shape X).
Proof.
  intros HG. destruct (grid_inv self X Y HG) as (_ & _ & HX & HY & LX & LY).
  rewrite HX, HY, LX, LY. cbn. repeat split. lia.
Qed.

Lemma psi_superposition (h : heap) (self : FlowField2D) (X Y : ndarray)
    (rs : list value) :
  FlowField2D_grid self = Ok (X, Y) ->
  Forall2 (fun point r => compute_psi point (VArray X) (VArray Y) = Ok r
                          /\ conforms (shape X) (length (data X)) r)
          (deref h (points self)) rs ->
  exists P, FlowField2D_psi h self = Ok (VArray P)
    /\ shape P = shape X /\ length (data P) = length (data X)
    /\ forall k x y vs,
         data X !! k = Some (Fin x) -> data Y !! k = Some (Fin y) ->
         Forall2 (fun r v => elt r k = Some v) rs vs ->
         data P !! k
         = Some (accumulate
                   (Fin (uinf self * (y * cos (alpha self) - x * sin (alpha self)))) vs).
Proof.
  intros HG Hrs. destruct (grid_size self X Y HG) as (HS & HL & _).
  destruct (psi_freestream self X Y HG HS HL) as (P0 & H0 & HS0 & HL0 & HE0).
  unfold FlowField2D_psi. rewrite H0, bind_Ok.
  destruct (psi_loop_sum self X Y HG _ _ Hrs P0 HS0 HL0) as (P & HP & HSP & HLP & HEP).
  exists P. do 3 (split; [assumption|]).
  intros k x y vs Hx Hy Hvs. apply HEP; [|exact Hvs]. apply (HE0 k x y); assumption.
Qed.

Lemma flow_superposition (h : heap) (self : FlowField2D) (X Y : ndarray)
    (rs : list (value * value)) :
  FlowField2D_grid self = Ok (X, Y) ->
  Forall2 (fun point r => compute_flow point (VArray X) (VArray Y) = Ok r
                          /\ conforms (shape X) (length (data X)) (fst r)
                          /\ conforms (shape X) (length (data X)) (snd r))
          (deref h (points self)) rs ->
  exists U V, FlowField2D_flow h self = Ok (VArray U, VArray V)
    /\ shape U = shape X /\ length (data U) = length (data X)
    /\ shape V = shape X /\ length (data V) = length (data X)
    /\ (forall k us, (k < length (data X))%nat ->
          Forall2 (fun r u => elt (fst r) k = Some u) rs us ->
          data U !! k = Some (accumulate (Fin (uinf self * cos (alpha self))) us))
    /\ (forall k vs, (k < length (data X))%nat ->
          Forall2 (fun r v => elt (snd r) k = Some v) rs vs ->
          data V !! k = Some (accumulate (Fin (uinf self * sin (alpha self))) vs)).
Proof.
  intros HG Hrs. destruct (grid_size self X Y HG) as (_ & _ & HN).
  destruct (flow_freestream X (fst (FlowField2D_freestream self)) HN)
    as (U0 & HU0 & HSU0 & HLU0 & HEU0).
  destruct (flow_freestream X (snd (FlowField2D_freestream self)) HN)
    as (V0 & HV0 & HSV0 & HLV0 & HEV0).
  unfold FlowField2D_flow.
  rewrite (shape_of_x self X Y HG), !bind_Ok, HU0, !bind_Ok.
  rewrite ?(shape_of_x self X Y HG), ?bind_Ok, HV0, !bind_Ok.
  destruct (flow_loop_sum self X Y HG _ _ Hrs U0 V0 HSU0 HLU0 HSV0 HLV0)
    as (U & V & HR & HSU & HLU & HSV & HLV & HEU & HEV).
  exists U, V. do 5 (split; [assumption|]).
  split.
  - intros k us Hk Hus. apply HEU; [|exact Hus]. apply HEU0. exact Hk.
  - intros k vs Hk Hvs. apply HEV; [|exact Hvs]. apply HEV0. exact Hk.
Qed.

(** Without singularities, a unit freestream along x gives u = 1 and
    v = 0 in every cell. *)
Lemma flow_freestream_only (h : heap) (self : FlowField2D) :
  deref h (points self) = [] -> uinf self = 1 -> alpha self = 0 ->
  (0 <= nx self)%Z -> (0 <= ny self)%Z ->
  exists U V, FlowField2D_flow h self = Ok (VArray U, VArray V)
    /\ shape U = [Z.to_nat (ny self); Z.to_nat (nx self)]
    /\ shape V = [Z.to_nat (ny self); Z.to_nat (nx self)]
    /\ forall i j, (i < Z.to_nat (ny self))%nat -> (j < Z.to_nat (nx self))%nat ->
         cell U i j = Some (Fin 1) /\ cell V i j = Some (Fin 0).
Proof.
  intros Hps Hu Ha Hx Hy.
  destruct (grid_shape self Hx Hy) as (X & Y & HG & HX & HY & LX & LY & _).
  destruct (flow_superposition h self X Y [] HG) as
    (U & V & HF & HSU & HLU & HSV & HLV & HEU & HEV); [rewrite Hps; constructor|].
  exists U, V. split; [exact HF|]. split; [congruence|]. split; [congruence|].
  intros i j Hi Hj. unfold cell. rewrite HSU, HSV, HX.
  rewrite (proj2 (Nat.ltb_lt _ _) Hj).
  assert (Hk : (i * Z.to_nat (nx self) + j < length (data X))%nat) by (rewrite LX; nia).
  rewrite (HEU _ [] Hk) by constructor. rewrite (HEV _ [] Hk) by constructor.
  cbn [accumulate fold_left]. rewrite Hu, Ha, cos_0, sin_0.
  split; do 2 f_equal; ring.
Qed.

(** C6.  Whenever every singularity's [compute_flow] returns on the grid
    arrays (values that can be added to the grid-shaped accumulators), the
    velocity property returns two arrays of the grid's shape, and element
    [k] of each is the freestream component, [uinf * cos alpha] or
    [uinf * sin alpha], plus the elements [k] of the singularities' results
    added in collection order.  In particular a field without
    singularities, with [uinf = 1] and [alpha = 0], has u = 1 and v = 0 in
    every cell of every grid. *)
Theorem C6_flow_superposition :
  (forall (h : heap) (self : FlowField2D) (X Y : ndarray) (rs : list (value * value)),
     FlowField2D_grid self = Ok (X, Y) ->
     Forall2 (fun point r => compute_flow point (VArray X) (VArray Y) = Ok r
                             /\ conforms (shape X) (length (data X)) (fst r)
                             /\ conforms (shape X) (length (data X)) (snd r))
             (deref h (points self)) rs ->
     exists U V, FlowField2D_flow h self = Ok (VArray U, VArray V)
       /\ shape U = shape X /\ shape V = shape X
       /\ (forall k us, (k < length (data X))%nat ->
             Forall2 (fun r u => elt (fst r) k = Some u) rs us ->
             data U !! k = Some (accumulate (Fin (uinf self * cos (alpha self))) us))
       /\ (forall k vs, (k < length (data X))%nat ->
             Forall2 (fun r v => elt (snd r) k = Some v) rs vs ->
             data V !! k = Some (accumulate (Fin (uinf self * sin (alpha self))) vs)))
  /\ (forall (h : heap) (self : FlowField2D),
        deref h (points self) = [] -> uinf self = 1 -> alpha self = 0 ->
        (0 <= nx self)%Z -> (0 <= ny self)%Z ->
        exists U V, FlowField2D_flow h self = Ok (VArray U, VArray V)
          /\ shape U = [Z.to_nat (ny self); Z.to_nat (nx self)]
          /\ shape V = [Z.to_nat (ny self); Z.to_nat (nx self)]
          /\ forall i j, (i < Z.to_nat (ny self))%nat -> (j < Z.to_nat (nx self))%nat ->
               cell U i j = Some (Fin 1) /\ cell V i j = Some (Fin 0)).
Proof.
  split.
  - intros h self X Y rs HG Hrs.
    destruct (flow_superposition h self X Y rs HG Hrs)
      as (U & V & HF & HSU & _ & HSV & _ & HEU & HEV).
    exists U, V. repeat split; assumption.
  - apply flow_freestream_only.
Qed.

Ltac by_index :=
  apply list_eq; intros ?i;
  rewrite ?list_lookup_fmap, ?lookup_zip_with, ?list_lookup_fmap;
  repeat match goal with |- context [?l !! ?i] => destruct (l !! i); cbn end;
  try reflexivity; f_equal;
  first [apply fadd_right_comm | symmetry; apply fadd_right_comm].

Lemma add_swap (u a b r : value) :
  (x ← arith (noraise fadd) fadd u a; arith (noraise fadd) fadd x b) = Ok r ->
  (x ← arith (noraise fadd) fadd u b; arith (noraise fadd) fadd x a) = Ok r.
Proof.
  destruct u as [f|U|s], a as [g|A|t], b as [k|B|w]; cbn [arith];
    unfold noraise; rewrite ?fmap_Ok, ?bind_Ok, ?bind_Raise; cbn [arith];
    try discriminate;
    repeat (case_decide; rewrite ?bind_Ok, ?bind_Raise; cbn [arith shape data] in * );
    unfold noraise; rewrite ?fmap_Ok;
    try discriminate; try congruence;
    intros [= <-]; do 2 f_equal.
  all: try (rewrite fadd_right_comm; reflexivity).
  all: cbn [shape data]; f_equal; try congruence; by_index.
Qed.

Abbreviation add := (arith (noraise fadd) fadd).

Lemma psi_loop_cons (self : FlowField2D) (x y : value) (p : obj) (ps : list obj) (P : value) :
  FlowField2D_x self = Ok x -> FlowField2D_y self = Ok y ->
  psi_loop self (p :: ps) P
  = (r ← compute_psi p x y; psi ← add P r; psi_loop self ps psi).
Proof.
  intros Hx Hy. cbn [psi_loop]. rewrite Hx, Hy, !bind_Ok.
  unfold py_add, binop, val. rewrite bind_Ok.
  destruct (compute_psi p x y); reflexivity.
Qed.

Lemma psi_loop_raises (self : FlowField2D) (e : exn) (p : obj) (ps : list obj) (P : value) :
  FlowField2D_x self = Raise e \/ FlowField2D_y self = Raise e ->
  exists e', psi_loop self (p :: ps) P = Raise e'.
Proof.
  intros [H|H]; cbn [psi_loop].
  - rewrite H. eexists. reflexivity.
  - destruct (FlowField2D_x self); rewrite ?bind_Ok, ?bind_Raise, ?H; eexists; reflexivity.
Qed.

Lemma psi_loop_two (self : FlowField2D) (x y : value) (p q : obj) (P : value) :
  FlowField2D_x self = Ok x -> FlowField2D_y self = Ok y ->
  psi_loop self [p; q] P
  = (a ← compute_psi p x y; p1 ← add P a; b ← compute_psi q x y; add p1 b).
Proof.
  intros Hx Hy. rewrite (psi_loop_cons self x y) by assumption.
  destruct (compute_psi p x y) as [a|e]; [|reflexivity]. rewrite !bind_Ok.
  destruct (add P a) as [p1|e]; [|reflexivity]. rewrite !bind_Ok.
  rewrite (psi_loop_cons self x y) by assumption.
  destruct (compute_psi q x y) as [b|e]; [|reflexivity]. rewrite !bind_Ok.
  destruct (add p1 b); reflexivity.
Qed.

Lemma psi_loop_swap (self : FlowField2D) (A B : obj) (P r : value) :
  psi_loop self [A; B] P = Ok r -> psi_loop self [B; A] P = Ok r.
Proof.
  destruct (FlowField2D_x self) as [x|e] eqn:Hx;
    [|intros H; destruct (psi_loop_raises self e A [B] P (or_introl Hx)); congruence].
  destruct (FlowField2D_y self) as [y|e] eqn:Hy;
    [|intros H; destruct (psi_loop_raises self e A [B] P (or_intror Hy)); congruence].
  rewrite !(psi_loop_two self x y) by assumption.
  destruct (compute_psi A x y) as [a|ea], (compute_psi B x y) as [b|eb];
    rewrite ?bind_Ok, ?bind_Raise; try discriminate.
  - pose proof (add_swap P a b r) as HS.
    destruct (add P a) as [p1|e1]; rewrite ?bind_Ok, ?bind_Raise in *; [|discriminate].
    intros H. specialize (HS H).
    destruct (add P b) as [p2|e2]; rewrite ?bind_Ok, ?bind_Raise in *; [|discriminate].
    exact HS.
  - destruct (add P a); rewrite ?bind_Ok, ?bind_Raise; discriminate.
Qed.

Lemma bind_Ok_inv {A B} (m : result A) (k : A -> result B) (r : B) :
  mbind k m = Ok r -> exists a, m = Ok a /\ k a = Ok r.
Proof. destruct m as [a|e]; [intros H; exists a; split; [reflexivity | exact H] | discriminate]. Qed.

Lemma flow_loop_cons (self : FlowField2D) (x y : value) (p : obj) (ps : list obj)
    (U V : value) :
  FlowField2D_x self = Ok x -> FlowField2D_y self = Ok y ->
  flow_loop self (p :: ps) U V
  = (r ← compute_flow p x y; u ← add U (fst r); v ← add V (snd r); flow_loop self ps u v).
Proof. intros Hx Hy. cbn [flow_loop]. rewrite Hx, Hy, !bind_Ok. reflexivity. Qed.

Lemma flow_loop_raises (self : FlowField2D) (e : exn) (p : obj) (ps : list obj) (U V : value) :
  FlowField2D_x self = Raise e \/ FlowField2D_y self = Raise e ->
  exists e', flow_loop self (p :: ps) U V = Raise e'.
Proof.
  intros [H|H]; cbn [flow_loop].
  - rewrite H. eexists. reflexivity.
  - destruct (FlowField2D_x self); rewrite ?bind_Ok, ?bind_Raise, ?H; eexists; reflexivity.
Qed.

Lemma flow_loop_swap (self : FlowField2D) (A B : obj) (U V : value) (r : value * value) :
  flow_loop self [A; B] U V = Ok r -> flow_loop self [B; A] U V = Ok r.
Proof.
  destruct (FlowField2D_x self) as [x|e] eqn:Hx;
    [|intros H; destruct (flow_loop_raises self e A [B] U V (or_introl Hx)); congruence].
  destruct (FlowField2D_y self) as [y|e] eqn:Hy;
    [|intros H; destruct (flow_loop_raises self e A [B] U V (or_intror Hy)); congruence].
  rewrite (flow_loop_cons self x y A), (flow_loop_cons self x y B) by assumption.
  intros H.
  apply bind_Ok_inv in H as (a & HA & H).
  apply bind_Ok_inv in H as (u1 & Hu1 & H).
  apply bind_Ok_inv in H as (v1 & Hv1 & H).
  rewrite (flow_loop_cons self x y B) in H by assumption.
  apply bind_Ok_inv in H as (b & HB & H). rewrite HB, bind_Ok.
  apply bind_Ok_inv in H as (u2 & Hu2 & H).
  apply bind_Ok_inv in H as (v2 & Hv2 & H).
  cbn [flow_loop] in H.
  assert (HU : (t ← add U (fst b); add t (fst a)) = Ok u2)
    by (apply add_swap; rewrite Hu1, bind_Ok; exact Hu2).
  assert (HV : (t ← add V (snd b); add t (snd a)) = Ok v2)
    by (apply add_swap; rewrite Hv1, bind_Ok; exact Hv2).
  apply bind_Ok_inv in HU as (u1' & Hu1' & Hu2').
  apply bind_Ok_inv in HV as (v1' & Hv1' & Hv2').
  rewrite Hu1', bind_Ok, Hv1', bind_Ok.
  rewrite (flow_loop_cons self x y A) by assumption.
  rewrite HA, bind_Ok, Hu2', bind_Ok, Hv2', bind_Ok. exact H.
Qed.

Lemma psi_loop_grid (s1 s2 : FlowField2D) (ps : list obj) (P : value) :
  FlowField2D_grid s1 = FlowField2D_grid s2 -> psi_loop s1 ps P = psi_loop s2 ps P.
Proof.
  intros HG. revert P. induction ps as [|p ps IH]; intros P; [reflexivity|].
  cbn [psi_loop]. unfold FlowField2D_x, FlowField2D_y. rewrite HG.
  destruct (FlowField2D_grid s2) as [g|e]; [|reflexivity]. rewrite !bind_Ok.
  destruct (val P + compute_psi p (VArray g.1) (VArray g.2))%py; [|reflexivity].
  rewrite !bind_Ok. apply IH.
Qed.

Lemma flow_loop_grid (s1 s2 : FlowField2D) (ps : list obj) (U V : value) :
  FlowField2D_grid s1 = FlowField2D_grid s2 -> flow_loop s1 ps U V = flow_loop s2 ps U V.
Proof.
  intros HG. revert U V. induction ps as [|p ps IH]; intros U V; [reflexivity|].
  cbn [flow_loop]. unfold FlowField2D_x, FlowField2D_y. rewrite HG.
  destruct (FlowField2D_grid s2) as [g|e]; [|reflexivity]. rewrite !bind_Ok.
  destruct (compute_flow p (VArray g.1) (VArray g.2)) as [r|e]; [|reflexivity].
  rewrite !bind_Ok.
  destruct (val U + val (item0 r))%py; [|reflexivity]. rewrite !bind_Ok.
  destruct (val V + val (item1 r))%py; [|reflexivity]. rewrite !bind_Ok.
  apply IH.
Qed.

Section reorder.
Variables (h1 h2 : heap) (f1 f2 : FlowField2D) (A B : obj).
Hypothesis points1 : deref h1 (points f1) = [A; B].
Hypothesis points2 : deref h2 (points f2) = [B; A].
Hypothesis same_uinf : uinf f1 = uinf f2.
Hypothesis same_alpha : alpha f1 = alpha f2.
Hypothesis same_xlim : xlim f1 = xlim f2.
Hypothesis same_ylim : ylim f1 = ylim f2.
Hypothesis same_nx : nx f1 = nx f2.
Hypothesis same_ny : ny f1 = ny f2.

Lemma same_grid : FlowField2D_grid f1 = FlowField2D_grid f2.
Proof.
  unfold FlowField2D_grid, FlowField2D_x_values, FlowField2D_y_values.
  rewrite same_xlim, same_ylim, same_nx, same_ny. reflexivity.
Qed.

Lemma flow_reordered (r : value * value) :
  FlowField2D_flow h1 f1 = Ok r -> FlowField2D_flow h2 f2 = Ok r.
Proof.
  unfold FlowField2D_flow, FlowField2D_freestream, FlowField2D_x.
  rewrite points1, points2, same_grid, same_uinf, same_alpha.
  cbn [fst snd].
  destruct (shape_of _) as [shp|e]; [|discriminate]. rewrite !bind_Ok.
  destruct (val (VArray (ones shp)) * flt (uinf f2 * cos (alpha f2)))%py as [u|e];
    [|discriminate]. rewrite !bind_Ok.
  destruct (val (VArray (ones shp)) * flt (uinf f2 * sin (alpha f2)))%py as [v|e];
    [|discriminate]. rewrite !bind_Ok.
  rewrite (flow_loop_grid f1 f2) by exact same_grid.
  apply flow_loop_swap.
Qed.

Lemma psi_reordered (r : value) :
  FlowField2D_psi h1 f1 = Ok r -> FlowField2D_psi h2 f2 = Ok r.
Proof.
  unfold FlowField2D_psi, FlowField2D_x, FlowField2D_y.
  rewrite points1, points2, same_grid, same_uinf, same_alpha.
  match goal with |- mbind _ ?m = _ -> _ => destruct m as [p|e]; [|discriminate] end.
  rewrite !bind_Ok. rewrite (psi_loop_grid f1 f2) by exact same_grid.
  apply psi_loop_swap.
Qed.
End reorder.

(** ** Fields of constructed singularities: what flow and psi return (C4) *)

Lemma compute_flow_build (s : singularity) (X Y : ndarray) :
  shape X = shape Y ->
  compute_flow (build s) (VArray X) (VArray Y)
  = Ok (VArray (mk_ndarray (shape X) (zip_with (u_at s) (data X) (data Y))),
        VArray (mk_ndarray (shape X) (zip_with (v_at s) (data X) (data Y)))).
Proof. intros H. apply compute_flow_array. exact H. Qed.

Lemma flow_results (ss : list singularity) (X Y : ndarray) :
  shape X = shape Y -> length (data X) = length (data Y) ->
  Forall2 (fun point r => compute_flow point (VArray X) (VArray Y) = Ok r
                          /\ conforms (shape X) (length (data X)) (fst r)
                          /\ conforms (shape X) (length (data X)) (snd r))
          (map build ss) (map (flow_result X Y) ss).
Proof.
  intros HS HL. induction ss as [|s ss IH]; cbn [map]; constructor; [|exact IH].
  split; [apply compute_flow_build; exact HS|].
  cbn [flow_result fst snd conforms shape data]. rewrite !length_zip_with.
  repeat split; lia.
Qed.

(** The velocity field of a field of constructed singularities: it always
    returns, and each cell holds the freestream plus the contributions of
    the singularities at that cell's coordinates, in collection order. *)
Lemma flow_cells (h : heap) (self : FlowField2D) (ss : list singularity) :
  deref h (points self) = map build ss ->
  (0 <= nx self)%Z -> (0 <= ny self)%Z ->
  exists U V, FlowField2D_flow h self = Ok (VArray U, VArray V)
    /\ shape U = [Z.to_nat (ny self); Z.to_nat (nx self)]
    /\ shape V = [Z.to_nat (ny self); Z.to_nat (nx self)]
    /\ forall i j, (i < Z.to_nat (ny self))%nat -> (j < Z.to_nat (nx self))%nat ->
         cell U i j
         = Some (accumulate (Fin (uinf self * cos (alpha self)))
                   (map (fun s => u_at s (Fin (x_sample self j)) (Fin (y_sample self i))) ss))
         /\ cell V i j
            = Some (accumulate (Fin (uinf self * sin (alpha self)))
                      (map (fun s => v_at s (Fin (x_sample self j)) (Fin (y_sample self i))) ss)).
Proof.
  intros Hps Hx Hy.
  destruct (grid_shape self Hx Hy) as (X & Y & HG & HX & HY & LX & LY & HC).
  destruct (flow_superposition h self X Y (map (flow_result X Y) ss) HG)
    as (U & V & HF & HSU & HLU & HSV & HLV & HEU & HEV).
  { rewrite Hps. apply flow_results; congruence. }
  exists U, V. split; [exact HF|]. split; [congruence|]. split; [congruence|].
  intros i j Hi Hj.
  destruct (HC i j Hi Hj) as [HCx HCy].
  unfold x_samples, y_samples in HCx, HCy.
  rewrite samples_sample in HCx by lia. rewrite samples_sample in HCy by lia.
  fold (x_sample self j) in HCx. fold (y_sample self i) in HCy.
  unfold cell in *. rewrite HSU, HSV, HX in *. rewrite HY in HCy.
  rewrite (proj2 (Nat.ltb_lt _ _) Hj) in *.
  set (k := (i * Z.to_nat (nx self) + j)%nat) in *.
  assert (Hk : (k < length (data X))%nat) by (rewrite LX; subst k; nia).
  split; [apply HEU | apply HEV]; try exact Hk.
  - clear -HCx HCy. induction ss as [|s ss IH]; cbn [map]; constructor; [|exact IH].
    cbn [flow_result fst elt data]. rewrite lookup_zip_with, HCx. cbn. rewrite HCy. reflexivity.
  - clear -HCx HCy. induction ss as [|s ss IH]; cbn [map]; constructor; [|exact IH].
    cbn [flow_result snd elt data]. rewrite lookup_zip_with, HCx. cbn. rewrite HCy. reflexivity.
Qed.

Lemma accumulate_finite (base : fl) (vs : list fl) :
  is_finite (accumulate base vs) = is_finite base && forallb is_finite vs.
Proof.
  revert base. induction vs as [|v vs IH]; intros base; cbn [accumulate fold_left forallb].
  - rewrite andb_true_r. reflexivity.
  - change (fold_left fadd vs (fadd base v)) with (accumulate (fadd base v) vs).
    rewrite IH, fadd_finite, andb_assoc. reflexivity.
Qed.

Lemma fdiv_finite (a b : R) : is_finite (fdiv (Fin a) (Fin b)) = negb (is_zero (Fin b)).
Proof.
  unfold fdiv, is_zero. destruct (Req_EM_T b 0); [|reflexivity].
  destruct (Req_EM_T a 0); reflexivity.
Qed.

Lemma rsq_is_zero (s : singularity) (x y : R) :
  is_zero (Fin ((x - s_x s) * (x - s_x s) + (y - s_y s) * (y - s_y s))) = true
  <-> sits_on x y s.
Proof.
  rewrite <- rsq_Fin, rsq_zero. unfold sits_on. split.
  - intros [Hx Hy]. injection Hx as Hx. injection Hy as Hy. split; congruence.
  - intros [Hx Hy]. split; congruence.
Qed.

Lemma sqr_is_zero (r : R) : is_zero (Fin (r * r)) = is_zero (Fin r).
Proof. apply (is_zero_fsqr (Fin r)). Qed.

(** A singularity's velocity contribution is finite at every point but
    its own position, where it is an infinity or not-a-number. *)
Lemma u_at_finite (s : singularity) (x y : R) :
  is_finite (u_at s (Fin x) (Fin y)) = true <-> ~ sits_on x y s.
Proof.
  rewrite <- rsq_is_zero.
  destruct s as [[] x0 y0 m col]; unfold u_at, flow_u, doublet_u, source_u, vortex_u;
    cbn [s_class s_x s_y s_strength fneg]; rewrite half_over_pi_Fin, rsq_Fin;
    cbn [fsub fadd fneg fsqr fmul]; rewrite fdiv_finite, ?sqr_is_zero;
    change (x + - x0) with (x - x0); change (y + - y0) with (y - y0);
    destruct (is_zero _); cbn; split; congruence.
Qed.

Lemma v_at_finite (s : singularity) (x y : R) :
  is_finite (v_at s (Fin x) (Fin y)) = true <-> ~ sits_on x y s.
Proof.
  rewrite <- rsq_is_zero.
  destruct s as [[] x0 y0 m col]; unfold v_at, flow_v, doublet_v, source_v, vortex_v;
    cbn [s_class s_x s_y s_strength fneg]; rewrite half_over_pi_Fin, rsq_Fin;
    cbn [fsub fadd fneg fsqr fmul]; rewrite fdiv_finite, ?sqr_is_zero;
    change (x + - x0) with (x - x0); change (y + - y0) with (y - y0);
    destruct (is_zero _); cbn; split; congruence.
Qed.

Lemma contributions_finite (f : singularity -> fl -> fl -> fl) (ss : list singularity)
    (x y : R) :
  (forall s, is_finite (f s (Fin x) (Fin y)) = true <-> ~ sits_on x y s) ->
  forallb is_finite (map (fun s => f s (Fin x) (Fin y)) ss) = true
  <-> Forall (fun s => ~ sits_on x y s) ss.
Proof.
  intros Hf. induction ss as [|s ss IH]; cbn [map forallb].
  - split; [constructor | reflexivity].
  - rewrite andb_true_iff, Forall_cons, Hf, IH. reflexivity.
Qed.

(** Sampling on a singularity: the velocity field still returns; a cell is
    non-finite exactly when some singularity sits on it, and every other
    cell holds its finite sum. *)
Lemma flow_nonfinite_cells (h : heap) (self : FlowField2D) (ss : list singularity) :
  deref h (points self) = map build ss ->
  (0 <= nx self)%Z -> (0 <= ny self)%Z ->
  exists U V, FlowField2D_flow h self = Ok (VArray U, VArray V)
    /\ forall i j, (i < Z.to_nat (ny self))%nat -> (j < Z.to_nat (nx self))%nat ->
         exists u v, cell U i j = Some u /\ cell V i j = Some v
           /\ (is_finite u = true
               <-> Forall (fun s => ~ sits_on (x_sample self j) (y_sample self i) s) ss)
           /\ (is_finite v = true
               <-> Forall (fun s => ~ sits_on (x_sample self j) (y_sample self i) s) ss).
Proof.
  intros Hps Hx Hy.
  destruct (flow_cells h self ss Hps Hx Hy) as (U & V & HF & _ & _ & HC).
  exists U, V. split; [exact HF|]. intros i j Hi Hj.
  destruct (HC i j Hi Hj) as [HU HV]. eexists _, _.
  split; [exact HU|]. split; [exact HV|].
  rewrite !accumulate_finite. cbn [is_finite andb].
  split; [apply (contributions_finite u_at) | apply (contributions_finite v_at)];
    intros s; [apply u_at_finite | apply v_at_finite].
Qed.

Lemma compute_psi_doublet (s : singularity) (X Y : ndarray) :
  s_class s = PointDoublet -> shape X = shape Y ->
  compute_psi (build s) (VArray X) (VArray Y)
  = Ok (VArray (mk_ndarray (shape X) (zip_with (psi_at s) (data X) (data Y)))).
Proof.
  intros Hc HS. unfold build, compute_psi. rewrite Hc. apply PointDoublet_compute_psi_array.
  exact HS.
Qed.

Lemma compute_psi_source (s : singularity) (X Y : ndarray) :
  s_class s = PointSource ->
  compute_psi (build s) (VArray X) (VArray Y) = Raise (AttributeError "yrel").
Proof.
  intros Hc. unfold build, compute_psi. rewrite Hc. apply PointSource_compute_psi_array_raises.
Qed.

Lemma compute_psi_vortex (s : singularity) (X Y : ndarray) :
  s_class s = PointVortex -> shape X = shape Y ->
  length (data X) = length (data Y) -> length (data X) <> 1%nat ->
  compute_psi (build s) (VArray X) (VArray Y) = Raise TypeError.
Proof.
  intros Hc HS HL H1. unfold build, compute_psi. rewrite Hc.
  apply PointVortex_compute_psi_array_raises; assumption.
Qed.

Lemma psi_results (ss : list singularity) (X Y : ndarray) :
  Forall (fun s => s_class s = PointDoublet) ss ->
  shape X = shape Y -> length (data X) = length (data Y) ->
  Forall2 (fun point r => compute_psi point (VArray X) (VArray Y) = Ok r
                          /\ conforms (shape X) (length (data X)) r)
          (map build ss) (map (psi_result X Y) ss).
Proof.
  intros Hd HS HL. induction Hd as [|s ss Hc _ IH]; cbn [map]; constructor; [|exact IH].
  split; [apply compute_psi_doublet; assumption|].
  cbn [psi_result conforms shape data]. rewrite length_zip_with. split; [reflexivity | lia].
Qed.

(** The stream function of a field of doublets returns, and each cell
    holds the freestream term plus the doublets' terms. *)
Lemma psi_cells (h : heap) (self : FlowField2D) (ss : list singularity) :
  deref h (points self) = map build ss ->
  Forall (fun s => s_class s = PointDoublet) ss ->
  (0 <= nx self)%Z -> (0 <= ny self)%Z ->
  exists P, FlowField2D_psi h self = Ok (VArray P)
    /\ shape P = [Z.to_nat (ny self); Z.to_nat (nx self)]
    /\ forall i j, (i < Z.to_nat (ny self))%nat -> (j < Z.to_nat (nx self))%nat ->
         cell P i j
         = Some (accumulate
                   (Fin (uinf self * (y_sample self i * cos (alpha self)
                                      - x_sample self j * sin (alpha self))))
                   (map (fun s => psi_at s (Fin (x_sample self j)) (Fin (y_sample self i))) ss)).
Proof.
  intros Hps Hd Hx Hy.
  destruct (grid_shape self Hx Hy) as (X & Y & HG & HX & HY & LX & LY & HC).
  destruct (psi_superposition h self X Y (map (psi_result X Y) ss) HG)
    as (P & HP & HSP & HLP & HEP).
  { rewrite Hps. apply psi_results; [assumption | congruence | congruence]. }
  exists P. split; [exact HP|]. split; [congruence|].
  intros i j Hi Hj.
  destruct (HC i j Hi Hj) as [HCx HCy].
  unfold x_samples, y_samples in HCx, HCy.
  rewrite samples_sample in HCx by lia. rewrite samples_sample in HCy by lia.
  fold (x_sample self j) in HCx. fold (y_sample self i) in HCy.
  unfold cell in *. rewrite HSP, HX in *. rewrite HY in HCy.
  rewrite (proj2 (Nat.ltb_lt _ _) Hj) in *.
  apply HEP; [exact HCx | exact HCy |].
  clear -HCx HCy. induction ss as [|s ss IH]; cbn [map]; constructor; [|exact IH].
  cbn [psi_result elt data]. rewrite lookup_zip_with, HCx. cbn. rewrite HCy. reflexivity.
Qed.

Lemma psi_loop_unsupported (self : FlowField2D) (X Y : ndarray) (ss : list singularity) :
  FlowField2D_grid self = Ok (X, Y) ->
  shape X = shape Y -> length (data X) = length (data Y) -> length (data X) <> 1%nat ->
  Exists psi_unsupported ss ->
  forall P, shape P = shape X -> length (data P) = length (data X) ->
  exists e, psi_loop self (map build ss) (VArray P) = Raise e.
Proof.
  intros HG HS HL H1 Hex.
  assert (Hbad : forall s P, psi_unsupported s ->
            exists e, (val (VArray P) + compute_psi (build s) (VArray X) (VArray Y))%py
                      = Raise e).
  { intros s P [Hc|Hc].
    - rewrite compute_psi_source by exact Hc. eexists. reflexivity.
    - rewrite compute_psi_vortex by assumption. eexists. reflexivity. }
  induction ss as [|s ss IH]; [inversion Hex|]. intros P HSP HLP.
  cbn [map psi_loop]. rewrite (self_x self X Y HG), (self_y self X Y HG), !bind_Ok.
  destruct (s_class s) eqn:Hc.
  - rewrite compute_psi_doublet by assumption.
    destruct (add_conforms P (psi_result X Y s)) as (P1 & HA & HS1 & HL1 & _).
    { cbn [psi_result conforms shape data]. rewrite length_zip_with. split; [congruence | lia]. }
    unfold psi_result in HA. rewrite py_add_values, HA, bind_Ok.
    apply IH; [|congruence|congruence].
    apply Exists_cons in Hex as [[Hs|Hs]|Hex]; [congruence | congruence | exact Hex].
  - destruct (Hbad s P (or_introl Hc)) as [e He]. rewrite He. exists e. reflexivity.
  - destruct (Hbad s P (or_intror Hc)) as [e He]. rewrite He. exists e. reflexivity.
Qed.

Lemma psi_raises (h : heap) (self : FlowField2D) (ss : list singularity) :
  deref h (points self) = map build ss ->
  Exists psi_unsupported ss ->
  (Z.to_nat (ny self) * Z.to_nat (nx self) <> 1)%nat ->
  exists e, FlowField2D_psi h self = Raise e.
Proof.
  intros Hps Hex H1.
  destruct (Z.ltb_spec (nx self) 0) as [Hx|Hx];
    [|destruct (Z.ltb_spec (ny self) 0) as [Hy|Hy]].
  - exists ValueError. unfold FlowField2D_psi, FlowField2D_y.
    rewrite grid_raises by (left; exact Hx). reflexivity.
  - exists ValueError. unfold FlowField2D_psi, FlowField2D_y.
    rewrite grid_raises by (right; exact Hy). reflexivity.
  - destruct (grid_shape self Hx Hy) as (X & Y & HG & HX & HY & LX & LY & _).
    assert (HS : shape X = shape Y) by congruence.
    assert (HL : length (data X) = length (data Y)) by congruence.
    destruct (psi_freestream self X Y HG HS HL) as (P0 & H0 & HS0 & HL0 & _).
    unfold FlowField2D_psi. rewrite H0, bind_Ok, Hps.
    apply (psi_loop_unsupported self X Y ss HG HS HL); try assumption. congruence.
Qed.

(** ** The worked configurations *)

Lemma centre_points : deref centre_heap (points centre_field) = map build [centre_vortex].
Proof. unfold deref, centre_heap. cbn [points centre_field FlowField2D_init]. rewrite lookup_singleton_eq. reflexivity. Qed.

Lemma centre_sample (i : nat) :
  (i < 3)%nat ->
  x_sample centre_field i = INR i - 1 /\ y_sample centre_field i = INR i - 1.
Proof.
  intros Hi. unfold x_sample, y_sample, sample, centre_field, FlowField2D_init.
  cbn [xlim ylim nx ny fst snd Z.eqb Pos.eqb Z.sub Z.add Z.opp Z.pos_sub Pos.pred_double].
  change (IZR (3 - 1)) with 2. split; lra.
Qed.

(** C4 (defect in the code).  A default vortex at (0, 0) sampled on the
    3 x 3 grid over [-1, 1]^2, whose centre cell (1, 1) is the vortex's
    position.  The velocity field behaves as the claim says: it returns,
    the centre cell is non-finite and the eight other cells are finite.
    The stream function does not complete: [compute_psi] raises
    [TypeError]. *)
Theorem C4_stream_function_raises_on_singular_grid :
  (x_sample centre_field 1 = s_x centre_vortex /\ y_sample centre_field 1 = s_y centre_vortex)
  /\ FlowField2D_psi centre_heap centre_field = Raise TypeError
  /\ exists U V, FlowField2D_flow centre_heap centre_field = Ok (VArray U, VArray V)
       /\ (exists u v, cell U 1 1 = Some u /\ cell V 1 1 = Some v
                       /\ is_finite u = false /\ is_finite v = false)
       /\ (forall i j, (i < 3)%nat -> (j < 3)%nat -> (i, j) <> (1%nat, 1%nat) ->
             exists u v, cell U i j = Some u /\ cell V i j = Some v
                         /\ is_finite u = true /\ is_finite v = true).
Proof.
  assert (H11 : x_sample centre_field 1 = 0 /\ y_sample centre_field 1 = 0).
  { destruct (centre_sample 1) as [-> ->]; [lia|]. cbn [INR]. split; lra. }
  split; [exact H11|]. split.
  - destruct (grid_shape centre_field) as (X & Y & HG & HX & HY & LX & LY & _);
      [cbn; lia | cbn; lia |].
    assert (HS : shape X = shape Y) by congruence.
    assert (HL : length (data X) = length (data Y)) by congruence.
    destruct (psi_freestream centre_field X Y HG HS HL) as (P0 & H0 & _).
    unfold FlowField2D_psi. rewrite H0, bind_Ok, centre_points.
    cbn [map psi_loop]. rewrite (self_x _ X Y HG), (self_y _ X Y HG), !bind_Ok.
    rewrite compute_psi_vortex; [reflexivity | reflexivity | exact HS | exact HL |].
    rewrite LX. cbn. lia.
  - destruct (flow_nonfinite_cells centre_heap centre_field [centre_vortex] centre_points)
      as (U & V & HF & HC); [cbn; lia | cbn; lia |].
    exists U, V. split; [exact HF|]. split.
    + destruct (HC 1%nat 1%nat) as (u & v & Hu & Hv & Fu & Fv); [cbn; lia | cbn; lia |].
      exists u, v. split; [exact Hu|]. split; [exact Hv|].
      assert (Hn : ~ Forall (fun s => ~ sits_on (x_sample centre_field 1)
                                          (y_sample centre_field 1) s) [centre_vortex]).
      { intros HF1. apply Forall_cons in HF1 as [HF1 _]. apply HF1.
        destruct H11 as [-> ->]. split; reflexivity. }
      split.
      * destruct (is_finite u); [exfalso; apply Hn, Fu; reflexivity | reflexivity].
      * destruct (is_finite v); [exfalso; apply Hn, Fv; reflexivity | reflexivity].
    + intros i j Hi Hj Hne.
      destruct (HC i j) as (u & v & Hu & Hv & Fu & Fv); [cbn; lia | cbn; lia |].
      exists u, v. split; [exact Hu|]. split; [exact Hv|].
      assert (Hok : Forall (fun s => ~ sits_on (x_sample centre_field j)
                                        (y_sample centre_field i) s) [centre_vortex]).
      { constructor; [|constructor]. intros [Hx Hy]. cbn [s_x s_y centre_vortex] in Hx, Hy.
        destruct (centre_sample i Hi) as [_ Ey]. destruct (centre_sample j Hj) as [Ex _].
        rewrite Ex in Hx. rewrite Ey in Hy. apply Hne.
        assert (INR j = INR 1) by (cbn [INR]; lra).
        assert (INR i = INR 1) by (cbn [INR]; lra).
        f_equal; apply INR_eq; assumption. }
      split; [apply Fu | apply Fv]; exact Hok.
Qed.

Lemma corner_points : deref corner_heap (points corner_field) = map build [corner_doublet].
Proof.
  unfold deref, corner_heap. cbn [points corner_field FlowField2D_init].
  rewrite lookup_singleton_eq. reflexivity.
Qed.

Lemma corner_grid :
  exists X Y, FlowField2D_grid corner_field = Ok (X, Y)
    /\ shape X = [2%nat; 2%nat] /\ shape Y = [2%nat; 2%nat]
    /\ length (data X) = 4%nat /\ length (data Y) = 4%nat
    /\ data X !! 0%nat = Some (Fin (-1)) /\ data Y !! 0%nat = Some (Fin (-1)).
Proof.
  destruct (grid_shape corner_field) as (X & Y & HG & HX & HY & LX & LY & HC);
    [cbn; lia | cbn; lia |].
  exists X, Y. do 5 (split; [assumption|]).
  destruct (HC 0%nat 0%nat) as [Hx Hy]; [cbn; lia | cbn; lia |].
  unfold cell in Hx, Hy. rewrite HX in Hx. rewrite HY in Hy.
  change (0 <? Z.to_nat (nx corner_field))%nat with true in *.
  cbn [Nat.mul Nat.add] in Hx, Hy. rewrite Hx, Hy.
  unfold x_samples, y_samples. rewrite !samples_sample by (cbn; lia).
  rewrite !sample_first. split; reflexivity.
Defined.

Lemma unit_freestream_points :
  deref {[ 0%nat := [] ]} (points (FlowField2D_init 0%nat None 1 0 (-1, 1) (-1, 1) 100 100)) = [].
Proof.
  unfold deref. cbn [points FlowField2D_init]. rewrite lookup_singleton_eq. reflexivity.
Qed.

(** C6, witness: the same doublet field, and the freestream-only field on
    the default 100 x 100 grid. *)
Lemma C6_witness :
  (exists U V, FlowField2D_flow corner_heap corner_field = Ok (VArray U, VArray V)
     /\ shape U = [2%nat; 2%nat] /\ shape V = [2%nat; 2%nat]
     /\ data U !! 0%nat
        = Some (accumulate (Fin (1 * cos 0)) [u_at corner_doublet (Fin (-1)) (Fin (-1))])
     /\ data V !! 0%nat
        = Some (accumulate (Fin (1 * sin 0)) [v_at corner_doublet (Fin (-1)) (Fin (-1))]))
  /\ (exists U V,
        FlowField2D_flow {[ 0%nat := [] ]}
          (FlowField2D_init 0%nat None 1 0 (-1, 1) (-1, 1) 100 100) = Ok (VArray U, VArray V)
        /\ shape U = [100%nat; 100%nat] /\ shape V = [100%nat; 100%nat]
        /\ forall i j, (i < 100)%nat -> (j < 100)%nat ->
             cell U i j = Some (Fin 1) /\ cell V i j = Some (Fin 0)).
Proof.
  split.
  - destruct corner_grid as (X & Y & HG & HX & HY & LX & LY & X0 & Y0).
    destruct (proj1 C6_flow_superposition corner_heap corner_field X Y
                (map (flow_result X Y) [corner_doublet]) HG)
      as (U & V & HF & HSU & HSV & HEU & HEV).
    { rewrite corner_points. apply flow_results; congruence. }
    exists U, V. split; [exact HF|]. split; [congruence|]. split; [congruence|].
    split.
    + apply (HEU 0%nat); [rewrite LX; lia|]. constructor; [|constructor].
      cbn [flow_result fst elt data]. rewrite lookup_zip_with, X0. cbn. rewrite Y0. reflexivity.
    + apply (HEV 0%nat); [rewrite LX; lia|]. constructor; [|constructor].
      cbn [flow_result snd elt data]. rewrite lookup_zip_with, X0. cbn. rewrite Y0. reflexivity.
  - apply (proj2 C6_flow_superposition);
      [apply unit_freestream_points | reflexivity | reflexivity | cbn; lia | cbn; lia].
Defined.

Lemma pair_points_ab :
  deref pair_heap (points pair_field_ab) = map build [corner_doublet; offset_doublet].
Proof.
  unfold deref, pair_heap. cbn [points pair_field_ab FlowField2D_init].
  rewrite lookup_insert_ne by discriminate. rewrite lookup_singleton_eq. reflexivity.
Qed.

Lemma pair_points_ba :
  deref pair_heap (points pair_field_ba) = map build [offset_doublet; corner_doublet].
Proof.
  unfold deref, pair_heap. cbn [points pair_field_ba FlowField2D_init].
  rewrite lookup_insert_eq. reflexivity.
Qed.

(** ** The default collection (C10) *)

Lemma alloc_lookup (h : heap) (l : list obj) :
  fst (alloc h l) !! snd (alloc h l) = Some l.
Proof. unfold alloc. cbn [fst snd]. apply lookup_insert_eq. Qed.

Lemma deref_append (h : heap) (l : nat) (xs : list obj) (o : obj) :
  h !! l = Some xs -> deref (list_append h l o) l = xs ++ [o].
Proof.
  intros H. unfold deref, list_append. rewrite lookup_alter_eq, H. reflexivity.
Qed.

(** Two collections that are different objects do not see each other's
    appends. *)
Lemma deref_append_other (h : heap) (l l' : nat) (o : obj) :
  l <> l' -> deref (list_append h l o) l' = deref h l'.
Proof. intros H. unfold deref, list_append. rewrite lookup_alter_ne by exact H. reflexivity. Qed.

(** C10 (defect in the code).  The default [points=[]] is one list object,
    made when the class statement runs.  Two fields built without a
    [points] argument hold that same object: after appending a doublet to
    the first field's collection, the second field's collection holds the
    doublet too, and its v component at the grid's first cell changes from
    0 to -1/(4 pi). *)
Theorem C10_default_points_shared :
  let h0 := fst (load_module ∅) in
  let defaults := snd (load_module ∅) in
  let a := FlowField2D_defaults defaults None in
  let b := FlowField2D_defaults defaults None in
  let h1 := list_append h0 (points a) (build corner_doublet) in
  points a = points b
  /\ deref h0 (points b) = []
  /\ deref h1 (points b) = [build corner_doublet]
  /\ (exists U V, FlowField2D_flow h0 b = Ok (VArray U, VArray V)
                  /\ cell V 0 0 = Some (Fin 0))
  /\ (exists U V, FlowField2D_flow h1 b = Ok (VArray U, VArray V)
                  /\ cell V 0 0 = Some (Fin (- / (4 * PI)))).
Proof.
  intros h0 defaults a b h1.
  assert (H0 : h0 !! defaults = Some []) by apply alloc_lookup.
  assert (D0 : deref h0 (points b) = map build []).
  { unfold deref. cbn [points b FlowField2D_defaults FlowField2D_init]. rewrite H0. reflexivity. }
  assert (D1 : deref h1 (points b) = map build [corner_doublet]).
  { subst h1. cbn [points a b FlowField2D_defaults FlowField2D_init].
    rewrite (deref_append h0 defaults [] _ H0). reflexivity. }
  split; [reflexivity|]. split; [exact D0|]. split; [exact D1|].
  assert (X0 : x_sample b 0 = -1) by apply sample_first.
  assert (Y0 : y_sample b 0 = -1) by apply sample_first.
  split.
  - destruct (flow_cells h0 b [] D0) as (U & V & HF & _ & _ & HC); [cbn; lia | cbn; lia |].
    exists U, V. split; [exact HF|].
    destruct (HC 0%nat 0%nat) as [_ ->]; [cbn; lia | cbn; lia |].
    cbn [map accumulate fold_left uinf b FlowField2D_defaults FlowField2D_init].
    do 2 f_equal. ring.
  - destruct (flow_cells h1 b [corner_doublet] D1) as (U & V & HF & _ & _ & HC);
      [cbn; lia | cbn; lia |].
    exists U, V. split; [exact HF|].
    destruct (HC 0%nat 0%nat) as [_ ->]; [cbn; lia | cbn; lia |].
    rewrite X0, Y0.
    cbn [map accumulate fold_left uinf alpha b FlowField2D_defaults FlowField2D_init].
    unfold v_at, flow_v, corner_doublet, doublet_v.
    cbn [s_class s_x s_y s_strength fneg]. rewrite half_over_pi_Fin, rsq_Fin.
    cbn [fsub fadd fneg fsqr fmul]. rewrite fdiv_Fin by lra.
    cbn [fadd]. do 2 f_equal. pose proof PI_neq0. field. assumption.
Qed.

(** * Further properties of the code *)

(** ** The singularities at single points *)

Lemma off_presented (x0 y0 x y : R) :
  (x, y) <> (x0, y0) -> (Fin x, Fin y) <> (Fin x0, Fin y0).
Proof. intros H E. apply H. injection E as -> ->. reflexivity. Qed.

Lemma source_u_real (m x0 y0 x y : R) :
  (x, y) <> (x0, y0) ->
  source_u m x0 y0 (Fin x) (Fin y)
  = Fin (m / (2 * PI) * (x - x0) / ((x - x0) ^ 2 + (y - y0) ^ 2))
  /\ source_v m x0 y0 (Fin x) (Fin y)
     = Fin (m / (2 * PI) * (y - y0) / ((x - x0) ^ 2 + (y - y0) ^ 2)).
Proof.
  intros H. apply off_singularity in H. pose proof PI_neq0 as Hpi.
  assert (Hr : (x - x0) ^ 2 + (y - y0) ^ 2 <> 0) by (intros E; apply H; rewrite <- E; ring).
  unfold source_u, source_v. rewrite half_over_pi_Fin, rsq_Fin.
  cbn [fsub fadd fneg fmul]. rewrite !fdiv_Fin by exact H.
  split; f_equal; field; split; assumption.
Qed.

Lemma vortex_u_real (g x0 y0 x y : R) :
  (x, y) <> (x0, y0) ->
  vortex_u g x0 y0 (Fin x) (Fin y)
  = Fin (g / (2 * PI) * (y - y0) / ((x - x0) ^ 2 + (y - y0) ^ 2))
  /\ vortex_v g x0 y0 (Fin x) (Fin y)
     = Fin (- g / (2 * PI) * (x - x0) / ((x - x0) ^ 2 + (y - y0) ^ 2)).
Proof.
  intros H. apply off_singularity in H. pose proof PI_neq0 as Hpi.
  assert (Hr : (x - x0) ^ 2 + (y - y0) ^ 2 <> 0) by (intros E; apply H; rewrite <- E; ring).
  unfold vortex_u, vortex_v. cbn [fneg]. rewrite !half_over_pi_Fin, rsq_Fin.
  cbn [fsub fadd fneg fmul]. rewrite !fdiv_Fin by exact H.
  split; f_equal; field; split; assumption.
Qed.

(** X1.  Off its own position a source's velocity is radial: parallel to
    the offset from the source, pointing away from it for a positive
    strength and towards it for a negative one, with speed
    |m| / (2 pi r). *)
Theorem X1_source_flow_is_radial (m x0 y0 : R) (color : string) (x y : R) :
  (x, y) <> (x0, y0) ->
  exists u v,
    PointSource_compute_flow (PointSource_init x0 y0 m color) (VFloat (Fin x)) (VFloat (Fin y))
    = Ok (VFloat (Fin u), VFloat (Fin v))
    /\ u * (y - y0) - v * (x - x0) = 0
    /\ u * (x - x0) + v * (y - y0) = m / (2 * PI)
    /\ (u ^ 2 + v ^ 2) * ((x - x0) ^ 2 + (y - y0) ^ 2) = (m / (2 * PI)) ^ 2.
Proof.
  intros H. destruct (source_u_real m x0 y0 x y H) as [Hu Hv].
  rewrite PointSource_compute_flow_float by (apply off_presented; exact H).
  rewrite Hu, Hv. eexists _, _. split; [reflexivity|].
  apply off_singularity in H. pose proof PI_neq0 as Hpi.
  assert (Hr : (x - x0) ^ 2 + (y - y0) ^ 2 <> 0) by (intros E; apply H; rewrite <- E; ring).
  repeat split; field; split; assumption.
Qed.

Lemma X1_witness :
  exists u v,
    PointSource_compute_flow (PointSource_init 0 0 1 "r") (VFloat (Fin 3)) (VFloat (Fin 4))
    = Ok (VFloat (Fin u), VFloat (Fin v))
    /\ u * (4 - 0) - v * (3 - 0) = 0
    /\ u * (3 - 0) + v * (4 - 0) = 1 / (2 * PI)
    /\ (u ^ 2 + v ^ 2) * ((3 - 0) ^ 2 + (4 - 0) ^ 2) = (1 / (2 * PI)) ^ 2.
Proof.
  apply (X1_source_flow_is_radial 1 0 0 "r" 3 4).
  intros E. injection E. lra.
Defined.

(** X2.  Off its own position a vortex's velocity is tangential:
    perpendicular to the offset from the vortex, with speed
    |gamma| / (2 pi r); for a positive strength the turn from the offset
    to the velocity is negative, a clockwise rotation. *)
Theorem X2_vortex_flow_is_tangential (g x0 y0 : R) (color : string) (x y : R) :
  (x, y) <> (x0, y0) ->
  exists u v,
    PointVortex_compute_flow (PointVortex_init x0 y0 g color) (VFloat (Fin x)) (VFloat (Fin y))
    = Ok (VFloat (Fin u), VFloat (Fin v))
    /\ u * (x - x0) + v * (y - y0) = 0
    /\ (x - x0) * v - (y - y0) * u = - g / (2 * PI)
    /\ (u ^ 2 + v ^ 2) * ((x - x0) ^ 2 + (y - y0) ^ 2) = (g / (2 * PI)) ^ 2.
Proof.
  intros H. destruct (vortex_u_real g x0 y0 x y H) as [Hu Hv].
  rewrite PointVortex_compute_flow_float by (apply off_presented; exact H).
  rewrite Hu, Hv. eexists _, _. split; [reflexivity|].
  apply off_singularity in H. pose proof PI_neq0 as Hpi.
  assert (Hr : (x - x0) ^ 2 + (y - y0) ^ 2 <> 0) by (intros E; apply H; rewrite <- E; ring).
  repeat split; field; split; assumption.
Qed.

Lemma X2_witness :
  exists u v,
    PointVortex_compute_flow (PointVortex_init 0 0 1 "c") (VFloat (Fin 1)) (VFloat (Fin 0))
    = Ok (VFloat (Fin u), VFloat (Fin v))
    /\ u * (1 - 0) + v * (0 - 0) = 0
    /\ (1 - 0) * v - (0 - 0) * u = - 1 / (2 * PI)
    /\ (u ^ 2 + v ^ 2) * ((1 - 0) ^ 2 + (0 - 0) ^ 2) = (1 / (2 * PI)) ^ 2.
Proof.
  apply (X2_vortex_flow_is_tangential 1 0 0 "c" 1 0).
  intros E. injection E. lra.
Defined.

Lemma doublet_real (mu x0 y0 x y : R) :
  (x, y) <> (x0, y0) ->
  doublet_v mu x0 y0 (Fin x) (Fin y)
  = Fin (- mu / (2 * PI) * 2 * (x - x0) * (y - y0) / ((x - x0) ^ 2 + (y - y0) ^ 2) ^ 2)
  /\ doublet_psi mu x0 y0 (Fin x) (Fin y)
     = Fin (- mu / (2 * PI) * (y - y0) / ((x - x0) ^ 2 + (y - y0) ^ 2)).
Proof.
  intros H. apply off_singularity in H. pose proof PI_neq0 as Hpi.
  assert (Hr : (x - x0) ^ 2 + (y - y0) ^ 2 <> 0) by (intros E; apply H; rewrite <- E; ring).
  assert (Hq : ((x - x0) * (x - x0) + (y - y0) * (y - y0))
               * ((x - x0) * (x - x0) + (y - y0) * (y - y0)) <> 0) by nra.
  unfold doublet_v, doublet_psi. cbn [fneg]. rewrite !half_over_pi_Fin, rsq_Fin.
  cbn [fsub fadd fneg fmul fsqr]. rewrite fdiv_Fin by exact Hq. rewrite fdiv_Fin by exact H.
  split; f_equal; field; split; assumption.
Qed.

(** X3.  Off the doublet, [compute_psi] on a single point returns
    [-mu/(2 pi) * dy / r^2], in the offsets from the doublet alone; on the
    horizontal line through the doublet it returns 0, and at the mirror
    image of a point across that line it returns the opposite value. *)
Theorem X3_doublet_psi (mu x0 y0 : R) (color : string) (x y : R) :
  (x, y) <> (x0, y0) ->
  let self := PointDoublet_init x0 y0 mu color in
  let psi := - mu / (2 * PI) * (y - y0) / ((x - x0) ^ 2 + (y - y0) ^ 2) in
  PointDoublet_compute_psi self (VFloat (Fin x)) (VFloat (Fin y)) = Ok (VFloat (Fin psi))
  /\ (y = y0 -> psi = 0)
  /\ PointDoublet_compute_psi self (VFloat (Fin x)) (VFloat (Fin (2 * y0 - y)))
     = Ok (VFloat (Fin (- psi))).
Proof.
  intros H self psi. subst self psi.
  destruct (doublet_real mu x0 y0 x y H) as [_ Hp].
  assert (H' : (x, 2 * y0 - y) <> (x0, y0)).
  { intros E. apply H. injection E as -> E. f_equal. lra. }
  destruct (doublet_real mu x0 y0 x (2 * y0 - y) H') as [_ Hp'].
  rewrite !PointDoublet_compute_psi_float by (apply off_presented; assumption).
  rewrite Hp, Hp'. apply off_singularity in H. pose proof PI_neq0 as Hpi.
  assert (Hr : (x - x0) ^ 2 + (y - y0) ^ 2 <> 0) by (intros E; apply H; rewrite <- E; ring).
  split; [reflexivity|]. split.
  - intros ->. unfold Rminus at 1. rewrite Rplus_opp_r. unfold Rdiv. ring.
  - assert (Hr' : (x - x0) ^ 2 + (2 * y0 - y - y0) ^ 2 <> 0)
      by (intros E; apply Hr; rewrite <- E; ring).
    do 3 f_equal. field. repeat split; assumption.
Qed.

Lemma X3_witness :
  PointDoublet_compute_psi (PointDoublet_init 0 0 1 "g") (VFloat (Fin 1)) (VFloat (Fin 1))
  = Ok (VFloat (Fin (- 1 / (2 * PI) * (1 - 0) / ((1 - 0) ^ 2 + (1 - 0) ^ 2)))).
Proof.
  apply (X3_doublet_psi 1 0 0 "g" 1 1). intros E. injection E. lra.
Defined.

(** X4.  Off the doublet, the v component of [compute_flow] on a single
    point is [-mu/(2 pi) * 2 dx dy / r^4], in the offsets alone: it
    vanishes on both axes through the doublet and does not change when
    the doublet and the point are moved together. *)
Theorem X4_doublet_v (mu x0 y0 : R) (color : string) (x y : R) :
  (x, y) <> (x0, y0) ->
  exists u,
    PointDoublet_compute_flow (PointDoublet_init x0 y0 mu color) (VFloat (Fin x)) (VFloat (Fin y))
    = Ok (VFloat u,
          VFloat (Fin (- mu / (2 * PI) * 2 * (x - x0) * (y - y0)
                       / ((x - x0) ^ 2 + (y - y0) ^ 2) ^ 2))).
Proof.
  intros H. destruct (doublet_real mu x0 y0 x y H) as [Hv _].
  rewrite PointDoublet_compute_flow_float by (apply off_presented; exact H).
  rewrite Hv. eexists. reflexivity.
Qed.

Lemma X4_witness :
  exists u,
    PointDoublet_compute_flow (PointDoublet_init 0 1 1 "g") (VFloat (Fin 1)) (VFloat (Fin 2))
    = Ok (VFloat u,
          VFloat (Fin (- 1 / (2 * PI) * 2 * (1 - 0) * (2 - 1)
                       / ((1 - 0) ^ 2 + (2 - 1) ^ 2) ^ 2))).
Proof.
  apply (X4_doublet_v 1 0 1 "g" 1 2). intros E. injection E. lra.
Defined.

(** X5.  Off the vortex, [compute_psi] on a single point returns
    [gamma/(4 pi) * ln(r^2)]: it depends on the distance from the vortex
    alone, so two points at the same distance get the same value. *)
Theorem X5_vortex_psi (g x0 y0 : R) (color : string) (x y x' y' : R) :
  (x, y) <> (x0, y0) ->
  (x' - x0) ^ 2 + (y' - y0) ^ 2 = (x - x0) ^ 2 + (y - y0) ^ 2 ->
  let self := PointVortex_init x0 y0 g color in
  PointVortex_compute_psi self (VFloat (Fin x)) (VFloat (Fin y))
  = Ok (VFloat (Fin (g / (4 * PI) * ln ((x - x0) ^ 2 + (y - y0) ^ 2))))
  /\ PointVortex_compute_psi self (VFloat (Fin x')) (VFloat (Fin y'))
     = PointVortex_compute_psi self (VFloat (Fin x)) (VFloat (Fin y)).
Proof.
  intros H Hd self. subst self.
  assert (H' : (x', y') <> (x0, y0)).
  { intros E. injection E as -> ->. apply off_singularity in H. apply H.
    replace ((x - x0) * (x - x0) + (y - y0) * (y - y0))
      with ((x - x0) ^ 2 + (y - y0) ^ 2) by ring.
    rewrite <- Hd. ring. }
  rewrite !PointVortex_compute_psi_float by assumption.
  replace ((x' - x0) * (x' - x0) + (y' - y0) * (y' - y0))
    with ((x' - x0) ^ 2 + (y' - y0) ^ 2) by ring.
  replace ((x - x0) * (x - x0) + (y - y0) * (y - y0))
    with ((x - x0) ^ 2 + (y - y0) ^ 2) by ring.
  rewrite Hd. split; [|reflexivity].
  do 3 f_equal. pose proof PI_neq0. field. assumption.
Qed.

Lemma X5_witness :
  PointVortex_compute_psi (PointVortex_init 0 0 1 "c") (VFloat (Fin 0)) (VFloat (Fin 2))
  = PointVortex_compute_psi (PointVortex_init 0 0 1 "c") (VFloat (Fin 2)) (VFloat (Fin 0)).
Proof.
  apply (X5_vortex_psi 1 0 0 "c" 2 0 0 2); [intros E; injection E; lra | ring].
Defined.

(** X6.  At the vortex itself [compute_psi] on a single point takes the
    logarithm of zero: [math.log] raises [ValueError]. *)
Theorem X6_vortex_psi_at_the_vortex (g x0 y0 : R) (color : string) :
  PointVortex_compute_psi (PointVortex_init x0 y0 g color) (VFloat (Fin x0)) (VFloat (Fin y0))
  = Raise ValueError.
Proof.
  unfold PointVortex_compute_psi.
  rewrite PointVortex_x, PointVortex_y, PointVortex_strength.
  py_eval. rewrite rsq_at_singularity. unfold log. rewrite bind_Ok. cbn [to_float].
  rewrite bind_Ok. destruct (Rlt_dec 0 0) as [Hlt|_]; [lra | reflexivity].
Qed.

(** X8.  On a single Python float the divisions are Python's own: at the
    singularity itself [compute_flow] of every class, and [compute_psi] of
    a doublet, raise [ZeroDivisionError] instead of returning an infinity
    or not-a-number. *)
Theorem X8_zero_division_at_the_singularity (c : class) (x0 y0 strength : R) (color : string) :
  compute_flow (make c x0 y0 strength color) (VFloat (Fin x0)) (VFloat (Fin y0))
  = Raise ZeroDivisionError
  /\ PointDoublet_compute_psi (PointDoublet_init x0 y0 strength color)
       (VFloat (Fin x0)) (VFloat (Fin y0))
     = Raise ZeroDivisionError.
Proof.
  split; [apply compute_flow_float_at_singularity|].
  unfold PointDoublet_compute_psi.
  rewrite PointDoublet_x, PointDoublet_y, PointDoublet_strength.
  strength_factor strength. py_eval. rewrite rsq_at_singularity, float_div_0. reflexivity.
Qed.

(** ** The singularities on arrays *)

(** X9.  On two arrays of one shape and one length [compute_flow] of every
    class returns, whatever the arrays hold (the singular point,
    infinities and not-a-number included): both results have the shape
    and the length of the input. *)
Theorem X9_compute_flow_array_total (c : class) (x0 y0 strength : R) (color : string)
    (X Y : ndarray) :
  shape X = shape Y -> length (data X) = length (data Y) ->
  exists U V,
    compute_flow (make c x0 y0 strength color) (VArray X) (VArray Y)
    = Ok (VArray U, VArray V)
    /\ shape U = shape X /\ shape V = shape X
    /\ length (data U) = length (data X) /\ length (data V) = length (data X).
Proof.
  intros HS HL. rewrite compute_flow_array by exact HS. eexists _, _.
  split; [reflexivity|]. cbn [shape data]. rewrite !length_zip_with.
  repeat split; lia.
Qed.

Lemma X9_witness :
  exists U V,
    compute_flow (make PointSource 0 0 1 "r")
      (VArray (mk_ndarray [2%nat] [Fin 0; Fin 1])) (VArray (mk_ndarray [2%nat] [Fin 0; NaN]))
    = Ok (VArray U, VArray V)
    /\ shape U = [2%nat] /\ shape V = [2%nat]
    /\ length (data U) = 2%nat /\ length (data V) = 2%nat.
Proof.
  apply (X9_compute_flow_array_total PointSource 0 0 1 "r"
           (mk_ndarray [2%nat] [Fin 0; Fin 1]) (mk_ndarray [2%nat] [Fin 0; NaN]));
    reflexivity.
Defined.

(** X10.  On two arrays of one shape and one length [compute_psi] of a
    doublet returns an array of that shape and length, and its element at
    an index where the input holds the finite point (x, y), off the
    doublet, is [-mu/(2 pi) * dy / r^2]. *)
Theorem X10_doublet_psi_array (mu x0 y0 : R) (color : string) (X Y : ndarray) :
  shape X = shape Y -> length (data X) = length (data Y) ->
  exists P,
    PointDoublet_compute_psi (PointDoublet_init x0 y0 mu color) (VArray X) (VArray Y)
    = Ok (VArray P)
    /\ shape P = shape X /\ length (data P) = length (data X)
    /\ forall k x y, data X !! k = Some (Fin x) -> data Y !! k = Some (Fin y) ->
         (x, y) <> (x0, y0) ->
         data P !! k
         = Some (Fin (- mu / (2 * PI) * (y - y0) / ((x - x0) ^ 2 + (y - y0) ^ 2))).
Proof.
  intros HS HL. rewrite PointDoublet_compute_psi_array by exact HS. eexists.
  split; [reflexivity|]. cbn [shape data]. rewrite length_zip_with.
  split; [reflexivity|]. split; [lia|].
  intros k x y Hx Hy H. rewrite lookup_zip_with, Hx. cbn. rewrite Hy. cbn.
  destruct (doublet_real mu x0 y0 x y H) as [_ ->]. reflexivity.
Qed.

Lemma X10_witness :
  exists P,
    PointDoublet_compute_psi (PointDoublet_init 0 0 1 "g")
      (VArray (mk_ndarray [1%nat] [Fin 1])) (VArray (mk_ndarray [1%nat] [Fin 1]))
    = Ok (VArray P)
    /\ shape P = [1%nat]
    /\ data P !! 0%nat
       = Some (Fin (- 1 / (2 * PI) * (1 - 0) / ((1 - 0) ^ 2 + (1 - 0) ^ 2))).
Proof.
  destruct (X10_doublet_psi_array 1 0 0 "g"
              (mk_ndarray [1%nat] [Fin 1]) (mk_ndarray [1%nat] [Fin 1]))
    as (P & HP & HS & _ & HE); [reflexivity | reflexivity |].
  exists P. split; [exact HP|]. split; [exact HS|].
  apply (HE 0%nat 1 1); [reflexivity | reflexivity |].
  intros E. injection E. lra.
Defined.

Lemma Rneg_opp (x : R) : x <> 0 -> Rneg (- x) = negb (Rneg x).
Proof.
  intros H. unfold Rneg. destruct (Rlt_dec (- x) 0), (Rlt_dec x 0); try reflexivity; lra.
Qed.

Lemma fmul_fneg_l (a b : fl) : fmul (fneg a) b = fneg (fmul a b).
Proof.
  destruct a as [x|s|], b as [y|t|]; cbn; try reflexivity.
  - f_equal. ring.
  - destruct (Req_EM_T (- x) 0), (Req_EM_T x 0); try reflexivity; try lra.
    cbn. rewrite Rneg_opp by assumption. destruct (Rneg x), t; reflexivity.
  - destruct (Req_EM_T y 0); [reflexivity|]. cbn. destruct s, (Rneg y); reflexivity.
  - destruct s, t; reflexivity.
Qed.

Lemma fdiv_fneg_l (a b : fl) : fdiv (fneg a) b = fneg (fdiv a b).
Proof.
  destruct a as [x|s|], b as [y|t|]; cbn; try reflexivity.
  - destruct (Req_EM_T y 0).
    + destruct (Req_EM_T (- x) 0), (Req_EM_T x 0); try reflexivity; try lra.
      cbn. rewrite Rneg_opp by assumption. reflexivity.
    + cbn. f_equal. field. assumption.
  - f_equal. ring.
  - destruct s, (Rneg y); reflexivity.
Qed.

Lemma half_over_pi_fneg (a : fl) : half_over_pi (fneg a) = fneg (half_over_pi a).
Proof. unfold half_over_pi. rewrite !fdiv_fneg_l. reflexivity. Qed.

Lemma Fin_opp (r : R) : Fin (- r) = fneg (Fin r).
Proof. reflexivity. Qed.

(** Reversing the sign of the strength reverses every contribution. *)
Lemma flow_opposite (c : class) (m x0 y0 : R) (x y : fl) :
  flow_u c (- m) x0 y0 x y = fneg (flow_u c m x0 y0 x y)
  /\ flow_v c (- m) x0 y0 x y = fneg (flow_v c m x0 y0 x y).
Proof.
  destruct c; cbn [flow_u flow_v];
    unfold doublet_u, doublet_v, source_u, source_v, vortex_u, vortex_v;
    rewrite !Fin_opp, !half_over_pi_fneg, !fmul_fneg_l, !fdiv_fneg_l; split; reflexivity.
Qed.

(** X11.  A source of strength [-m] is the sink of the source of strength
    [m]: on the same arrays [compute_flow] returns the same two arrays
    with every element negated.  The same holds for a vortex and for a
    doublet. *)
Theorem X11_opposite_strength (c : class) (m x0 y0 : R) (color : string) (X Y : ndarray) :
  shape X = shape Y ->
  exists U V,
    compute_flow (make c x0 y0 m color) (VArray X) (VArray Y) = Ok (VArray U, VArray V)
    /\ compute_flow (make c x0 y0 (- m) color) (VArray X) (VArray Y)
       = Ok (VArray (mk_ndarray (shape U) (map fneg (data U))),
             VArray (mk_ndarray (shape V) (map fneg (data V)))).
Proof.
  intros HS. rewrite !compute_flow_array by exact HS. eexists _, _.
  split; [reflexivity|]. cbn [shape data]. do 2 f_equal; do 2 f_equal.
  - generalize (data Y). induction (data X) as [|a l IH]; intros [|b k]; cbn; try reflexivity.
    rewrite IH. f_equal. apply flow_opposite.
  - generalize (data Y). induction (data X) as [|a l IH]; intros [|b k]; cbn; try reflexivity.
    rewrite IH. f_equal. apply flow_opposite.
Qed.

Lemma X11_witness :
  exists U V,
    compute_flow (make PointSource 0 0 1 "r")
      (VArray (mk_ndarray [1%nat] [Fin 1])) (VArray (mk_ndarray [1%nat] [Fin 0]))
    = Ok (VArray U, VArray V)
    /\ compute_flow (make PointSource 0 0 (- 1) "r")
         (VArray (mk_ndarray [1%nat] [Fin 1])) (VArray (mk_ndarray [1%nat] [Fin 0]))
       = Ok (VArray (mk_ndarray (shape U) (map fneg (data U))),
             VArray (mk_ndarray (shape V) (map fneg (data V)))).
Proof.
  apply (X11_opposite_strength PointSource 1 0 0 "r"
           (mk_ndarray [1%nat] [Fin 1]) (mk_ndarray [1%nat] [Fin 0])).
  reflexivity.
Defined.

(** ** The field *)

(** X12.  For a field of constructed singularities the velocity property
    raises exactly when [nx] or [ny] is negative, the [ValueError] of
    [linspace]; otherwise it returns two arrays of shape (ny, nx),
    whatever the singularities and wherever they lie. *)
Theorem X12_flow_raises_only_on_negative_counts (h : gmap nat (list obj))
    (self : FlowField2D) (ss : list singularity) :
  deref h (points self) = map build ss ->
  ((nx self < 0)%Z \/ (ny self < 0)%Z -> FlowField2D_flow h self = Raise ValueError)
  /\ ((0 <= nx self)%Z -> (0 <= ny self)%Z ->
      exists U V, FlowField2D_flow h self = Ok (VArray U, VArray V)
        /\ shape U = [Z.to_nat (ny self); Z.to_nat (nx self)]
        /\ shape V = [Z.to_nat (ny self); Z.to_nat (nx self)]).
Proof.
  intros Hps. split.
  - intros H. unfold FlowField2D_flow, FlowField2D_x.
    rewrite grid_raises by exact H. reflexivity.
  - intros Hx Hy. destruct (flow_cells h self ss Hps Hx Hy) as (U & V & HF & HU & HV & _).
    exists U, V. repeat split; assumption.
Qed.

Lemma X12_witness :
  FlowField2D_flow centre_heap (FlowField2D_init 1%nat (Some 0%nat) 0 0 (-1, 1) (-1, 1) (-3) 3)
  = Raise ValueError
  /\ exists U V, FlowField2D_flow centre_heap centre_field = Ok (VArray U, VArray V)
       /\ shape U = [3%nat; 3%nat] /\ shape V = [3%nat; 3%nat].
Proof.
  split.
  - apply (X12_flow_raises_only_on_negative_counts centre_heap
             (FlowField2D_init 1%nat (Some 0%nat) 0 0 (-1, 1) (-1, 1) (-3) 3) [centre_vortex]);
      [apply centre_points | left; cbn; lia].
  - apply (X12_flow_raises_only_on_negative_counts centre_heap centre_field [centre_vortex]);
      [apply centre_points | cbn; lia | cbn; lia].
Defined.

Lemma not_Forall_not (A : Type) (P : A -> Prop) (l : list A) :
  (forall x, P x \/ ~ P x) ->
  ~ Forall (fun x => ~ P x) l <-> Exists P l.
Proof.
  intros dec. split.
  - induction l as [|a l IH]; intros N.
    + exfalso. apply N. constructor.
    + destruct (dec a) as [Ha|Ha]; [apply Exists_cons_hd; exact Ha|].
      apply Exists_cons_tl, IH. intros F. apply N. constructor; assumption.
  - intros E F. induction E as [a l Ha|a l _ IH]; inversion F; subst; auto.
Qed.

(** X13.  Sampling on singularities does not abort the velocity field and
    does not spread: a cell of u (of v) is non-finite exactly when some
    singularity of the collection sits on that cell's grid point; every
    other cell is finite. *)
Theorem X13_nonfinite_cells_are_the_singular_ones (h : gmap nat (list obj))
    (self : FlowField2D) (ss : list singularity) :
  deref h (points self) = map build ss ->
  (0 <= nx self)%Z -> (0 <= ny self)%Z ->
  exists U V, FlowField2D_flow h self = Ok (VArray U, VArray V)
    /\ forall i j, (i < Z.to_nat (ny self))%nat -> (j < Z.to_nat (nx self))%nat ->
         exists u v, cell U i j = Some u /\ cell V i j = Some v
           /\ (is_finite u = false
               <-> Exists (sits_on (x_sample self j) (y_sample self i)) ss)
           /\ (is_finite v = false
               <-> Exists (sits_on (x_sample self j) (y_sample self i)) ss).
Proof.
  intros Hps Hx Hy.
  destruct (flow_nonfinite_cells h self ss Hps Hx Hy) as (U & V & HF & HC).
  exists U, V. split; [exact HF|]. intros i j Hi Hj.
  destruct (HC i j Hi Hj) as (u & v & Hu & Hv & Fu & Fv).
  exists u, v. split; [exact Hu|]. split; [exact Hv|].
  assert (HD : forall s, sits_on (x_sample self j) (y_sample self i) s
                         \/ ~ sits_on (x_sample self j) (y_sample self i) s).
  { intros s. unfold sits_on.
    destruct (Req_EM_T (s_x s) (x_sample self j)), (Req_EM_T (s_y s) (y_sample self i));
      [left; split; assumption | right; intros [_ ?]; contradiction
      | right; intros [? _]; contradiction | right; intros [? _]; contradiction]. }
  split; split; intros E.
  - apply (not_Forall_not _ _ ss HD). intros F. apply Fu in F. congruence.
  - apply (not_Forall_not _ _ ss HD) in E.
    destruct (is_finite u); [exfalso; apply E, Fu; reflexivity | reflexivity].
  - apply (not_Forall_not _ _ ss HD). intros F. apply Fv in F. congruence.
  - apply (not_Forall_not _ _ ss HD) in E.
    destruct (is_finite v); [exfalso; apply E, Fv; reflexivity | reflexivity].
Qed.

Lemma X13_witness :
  exists U V, FlowField2D_flow centre_heap centre_field = Ok (VArray U, VArray V)
    /\ exists u v, cell U 1 1 = Some u /\ cell V 1 1 = Some v
         /\ is_finite u = false /\ is_finite v = false.
Proof.
  destruct (X13_nonfinite_cells_are_the_singular_ones centre_heap centre_field
              [centre_vortex] centre_points) as (U & V & HF & HC); [cbn; lia | cbn; lia |].
  exists U, V. split; [exact HF|].
  destruct (HC 1%nat 1%nat) as (u & v & Hu & Hv & Fu & Fv); [cbn; lia | cbn; lia |].
  exists u, v. split; [exact Hu|]. split; [exact Hv|].
  assert (E : Exists (sits_on (x_sample centre_field 1) (y_sample centre_field 1))
                [centre_vortex]).
  { apply Exists_cons_hd. destruct (centre_sample 1) as [-> ->]; [lia|].
    cbn [INR]. split; cbn; lra. }
  split; [apply Fu | apply Fv]; exact E.
Defined.

Lemma psi_at_real (s : singularity) (x y : R) :
  ~ sits_on x y s ->
  psi_at s (Fin x) (Fin y)
  = Fin (- s_strength s / (2 * PI) * (y - s_y s) / ((x - s_x s) ^ 2 + (y - s_y s) ^ 2)).
Proof.
  intros H. unfold psi_at. apply doublet_real.
  intros E. apply H. injection E. intros. split; congruence.
Qed.

Lemma psi_at_finite (s : singularity) (x y : R) :
  is_finite (psi_at s (Fin x) (Fin y)) = true <-> ~ sits_on x y s.
Proof.
  rewrite <- rsq_is_zero. unfold psi_at, doublet_psi. cbn [fneg].
  rewrite half_over_pi_Fin, rsq_Fin. cbn [fsub fadd fneg fsqr fmul].
  rewrite fdiv_finite.
  change (x + - s_x s) with (x - s_x s); change (y + - s_y s) with (y - s_y s).
  destruct (is_zero _); cbn; split; congruence.
Qed.

Lemma accumulate_psi_real (ss : list singularity) (x y b : R) :
  Forall (fun s => ~ sits_on x y s) ss ->
  accumulate (Fin b) (map (fun s => psi_at s (Fin x) (Fin y)) ss)
  = Fin (fold_left
           (fun acc s => acc + - s_strength s / (2 * PI) * (y - s_y s)
                               / ((x - s_x s) ^ 2 + (y - s_y s) ^ 2)) ss b).
Proof.
  intros H. revert b. induction H as [|s ss Hs _ IH]; intros b; [reflexivity|].
  cbn [map accumulate fold_left]. rewrite (psi_at_real s x y Hs). cbn [fadd].
  apply IH.
Qed.

Lemma forallb_finite (A : Type) (f : A -> fl) (P : A -> Prop) (l : list A) :
  (forall a, is_finite (f a) = true <-> P a) ->
  forallb is_finite (map f l) = true <-> Forall P l.
Proof.
  intros H. induction l as [|a l IH]; cbn [map forallb].
  - split; [constructor | reflexivity].
  - rewrite andb_true_iff, H, IH. split.
    + intros [? ?]. constructor; assumption.
    + intros F. inversion F; subst. split; assumption.
Qed.

(** X14.  The stream function of a field whose singularities are all
    doublets returns an array of shape (ny, nx).  At a grid point
    (x_j, y_i) on which no doublet sits the cell holds the real number got
    by adding to the freestream term
    [uinf * (y_i cos alpha - x_j sin alpha)] each doublet's
    [-mu/(2 pi) * dy / r^2] in the order of the collection; the cell is
    non-finite exactly when some doublet sits on its grid point. *)
Theorem X14_psi_of_doublets (h : gmap nat (list obj)) (self : FlowField2D)
    (ss : list singularity) :
  deref h (points self) = map build ss ->
  Forall (fun s => s_class s = PointDoublet) ss ->
  (0 <= nx self)%Z -> (0 <= ny self)%Z ->
  exists P, FlowField2D_psi h self = Ok (VArray P)
    /\ shape P = [Z.to_nat (ny self); Z.to_nat (nx self)]
    /\ forall i j, (i < Z.to_nat (ny self))%nat -> (j < Z.to_nat (nx self))%nat ->
         exists p, cell P i j = Some p
           /\ (Forall (fun s => ~ sits_on (x_sample self j) (y_sample self i) s) ss ->
               p = Fin (fold_left
                          (fun acc s =>
                             acc + - s_strength s / (2 * PI) * (y_sample self i - s_y s)
                                   / ((x_sample self j - s_x s) ^ 2
                                      + (y_sample self i - s_y s) ^ 2))
                          ss
                          (uinf self * (y_sample self i * cos (alpha self)
                                        - x_sample self j * sin (alpha self)))))
           /\ (is_finite p = false
               <-> Exists (sits_on (x_sample self j) (y_sample self i)) ss).
Proof.
  intros Hps Hd Hx Hy.
  destruct (psi_cells h self ss Hps Hd Hx Hy) as (P & HP & HS & HC).
  exists P. split; [exact HP|]. split; [exact HS|]. intros i j Hi Hj.
  eexists. split; [apply HC; assumption|]. split.
  - apply accumulate_psi_real.
  - rewrite accumulate_finite. cbn [is_finite andb].
    assert (HD : forall s, sits_on (x_sample self j) (y_sample self i) s
                           \/ ~ sits_on (x_sample self j) (y_sample self i) s).
    { intros s. unfold sits_on.
      destruct (Req_EM_T (s_x s) (x_sample self j)), (Req_EM_T (s_y s) (y_sample self i));
        [left; split; assumption | right; intros [_ ?]; contradiction
        | right; intros [? _]; contradiction | right; intros [? _]; contradiction]. }
    rewrite <- (not_Forall_not _ _ ss HD).
    rewrite <- (forallb_finite _ (fun s => psi_at s (Fin (x_sample self j))
                                               (Fin (y_sample self i)))
                  (fun s => ~ sits_on (x_sample self j) (y_sample self i) s) ss)
      by (intros a; apply psi_at_finite).
    destruct (forallb _ _); split; congruence.
Qed.

Lemma X14_witness :
  exists P, FlowField2D_psi corner_heap corner_field = Ok (VArray P)
    /\ shape P = [2%nat; 2%nat]
    /\ exists p, cell P 0 0 = Some p /\ is_finite p = true.
Proof.
  destruct (X14_psi_of_doublets corner_heap corner_field [corner_doublet] corner_points)
    as (P & HP & HS & HC);
    [repeat constructor | cbn; lia | cbn; lia |].
  exists P. split; [exact HP|]. split; [exact HS|].
  destruct (HC 0%nat 0%nat) as (p & Hp & Hv & _); [cbn; lia | cbn; lia |].
  exists p. split; [exact Hp|]. rewrite Hv; [reflexivity|].
  repeat constructor. unfold sits_on, x_sample. rewrite sample_first. cbn. lra.
Defined.

Lemma psi_loop_first_unsupported (self : FlowField2D) (X Y : ndarray)
    (ds : list singularity) (s : singularity) (rest : list singularity) (e : exn) :
  FlowField2D_grid self = Ok (X, Y) ->
  shape X = shape Y -> length (data X) = length (data Y) ->
  Forall (fun d => s_class d = PointDoublet) ds ->
  compute_psi (build s) (VArray X) (VArray Y) = Raise e ->
  forall P, shape P = shape X -> length (data P) = length (data X) ->
  psi_loop self (map build (ds ++ s :: rest)) (VArray P) = Raise e.
Proof.
  intros HG HS HL Hd He. induction Hd as [|d ds Hc _ IH]; intros P HSP HLP.
  - cbn [app map psi_loop]. rewrite (self_x self X Y HG), (self_y self X Y HG), !bind_Ok.
    rewrite He. reflexivity.
  - cbn [app map psi_loop]. rewrite (self_x self X Y HG), (self_y self X Y HG), !bind_Ok.
    rewrite compute_psi_doublet by assumption.
    destruct (add_conforms P (psi_result X Y d)) as (P1 & HA & HS1 & HL1 & _).
    { cbn [psi_result conforms shape data]. rewrite length_zip_with. split; [congruence | lia]. }
    unfold psi_result in HA. rewrite py_add_values, HA, bind_Ok.
    apply IH; congruence.
Qed.

(** X15.  On a grid with non-negative counts the stream function of a
    field raises the error of the first singularity of the collection that
    is not a doublet, whatever follows it: [AttributeError] (for [yrel]) when
    that singularity is a source, on every grid; [TypeError] when it is a
    vortex and the grid does not hold exactly one point. *)
Theorem X15_psi_error_of_first_unsupported (h : gmap nat (list obj)) (self : FlowField2D)
    (ds : list singularity) (s : singularity) (rest : list singularity) :
  deref h (points self) = map build (ds ++ s :: rest) ->
  Forall (fun d => s_class d = PointDoublet) ds ->
  (0 <= nx self)%Z -> (0 <= ny self)%Z ->
  (s_class s = PointSource -> FlowField2D_psi h self = Raise (AttributeError "yrel"))
  /\ (s_class s = PointVortex ->
      (Z.to_nat (ny self) * Z.to_nat (nx self) <> 1)%nat ->
      FlowField2D_psi h self = Raise TypeError).
Proof.
  intros Hps Hd Hx Hy.
  destruct (grid_shape self Hx Hy) as (X & Y & HG & HX & HY & LX & LY & _).
  assert (HS : shape X = shape Y) by congruence.
  assert (HL : length (data X) = length (data Y)) by congruence.
  destruct (psi_freestream self X Y HG HS HL) as (P0 & H0 & HS0 & HL0 & _).
  unfold FlowField2D_psi. rewrite H0, bind_Ok, Hps. split.
  - intros Hc. apply (psi_loop_first_unsupported self X Y); try assumption.
    apply compute_psi_source, Hc.
  - intros Hc H1. apply (psi_loop_first_unsupported self X Y); try assumption.
    apply compute_psi_vortex; try assumption. congruence.
Qed.

Lemma X15_witness :
  FlowField2D_psi {[ 0%nat := [build corner_doublet;
                               build (mk_singularity PointSource 0 0 1 "r");
                               build centre_vortex] ]} corner_field
  = Raise (AttributeError "yrel")
  /\ FlowField2D_psi centre_heap centre_field = Raise TypeError.
Proof.
  split.
  - apply (X15_psi_error_of_first_unsupported _ corner_field [corner_doublet]
             (mk_singularity PointSource 0 0 1 "r") [centre_vortex]).
    + unfold deref. cbn [points corner_field FlowField2D_init].
      rewrite lookup_singleton_eq. reflexivity.
    + repeat constructor.
    + cbn; lia.
    + cbn; lia.
    + reflexivity.
  - apply (X15_psi_error_of_first_unsupported centre_heap centre_field []
             centre_vortex []).
    + apply centre_points.
    + constructor.
    + cbn; lia.
    + cbn; lia.
    + reflexivity.
    + cbn; lia.
Defined.

(** ** Any order of the collection *)

Lemma flow_loop_app (self : FlowField2D) (l1 l2 : list obj) (U V : value) :
  flow_loop self (l1 ++ l2) U V
  = (r ← flow_loop self l1 U V; flow_loop self l2 (fst r) (snd r)).
Proof.
  revert U V. induction l1 as [|p l1 IH]; intros U V; [reflexivity|].
  cbn [app flow_loop].
  destruct (FlowField2D_x self) as [x|e]; [|reflexivity]. rewrite !bind_Ok.
  destruct (FlowField2D_y self) as [y|e]; [|reflexivity]. rewrite !bind_Ok.
  destruct (compute_flow p x y) as [r|e]; [|reflexivity]. rewrite !bind_Ok.
  destruct (val U + val (item0 r))%py; [|reflexivity]. rewrite !bind_Ok.
  destruct (val V + val (item1 r))%py; [|reflexivity]. rewrite !bind_Ok.
  apply IH.
Qed.

Lemma psi_loop_app (self : FlowField2D) (l1 l2 : list obj) (P : value) :
  psi_loop self (l1 ++ l2) P = (r ← psi_loop self l1 P; psi_loop self l2 r).
Proof.
  revert P. induction l1 as [|p l1 IH]; intros P; [reflexivity|].
  cbn [app psi_loop].
  destruct (FlowField2D_x self) as [x|e]; [|reflexivity]. rewrite !bind_Ok.
  destruct (FlowField2D_y self) as [y|e]; [|reflexivity]. rewrite !bind_Ok.
  destruct (val P + compute_psi p x y)%py; [|reflexivity]. rewrite !bind_Ok.
  apply IH.
Qed.

Lemma flow_loop_perm (self : FlowField2D) (l l' : list obj) :
  l ≡ₚ l' ->
  forall U V r, flow_loop self l U V = Ok r -> flow_loop self l' U V = Ok r.
Proof.
  induction 1 as [|p l l' _ IH|p q l|l l' l'' _ IH1 _ IH2]; intros U V r H.
  - exact H.
  - change (p :: l) with ([p] ++ l) in H. change (p :: l') with ([p] ++ l').
    rewrite flow_loop_app in *.
    apply bind_Ok_inv in H as (a & Ha & H). rewrite Ha, bind_Ok. apply IH, H.
  - change (q :: p :: l) with ([q; p] ++ l) in H. change (p :: q :: l) with ([p; q] ++ l).
    rewrite flow_loop_app in *.
    apply bind_Ok_inv in H as (a & Ha & H).
    rewrite (flow_loop_swap self q p U V a Ha), bind_Ok. exact H.
  - apply IH2, IH1, H.
Qed.

Lemma psi_loop_perm (self : FlowField2D) (l l' : list obj) :
  l ≡ₚ l' ->
  forall P r, psi_loop self l P = Ok r -> psi_loop self l' P = Ok r.
Proof.
  induction 1 as [|p l l' _ IH|p q l|l l' l'' _ IH1 _ IH2]; intros P r H.
  - exact H.
  - change (p :: l) with ([p] ++ l) in H. change (p :: l') with ([p] ++ l').
    rewrite psi_loop_app in *.
    apply bind_Ok_inv in H as (a & Ha & H). rewrite Ha, bind_Ok. apply IH, H.
  - change (q :: p :: l) with ([q; p] ++ l) in H. change (p :: q :: l) with ([p; q] ++ l).
    rewrite psi_loop_app in *.
    apply bind_Ok_inv in H as (a & Ha & H).
    rewrite (psi_loop_swap self q p P a Ha), bind_Ok. exact H.
  - apply IH2, IH1, H.
Qed.

Lemma flow_permuted (h1 h2 : gmap nat (list obj)) (f1 f2 : FlowField2D) (r : value * value) :
  deref h1 (points f1) ≡ₚ deref h2 (points f2) ->
  uinf f1 = uinf f2 -> alpha f1 = alpha f2 -> FlowField2D_grid f1 = FlowField2D_grid f2 ->
  FlowField2D_flow h1 f1 = Ok r -> FlowField2D_flow h2 f2 = Ok r.
Proof.
  intros Hp Hu Ha HG.
  unfold FlowField2D_flow, FlowField2D_freestream, FlowField2D_x.
  rewrite HG, Hu, Ha. cbn [fst snd].
  destruct (shape_of _) as [shp|e]; [|discriminate]. rewrite !bind_Ok.
  destruct (val (VArray (ones shp)) * flt (uinf f2 * cos (alpha f2)))%py as [u|e];
    [|discriminate]. rewrite !bind_Ok.
  destruct (val (VArray (ones shp)) * flt (uinf f2 * sin (alpha f2)))%py as [v|e];
    [|discriminate]. rewrite !bind_Ok.
  rewrite (flow_loop_grid f1 f2) by exact HG.
  apply flow_loop_perm, Hp.
Qed.

Lemma psi_permuted (h1 h2 : gmap nat (list obj)) (f1 f2 : FlowField2D) (r : value) :
  deref h1 (points f1) ≡ₚ deref h2 (points f2) ->
  uinf f1 = uinf f2 -> alpha f1 = alpha f2 -> FlowField2D_grid f1 = FlowField2D_grid f2 ->
  FlowField2D_psi h1 f1 = Ok r -> FlowField2D_psi h2 f2 = Ok r.
Proof.
  intros Hp Hu Ha HG.
  unfold FlowField2D_psi, FlowField2D_x, FlowField2D_y.
  rewrite HG, Hu, Ha.
  match goal with |- mbind _ ?m = _ -> _ => destruct m as [p|e]; [|discriminate] end.
  rewrite !bind_Ok. rewrite (psi_loop_grid f1 f2) by exact HG.
  apply psi_loop_perm, Hp.
Qed.

(** X16.  The loops over the collection do not depend on its order, for
    any number of singularities of any kind: two fields with the same
    freestream and grid parameters whose collections are permutations of
    each other return the same velocity arrays and the same stream
    function (in the exact arithmetic of the model); when one of them
    raises, so does the other. *)
Theorem X16_any_order (h1 h2 : gmap nat (list obj)) (f1 f2 : FlowField2D) :
  deref h1 (points f1) ≡ₚ deref h2 (points f2) ->
  uinf f1 = uinf f2 -> alpha f1 = alpha f2 ->
  xlim f1 = xlim f2 -> ylim f1 = ylim f2 -> nx f1 = nx f2 -> ny f1 = ny f2 ->
  (forall r, FlowField2D_flow h1 f1 = Ok r <-> FlowField2D_flow h2 f2 = Ok r)
  /\ (forall r, FlowField2D_psi h1 f1 = Ok r <-> FlowField2D_psi h2 f2 = Ok r).
Proof.
  intros Hp Hu Ha Hx Hy Hnx Hny.
  assert (HG : FlowField2D_grid f1 = FlowField2D_grid f2).
  { unfold FlowField2D_grid, FlowField2D_x_values, FlowField2D_y_values.
    rewrite Hx, Hy, Hnx, Hny. reflexivity. }
  split; intros r; split.
  - apply flow_permuted; assumption.
  - apply flow_permuted; try (symmetry; assumption).
  - apply psi_permuted; assumption.
  - apply psi_permuted; try (symmetry; assumption).
Qed.

Lemma X16_witness :
  let h : gmap nat (list obj) :=
    <[ 1%nat := [build centre_vortex; build corner_doublet; build offset_doublet] ]>
      {[ 0%nat := [build corner_doublet; build offset_doublet; build centre_vortex] ]} in
  let f1 := FlowField2D_init 2%nat (Some 0%nat) 1 0 (-1, 1) (-1, 1) 2 2 in
  let f2 := FlowField2D_init 2%nat (Some 1%nat) 1 0 (-1, 1) (-1, 1) 2 2 in
  exists U V, FlowField2D_flow h f1 = Ok (VArray U, VArray V)
              /\ FlowField2D_flow h f2 = Ok (VArray U, VArray V).
Proof.
  intros h f1 f2.
  assert (H1 : deref h (points f1)
               = map build [corner_doublet; offset_doublet; centre_vortex]).
  { unfold deref, h. cbn [points f1 FlowField2D_init].
    rewrite lookup_insert_ne by discriminate. rewrite lookup_singleton_eq. reflexivity. }
  assert (H2 : deref h (points f2)
               = map build [centre_vortex; corner_doublet; offset_doublet]).
  { unfold deref, h. cbn [points f2 FlowField2D_init].
    rewrite lookup_insert_eq. reflexivity. }
  destruct (X16_any_order h h f1 f2) as [HF _];
    [rewrite H1, H2; cbn [map]; symmetry; apply (Permutation_cons_append [_; _])
    | reflexivity | reflexivity | reflexivity | reflexivity | reflexivity | reflexivity |].
  destruct (flow_cells h f1 _ H1) as (U & V & H & _); [cbn; lia | cbn; lia |].
  exists U, V. split; [exact H | apply HF; exact H].
Defined.

(** ** The axes *)

Lemma sample_bounds (lo hi : R) (n : Z) (i : nat) :
  (0 < n)%Z -> (i < Z.to_nat n)%nat -> lo <= hi ->
  lo <= sample lo hi n i <= hi.
Proof.
  intros Hn Hi Hle. unfold sample. destruct (Z.eqb_spec n 1) as [->|Hne]; [lra|].
  assert (Hd : 0 < IZR (n - 1)) by (apply IZR_lt; lia).
  assert (H0 : 0 <= INR i) by apply pos_INR.
  assert (H1 : INR i <= IZR (n - 1)).
  { rewrite INR_IZR_INZ. apply IZR_le. lia. }
  assert (E : lo + INR i * (hi - lo) / IZR (n - 1)
              = lo + (hi - lo) * (INR i / IZR (n - 1))) by (field; lra).
  rewrite E.
  assert (0 <= INR i / IZR (n - 1) <= 1).
  { split.
    - apply Rmult_le_pos; [exact H0 | left; apply Rinv_0_lt_compat, Hd].
    - apply (Rmult_le_reg_r (IZR (n - 1))); [exact Hd|].
      replace (INR i / IZR (n - 1) * IZR (n - 1)) with (INR i) by (field; lra). lra. }
  nra.
Qed.

Lemma linspace_samples (lo hi : R) (n : Z) :
  (0 < n)%Z ->
  exists A, linspace lo hi n = Ok A
    /\ shape A = [Z.to_nat n]
    /\ forall i, (i < Z.to_nat n)%nat -> data A !! i = Some (Fin (sample lo hi n i)).
Proof.
  intros Hn. eexists. split; [apply linspace_ok; lia|]. split; [reflexivity|].
  intros i Hi. cbn [data]. rewrite list_lookup_fmap, samples_sample by assumption.
  reflexivity.
Qed.

(** X17.  [x_values] holds [nx] numbers (and [y_values] [ny] numbers): with
    at least two samples and limits in increasing order, every sample lies
    between the two limits and each sample exceeds the one before it by the
    same positive step [(xlim[1] - xlim[0]) / (nx - 1)]. *)
Theorem X17_axis_values_increase (self : FlowField2D) :
  ((2 <= nx self)%Z -> fst (xlim self) < snd (xlim self) ->
   exists A, FlowField2D_x_values self = Ok A
     /\ shape A = [Z.to_nat (nx self)]
     /\ forall j, (j < Z.to_nat (nx self))%nat ->
          exists x, data A !! j = Some (Fin x)
            /\ fst (xlim self) <= x <= snd (xlim self)
            /\ ((S j < Z.to_nat (nx self))%nat ->
                exists x', data A !! S j = Some (Fin x')
                  /\ x' - x = (snd (xlim self) - fst (xlim self)) / IZR (nx self - 1)
                  /\ x < x'))
  /\ ((2 <= ny self)%Z -> fst (ylim self) < snd (ylim self) ->
      exists A, FlowField2D_y_values self = Ok A
        /\ shape A = [Z.to_nat (ny self)]
        /\ forall i, (i < Z.to_nat (ny self))%nat ->
             exists y, data A !! i = Some (Fin y)
               /\ fst (ylim self) <= y <= snd (ylim self)
               /\ ((S i < Z.to_nat (ny self))%nat ->
                   exists y', data A !! S i = Some (Fin y')
                     /\ y' - y = (snd (ylim self) - fst (ylim self)) / IZR (ny self - 1)
                     /\ y < y')).
Proof.
  assert (G : forall lo hi n, (2 <= n)%Z -> lo < hi ->
            exists A, linspace lo hi n = Ok A
              /\ shape A = [Z.to_nat n]
              /\ forall j, (j < Z.to_nat n)%nat ->
                   exists x, data A !! j = Some (Fin x)
                     /\ lo <= x <= hi
                     /\ ((S j < Z.to_nat n)%nat ->
                         exists x', data A !! S j = Some (Fin x')
                           /\ x' - x = (hi - lo) / IZR (n - 1)
                           /\ x < x')).
  { intros lo hi n Hn Hlt.
    destruct (linspace_samples lo hi n) as (A & HA & HS & HD); [lia|].
    exists A. split; [exact HA|]. split; [exact HS|]. intros j Hj.
    exists (sample lo hi n j). split; [apply HD, Hj|].
    split; [apply sample_bounds; [lia | exact Hj | lra]|].
    intros HSj. exists (sample lo hi n (S j)). split; [apply HD, HSj|].
    pose proof (sample_step lo hi n j Hn) as E. split; [exact E|].
    assert (0 < (hi - lo) / IZR (n - 1)).
    { apply Rmult_lt_0_compat; [lra | apply Rinv_0_lt_compat, IZR_lt; lia]. }
    lra. }
  split; intros Hn Hlt; apply G; assumption.
Qed.

Lemma X17_witness :
  (exists A, FlowField2D_x_values centre_field = Ok A
     /\ shape A = [3%nat]
     /\ exists x x', data A !! 1%nat = Some (Fin x) /\ data A !! 2%nat = Some (Fin x')
          /\ x' - x = 1)
  /\ (exists A, FlowField2D_y_values centre_field = Ok A
        /\ shape A = [3%nat]
        /\ exists y y', data A !! 0%nat = Some (Fin y) /\ data A !! 1%nat = Some (Fin y')
             /\ y' - y = 1).
Proof.
  destruct (X17_axis_values_increase centre_field) as [Hx Hy]. split.
  - destruct Hx as (A & HA & HS & HD); [cbn; lia | cbn; lra |].
    exists A. split; [exact HA|]. split; [exact HS|].
    destruct (HD 1%nat) as (x & Hx & _ & Hn); [cbn; lia|].
    destruct Hn as (x' & Hx' & E & _); [cbn; lia|].
    exists x, x'. split; [exact Hx|]. split; [exact Hx'|].
    rewrite E. cbn [xlim centre_field FlowField2D_init nx fst snd].
    change (IZR (3 - 1)) with 2. lra.
  - destruct Hy as (A & HA & HS & HD); [cbn; lia | cbn; lra |].
    exists A. split; [exact HA|]. split; [exact HS|].
    destruct (HD 0%nat) as (y & Hy & _ & Hn); [cbn; lia|].
    destruct Hn as (y' & Hy' & E & _); [cbn; lia|].
    exists y, y'. split; [exact Hy|]. split; [exact Hy'|].
    rewrite E. cbn [ylim centre_field FlowField2D_init ny fst snd].
    change (IZR (3 - 1)) with 2. lra.
Defined.

(** ** The freestream *)

Lemma flow_fst_snd (h : gmap nat (list obj)) (self : FlowField2D) (U V : value) :
  FlowField2D_flow h self = Ok (U, V) ->
  FlowField2D_u h self = Ok U /\ FlowField2D_v h self = Ok V.
Proof. intros H. unfold FlowField2D_u, FlowField2D_v. rewrite H. split; reflexivity. Qed.

(** X18.  A field without singularities is the uniform freestream, for
    every speed and angle: the [u] and [v] properties return arrays of shape
    (ny, nx) whose every cell holds the components of [freestream],
    [uinf cos alpha] and [uinf sin alpha], and the speed in every cell is
    [|uinf|]. *)
Theorem X18_uniform_freestream (h : gmap nat (list obj)) (self : FlowField2D) :
  deref h (points self) = [] ->
  (0 <= nx self)%Z -> (0 <= ny self)%Z ->
  exists U V, FlowField2D_u h self = Ok (VArray U) /\ FlowField2D_v h self = Ok (VArray V)
    /\ shape U = [Z.to_nat (ny self); Z.to_nat (nx self)]
    /\ shape V = [Z.to_nat (ny self); Z.to_nat (nx self)]
    /\ forall i j, (i < Z.to_nat (ny self))%nat -> (j < Z.to_nat (nx self))%nat ->
         cell U i j = Some (Fin (fst (FlowField2D_freestream self)))
         /\ cell V i j = Some (Fin (snd (FlowField2D_freestream self)))
         /\ sqrt ((fst (FlowField2D_freestream self)) ^ 2
                  + (snd (FlowField2D_freestream self)) ^ 2) = Rabs (uinf self).
Proof.
  intros Hps Hx Hy.
  destruct (flow_cells h self [] Hps Hx Hy) as (U & V & HF & HU & HV & HC).
  destruct (flow_fst_snd h self _ _ HF) as [Hu Hv].
  exists U, V. do 4 (split; [assumption|]). intros i j Hi Hj.
  destruct (HC i j Hi Hj) as [Cu Cv]. split; [exact Cu|]. split; [exact Cv|].
  unfold FlowField2D_freestream. cbn [fst snd].
  replace ((uinf self * cos (alpha self)) ^ 2 + (uinf self * sin (alpha self)) ^ 2)
    with ((uinf self)² * ((sin (alpha self))² + (cos (alpha self))²))
    by (unfold Rsqr; ring).
  rewrite sin2_cos2, Rmult_1_r. apply sqrt_Rsqr_abs.
Qed.

Lemma X18_witness :
  let self := FlowField2D_init 0%nat None 2 (PI / 2) (-1, 1) (-1, 1) 2 2 in
  exists U V, FlowField2D_u {[ 0%nat := [] ]} self = Ok (VArray U)
    /\ FlowField2D_v {[ 0%nat := [] ]} self = Ok (VArray V)
    /\ cell U 0 0 = Some (Fin 0) /\ cell V 1 1 = Some (Fin 2).
Proof.
  intros self.
  destruct (X18_uniform_freestream {[ 0%nat := [] ]} self) as (U & V & Hu & Hv & _ & _ & HC);
    [reflexivity | cbn; lia | cbn; lia |].
  exists U, V. split; [exact Hu|]. split; [exact Hv|].
  destruct (HC 0%nat 0%nat) as (-> & _ & _); [cbn; lia | cbn; lia |].
  destruct (HC 1%nat 1%nat) as (_ & -> & _); [cbn; lia | cbn; lia |].
  unfold FlowField2D_freestream. cbn [uinf alpha self FlowField2D_init fst snd].
  rewrite cos_PI2, sin_PI2. split; do 2 f_equal; ring.
Defined.

Lemma grid_cells (self : FlowField2D) :
  (0 <= nx self)%Z -> (0 <= ny self)%Z ->
  exists X Y, FlowField2D_grid self = Ok (X, Y)
    /\ forall i j, (i < Z.to_nat (ny self))%nat -> (j < Z.to_nat (nx self))%nat ->
         cell X i j = Some (Fin (x_sample self j))
         /\ cell Y i j = Some (Fin (y_sample self i)).
Proof.
  intros Hx Hy.
  destruct (grid_shape self Hx Hy) as (X & Y & HG & _ & _ & _ & _ & HC).
  exists X, Y. split; [exact HG|]. intros i j Hi Hj.
  destruct (HC i j Hi Hj) as [-> ->].
  unfold x_samples, y_samples, x_sample, y_sample.
  rewrite !samples_sample by lia. split; reflexivity.
Qed.

(** X19.  The stream function and the velocity of a field without
    singularities agree: at every grid point the cell of [psi] is
    [u * y - v * x], with [x], [y] the cells of the grid and [u], [v] the
    cells of the velocity there, so that between any two grid points
    [psi] changes by [u * dy - v * dx]. *)
Theorem X19_freestream_psi_matches_velocity (h : gmap nat (list obj)) (self : FlowField2D) :
  deref h (points self) = [] ->
  (0 <= nx self)%Z -> (0 <= ny self)%Z ->
  exists X Y U V P,
    FlowField2D_grid self = Ok (X, Y)
    /\ FlowField2D_flow h self = Ok (VArray U, VArray V)
    /\ FlowField2D_psi h self = Ok (VArray P)
    /\ forall i j, (i < Z.to_nat (ny self))%nat -> (j < Z.to_nat (nx self))%nat ->
         exists x y u v p,
           cell X i j = Some (Fin x) /\ cell Y i j = Some (Fin y)
           /\ cell U i j = Some (Fin u) /\ cell V i j = Some (Fin v)
           /\ cell P i j = Some (Fin p)
           /\ p = u * y - v * x.
Proof.
  intros Hps Hx Hy.
  destruct (grid_cells self Hx Hy) as (X & Y & HG & HXY).
  destruct (flow_cells h self [] Hps Hx Hy) as (U & V & HF & _ & _ & HUV).
  destruct (psi_cells h self [] Hps (List.Forall_nil _) Hx Hy) as (P & HP & _ & HPc).
  exists X, Y, U, V, P. do 3 (split; [assumption|]). intros i j Hi Hj.
  destruct (HXY i j Hi Hj) as [Cx Cy]. destruct (HUV i j Hi Hj) as [Cu Cv].
  eexists _, _, _, _, _. split; [exact Cx|]. split; [exact Cy|].
  split; [exact Cu|]. split; [exact Cv|]. split; [apply HPc; assumption|]. ring.
Qed.

Lemma X19_witness :
  let self := FlowField2D_init 0%nat None 2 0 (-1, 1) (-1, 1) 2 2 in
  exists P, FlowField2D_psi {[ 0%nat := [] ]} self = Ok (VArray P)
    /\ exists p, cell P 1 1 = Some (Fin p) /\ p = 2.
Proof.
  intros self.
  destruct (X19_freestream_psi_matches_velocity {[ 0%nat := [] ]} self)
    as (X & Y & U & V & P & HG & HF & HP & HC);
    [reflexivity | cbn; lia | cbn; lia |].
  exists P. split; [exact HP|].
  destruct (HC 1%nat 1%nat) as (x & y & u & v & p & Cx & Cy & Cu & Cv & Cp & E);
    [cbn; lia | cbn; lia |].
  exists p. split; [exact Cp|].
  destruct (grid_cells self) as (X' & Y' & HG' & HXY); [cbn; lia | cbn; lia |].
  rewrite HG in HG'. injection HG' as <- <-.
  destruct (HXY 1%nat 1%nat) as [Cx' Cy']; [cbn; lia | cbn; lia |].
  destruct (flow_cells {[ 0%nat := [] ]} self []) as (U' & V' & HF' & _ & _ & HUV);
    [reflexivity | cbn; lia | cbn; lia |].
  rewrite HF in HF'. injection HF' as <- <-.
  destruct (HUV 1%nat 1%nat) as [Cu' Cv']; [cbn; lia | cbn; lia |].
  rewrite Cx in Cx'. rewrite Cy in Cy'. rewrite Cu in Cu'. rewrite Cv in Cv'.
  injection Cx' as ->. injection Cy' as ->. injection Cu' as ->. injection Cv' as ->.
  rewrite E. unfold x_sample, y_sample, sample.
  cbn [xlim ylim nx ny uinf alpha self FlowField2D_init fst snd Z.eqb Pos.eqb].
  change (IZR (2 - 1)) with 1. rewrite cos_0, sin_0. cbn [INR]. lra.
Defined.

(** ** Collections passed by the caller *)

Lemma alloc_fresh (h : gmap nat (list obj)) (l : list obj) :
  h !! snd (alloc h l) = None.
Proof.
  unfold alloc. cbn [snd]. apply not_elem_of_dom. apply is_fresh.
Qed.

Lemma alloc_other (h : gmap nat (list obj)) (l : list obj) (k : nat) :
  k <> snd (alloc h l) -> fst (alloc h l) !! k = h !! k.
Proof. intros H. unfold alloc in *. cbn [fst snd] in *. apply lookup_insert_ne. congruence. Qed.

(** X20.  [__init__] keeps the caller's list itself, not a copy: a field
    built on a list sees a singularity appended to that list afterwards,
    its collection being the old one followed by the new singularity.  Two
    fields built on two different list objects do not share: the append
    leaves the other field's collection, velocity and stream function as
    they were. *)
Theorem X20_collections_by_reference (h : gmap nat (list obj)) (xs ys : list obj) (o : obj)
    (defaults : nat) (uinf alpha : R) (xlim ylim : R * R) (nx ny : Z) :
  let h1 := fst (alloc h xs) in
  let la := snd (alloc h xs) in
  let h2 := fst (alloc h1 ys) in
  let lb := snd (alloc h1 ys) in
  let a := FlowField2D_init defaults (Some la) uinf alpha xlim ylim nx ny in
  let b := FlowField2D_init defaults (Some lb) uinf alpha xlim ylim nx ny in
  let h3 := list_append h2 la o in
  deref h2 (points a) = xs
  /\ deref h2 (points b) = ys
  /\ deref h3 (points a) = xs ++ [o]
  /\ deref h3 (points b) = ys
  /\ FlowField2D_flow h3 b = FlowField2D_flow h2 b
  /\ FlowField2D_psi h3 b = FlowField2D_psi h2 b.
Proof.
  intros h1 la h2 lb a b h3.
  assert (Hne : la <> lb).
  { intros E. pose proof (alloc_fresh h1 ys) as F. fold lb in F. rewrite <- E in F.
    pose proof (alloc_lookup h xs) as L. fold h1 la in L. congruence. }
  assert (Ha : h2 !! la = Some xs).
  { subst h2. rewrite alloc_other by exact Hne. apply alloc_lookup. }
  assert (Hb : h2 !! lb = Some ys) by apply alloc_lookup.
  assert (D3 : deref h3 (points b) = deref h2 (points b)).
  { apply deref_append_other. exact Hne. }
  split; [unfold deref; cbn [points a FlowField2D_init]; rewrite Ha; reflexivity|].
  split; [unfold deref; cbn [points b FlowField2D_init]; rewrite Hb; reflexivity|].
  split; [apply deref_append; exact Ha|].
  split; [rewrite D3; unfold deref; cbn [points b FlowField2D_init]; rewrite Hb; reflexivity|].
  unfold FlowField2D_flow, FlowField2D_psi. rewrite D3. split; reflexivity.
Qed.

(** * Drawing *)

(** ** Running statements *)

Lemma run_ret {A B} (a : A) (k : A -> io B) (w : world) : (mret a ≫= k) w = k a w.
Proof. reflexivity. Qed.

Lemma run_eval_ok {A B} (e : gmap nat (list obj) -> result A) (k : A -> io B)
    (w : world) (a : A) :
  e (w_heap w) = Ok a -> (eval e ≫= k) w = k a w.
Proof. intros H. unfold mbind, io_bind, eval. rewrite H. reflexivity. Qed.

Lemma run_eval_raise {A B} (e : gmap nat (list obj) -> result A) (k : A -> io B)
    (w : world) (x : exn) :
  e (w_heap w) = Raise x -> (eval e ≫= k) w = (w, Raise x).
Proof. intros H. unfold mbind, io_bind, eval. rewrite H. reflexivity. Qed.

Lemma run_emit {B} (c : call) (k : unit -> io B) (w : world) :
  (emit c ≫= k) w = k tt (mk_world (w_heap w) (w_trace w ++ [c])).
Proof. reflexivity. Qed.

Lemma run_assoc {A B C} (m : io A) (f : A -> io B) (g : B -> io C) (w : world) :
  ((m ≫= f) ≫= g) w = (m ≫= (fun a => f a ≫= g)) w.
Proof. unfold mbind, io_bind. destruct (m w) as [w' [a|e]]; reflexivity. Qed.

Lemma world_eta (w : world) : mk_world (w_heap w) (w_trace w ++ []) = w.
Proof. destruct w as [h t]. cbn. rewrite app_nil_r. reflexivity. Qed.

Lemma run_emit_if {B} (b : bool) (c : call) (k : unit -> io B) (w : world) :
  ((if b then emit c else mret tt) ≫= k) w
  = k tt (mk_world (w_heap w) (w_trace w ++ if b then [c] else [])).
Proof. destruct b; [apply run_emit | rewrite world_eta; reflexivity]. Qed.

Lemma run_emit_truthy {B} (o : option string) (f : string -> call) (k : unit -> io B)
    (w : world) :
  (match truthy o with Some s => emit (f s) | None => mret tt end ≫= k) w
  = k tt (mk_world (w_heap w)
            (w_trace w ++ match truthy o with Some s => [f s] | None => [] end)).
Proof. destruct (truthy o); [apply run_emit | rewrite world_eta; reflexivity]. Qed.

(** ** The markers *)

Lemma build_x (s : singularity) : (build s).@"x" = Ok (VFloat (Fin (s_x s))).
Proof. destruct s as [[] x y m c]; unfold build, make; cbn [s_class s_x s_y s_strength s_color]; attr. Qed.

Lemma build_y (s : singularity) : (build s).@"y" = Ok (VFloat (Fin (s_y s))).
Proof. destruct s as [[] x y m c]; unfold build, make; cbn [s_class s_x s_y s_strength s_color]; attr. Qed.

Lemma build_default_color (s : singularity) :
  (build s).@"default_color" = Ok (VStr (s_color s)).
Proof. destruct s as [[] x y m c]; unfold build, make; cbn [s_class s_x s_y s_strength s_color]; attr. Qed.

Lemma plot_points_build {B} (ax : Axes) (ss : list singularity) (k : unit -> io B)
    (w : world) :
  (plot_points ax (map build ss) ≫= k) w
  = k tt (mk_world (w_heap w)
            (w_trace w
             ++ map (fun s => axes_plot ax (VFloat (Fin (s_x s))) (VFloat (Fin (s_y s)))
                                (VStr (s_color s)) "o") ss)).
Proof.
  revert w. induction ss as [|s ss IH]; intros w; cbn [map plot_points].
  - rewrite run_ret, world_eta. reflexivity.
  - rewrite run_assoc, (run_eval_ok _ _ _ _ (build_x s)).
    rewrite run_assoc, (run_eval_ok _ _ _ _ (build_y s)).
    rewrite run_assoc, (run_eval_ok _ _ _ _ (build_default_color s)).
    rewrite run_assoc, run_emit, IH. cbn [w_heap w_trace].
    rewrite <- app_assoc. reflexivity.
Qed.

(** ** [plot_streamlines] *)

Lemma plot_streamlines_drawn (self : FlowField2D) (a : plot_args) (w : world)
    (X Y U V : ndarray) :
  FlowField2D_grid self = Ok (X, Y) ->
  FlowField2D_flow (w_heap w) self = Ok (VArray U, VArray V) ->
  let ax := match axes a with Some ax => ax | None => subplot_axes 111 end in
  plot_streamlines self a w
  = ((if show_divide a then
        x ← eval (fun _ => FlowField2D_x self);
        y ← eval (fun _ => FlowField2D_y self);
        psi ← eval (fun h => FlowField2D_psi h self);
        emit (contour ax x y psi [0] (divide_linecolor a) (divide_linewidth a))
      else mret tt);;
     (if show_points a then
        points ← eval (fun h => Ok (deref h (points self)));
        plot_points ax points
      else mret tt);;
     (if scaled a then emit (axes_axis ax "scaled") else mret tt);;
     mret ax)
      (mk_world (w_heap w) (w_trace w ++ drawn self a ax X Y U V)).
Proof.
  intros HG HF ax.
  pose proof (self_x self X Y HG) as Hx. pose proof (self_y self X Y HG) as Hy.
  destruct (flow_fst_snd _ _ _ _ HF) as [Hu Hv].
  unfold plot_streamlines, drawn.
  assert (E : forall B (k : Axes -> io B),
            (match axes a with
             | Some ax => mret ax
             | None => emit (plt_subplot 111);; mret (subplot_axes 111)
             end ≫= k) w
            = k ax (mk_world (w_heap w)
                      (w_trace w ++ match axes a with Some _ => [] | None => [plt_subplot 111] end))).
  { intros B k. subst ax. destruct (axes a) as [ax|].
    - rewrite run_ret, world_eta. reflexivity.
    - rewrite run_assoc, run_emit, run_ret. reflexivity. }
  rewrite E. clear E.
  rewrite (run_eval_ok (fun _ => FlowField2D_x self) _ _ _ Hx).
  rewrite (run_eval_ok (fun _ => FlowField2D_y self) _ _ _ Hy).
  rewrite (run_eval_ok (fun h => FlowField2D_u h self) _ (mk_world (w_heap w) _) _ Hu).
  rewrite (run_eval_ok (fun h => FlowField2D_v h self) _ (mk_world (w_heap w) _) _ Hv).
  rewrite run_emit, run_emit_truthy, run_emit_truthy, run_emit_truthy, run_emit_if.
  rewrite run_emit, run_emit. cbn [w_heap w_trace].
  rewrite <- !app_assoc. reflexivity.
Qed.

Lemma psi_first_unsupported (h : gmap nat (list obj)) (self : FlowField2D)
    (ds : list singularity) (s : singularity) (rest : list singularity) :
  deref h (points self) = map build (ds ++ s :: rest) ->
  Forall (fun d => s_class d = PointDoublet) ds ->
  (0 <= nx self)%Z -> (0 <= ny self)%Z ->
  (s_class s = PointSource -> FlowField2D_psi h self = Raise (AttributeError "yrel"))
  /\ (s_class s = PointVortex ->
      (Z.to_nat (ny self) * Z.to_nat (nx self) <> 1)%nat ->
      FlowField2D_psi h self = Raise TypeError).
Proof.
  intros Hps Hd Hx Hy.
  destruct (grid_shape self Hx Hy) as (X & Y & HG & HX & HY & LX & LY & _).
  assert (HS : shape X = shape Y) by congruence.
  assert (HL : length (data X) = length (data Y)) by congruence.
  destruct (psi_freestream self X Y HG HS HL) as (P0 & H0 & HS0 & HL0 & _).
  unfold FlowField2D_psi. rewrite H0, bind_Ok, Hps. split.
  - intros Hc. apply (psi_loop_first_unsupported self X Y); try assumption.
    apply compute_psi_source, Hc.
  - intros Hc H1. apply (psi_loop_first_unsupported self X Y); try assumption.
    apply compute_psi_vortex; try assumption. congruence.
Qed.

Lemma plot_streamlines_tail (self : FlowField2D) (a : plot_args) (ax : Axes)
    (ss : list singularity) (w : world) :
  deref (w_heap w) (points self) = map build ss ->
  ((if show_points a then
      points ← eval (fun h => Ok (deref h (points self)));
      plot_points ax points
    else mret tt);;
   (if scaled a then emit (axes_axis ax "scaled") else mret tt);;
   mret ax) w
  = (mk_world (w_heap w)
       (w_trace w
        ++ (if show_points a
            then map (fun s => axes_plot ax (VFloat (Fin (s_x s))) (VFloat (Fin (s_y s)))
                                 (VStr (s_color s)) "o") ss
            else [])
        ++ (if scaled a then [axes_axis ax "scaled"] else [])),
     Ok ax).
Proof.
  intros Hps.
  assert (E : forall B (k : unit -> io B),
            ((if show_points a then
                points ← eval (fun h => Ok (deref h (points self)));
                plot_points ax points
              else mret tt) ≫= k) w
            = k tt (mk_world (w_heap w)
                      (w_trace w
                       ++ (if show_points a
                           then map (fun s => axes_plot ax (VFloat (Fin (s_x s)))
                                                (VFloat (Fin (s_y s)))
                                                (VStr (s_color s)) "o") ss
                           else [])))).
  { intros B k. destruct (show_points a).
    - rewrite run_assoc.
      rewrite (run_eval_ok (fun h => Ok (deref h (points self))) _ _ _ eq_refl).
      rewrite Hps. apply plot_points_build.
    - rewrite run_ret, world_eta. reflexivity. }
  rewrite E, run_emit_if. cbn [w_heap w_trace].
  rewrite <- !app_assoc. reflexivity.
Qed.

Lemma plot_streamlines_returns (self : FlowField2D) (a : plot_args) (w : world)
    (ss : list singularity) :
  deref (w_heap w) (points self) = map build ss ->
  (0 <= nx self)%Z -> (0 <= ny self)%Z ->
  (show_divide a = true -> Forall (fun s => s_class s = PointDoublet) ss) ->
  let ax := match axes a with Some ax => ax | None => subplot_axes 111 end in
  exists X Y U V divide,
    FlowField2D_grid self = Ok (X, Y)
    /\ FlowField2D_flow (w_heap w) self = Ok (VArray U, VArray V)
    /\ (if show_divide a
        then exists P, FlowField2D_psi (w_heap w) self = Ok (VArray P)
               /\ divide = [contour ax (VArray X) (VArray Y) (VArray P) [0]
                              (divide_linecolor a) (divide_linewidth a)]
        else divide = [])
    /\ plot_streamlines self a w
       = (mk_world (w_heap w)
            (w_trace w
             ++ drawn self a ax X Y U V
             ++ divide
             ++ (if show_points a
                 then map (fun s => axes_plot ax (VFloat (Fin (s_x s)))
                                      (VFloat (Fin (s_y s))) (VStr (s_color s)) "o") ss
                 else [])
             ++ (if scaled a then [axes_axis ax "scaled"] else [])),
          Ok ax).
Proof.
  intros Hps Hx Hy Hd ax.
  destruct (grid_shape self Hx Hy) as (X & Y & HG & _).
  destruct (flow_cells (w_heap w) self ss Hps Hx Hy) as (U & V & HF & _).
  rewrite (plot_streamlines_drawn self a w X Y U V HG HF). fold ax.
  destruct (show_divide a) eqn:Hsd.
  - destruct (psi_cells (w_heap w) self ss Hps (Hd eq_refl) Hx Hy) as (P & HP & _).
    exists X, Y, U, V, [contour ax (VArray X) (VArray Y) (VArray P) [0]
                          (divide_linecolor a) (divide_linewidth a)].
    split; [exact HG|]. split; [exact HF|]. split; [exists P; split; [exact HP | reflexivity]|].
    rewrite run_assoc.
    rewrite (run_eval_ok (fun _ => FlowField2D_x self) _ _ _ (self_x self X Y HG)).
    rewrite run_assoc.
    rewrite (run_eval_ok (fun _ => FlowField2D_y self) _ _ _ (self_y self X Y HG)).
    rewrite run_assoc.
    rewrite (run_eval_ok (fun h => FlowField2D_psi h self) _ (mk_world (w_heap w) _) _ HP).
    rewrite run_emit.
    rewrite (plot_streamlines_tail self a ax ss) by exact Hps.
    cbn [w_heap w_trace]. rewrite <- !app_assoc. reflexivity.
  - exists X, Y, U, V, []. split; [exact HG|]. split; [exact HF|]. split; [reflexivity|].
    rewrite run_ret.
    rewrite (plot_streamlines_tail self a ax ss) by exact Hps.
    cbn [w_heap w_trace app]. rewrite <- !app_assoc. reflexivity.
Qed.

Lemma plot_streamlines_divide_raises (self : FlowField2D) (a : plot_args) (w : world)
    (ss : list singularity) (e : exn) :
  deref (w_heap w) (points self) = map build ss ->
  (0 <= nx self)%Z -> (0 <= ny self)%Z ->
  show_divide a = true ->
  FlowField2D_psi (w_heap w) self = Raise e ->
  let ax := match axes a with Some ax => ax | None => subplot_axes 111 end in
  exists X Y U V,
    FlowField2D_grid self = Ok (X, Y)
    /\ FlowField2D_flow (w_heap w) self = Ok (VArray U, VArray V)
    /\ plot_streamlines self a w
       = (mk_world (w_heap w) (w_trace w ++ drawn self a ax X Y U V), Raise e).
Proof.
  intros Hps Hx Hy Hsd HP ax.
  destruct (grid_shape self Hx Hy) as (X & Y & HG & _).
  destruct (flow_cells (w_heap w) self ss Hps Hx Hy) as (U & V & HF & _).
  exists X, Y, U, V. split; [exact HG|]. split; [exact HF|].
  rewrite (plot_streamlines_drawn self a w X Y U V HG HF). fold ax. rewrite Hsd.
  rewrite run_assoc.
  rewrite (run_eval_ok (fun _ => FlowField2D_x self) _ _ _ (self_x self X Y HG)).
  rewrite run_assoc.
  rewrite (run_eval_ok (fun _ => FlowField2D_y self) _ _ _ (self_y self X Y HG)).
  rewrite run_assoc.
  rewrite (run_eval_raise (fun h => FlowField2D_psi h self) _ (mk_world (w_heap w) _) _ HP).
  reflexivity.
Qed.

Lemma plot_streamlines_negative (self : FlowField2D) (a : plot_args) (w : world) :
  (nx self < 0)%Z \/ (ny self < 0)%Z ->
  plot_streamlines self a w
  = (mk_world (w_heap w)
       (w_trace w ++ match axes a with Some _ => [] | None => [plt_subplot 111] end),
     Raise ValueError).
Proof.
  intros H.
  assert (Hx : FlowField2D_x self = Raise ValueError).
  { unfold FlowField2D_x. rewrite grid_raises by exact H. reflexivity. }
  unfold plot_streamlines. destruct (axes a) as [ax|].
  - rewrite run_ret, (run_eval_raise (fun _ => FlowField2D_x self) _ _ _ Hx), world_eta.
    reflexivity.
  - rewrite run_assoc, run_emit, run_ret.
    rewrite (run_eval_raise (fun _ => FlowField2D_x self) _ _ _ Hx). reflexivity.
Qed.

(** X21.  [plot_streamlines] on a field of constructed singularities with
    non-negative counts returns the axes, provided the matplotlib calls
    return; with [show_divide] false the stream function is never evaluated,
    so sources and vortices are drawn as well, and with [show_divide] true
    every singularity has to be a doublet.  The calls are, in this order:
    [plt.subplot(111)] when no axes were given, [streamplot] with the grid
    and the velocity, the title and labels that are not empty, [grid],
    [set_xlim], [set_ylim], the [contour] of the stream function at level 0
    when [show_divide] is true, one marker per singularity in the order of
    the collection, at its position and in its colour, when [show_points]
    is true, and [axis('scaled')] when [scaled] is true. *)
Theorem X21_plot_streamlines_returns (self : FlowField2D) (a : plot_args) (w : world)
    (ss : list singularity) :
  deref (w_heap w) (points self) = map build ss ->
  (0 <= nx self)%Z -> (0 <= ny self)%Z ->
  (show_divide a = true -> Forall (fun s => s_class s = PointDoublet) ss) ->
  let ax := match axes a with Some ax => ax | None => subplot_axes 111 end in
  exists X Y U V divide,
    FlowField2D_grid self = Ok (X, Y)
    /\ FlowField2D_flow (w_heap w) self = Ok (VArray U, VArray V)
    /\ (if show_divide a
        then exists P, FlowField2D_psi (w_heap w) self = Ok (VArray P)
               /\ divide = [contour ax (VArray X) (VArray Y) (VArray P) [0]
                              (divide_linecolor a) (divide_linewidth a)]
        else divide = [])
    /\ plot_streamlines self a w
       = (mk_world (w_heap w)
            (w_trace w
             ++ match axes a with Some _ => [] | None => [plt_subplot 111] end
             ++ [streamplot ax (VArray X) (VArray Y) (VArray U) (VArray V)
                   (density a) (linewidth a) (arrowsize a) (arrowstyle a)]
             ++ match truthy (title a) with Some s => [set_title ax s] | None => [] end
             ++ match truthy (xlabel a) with Some s => [set_xlabel ax s] | None => [] end
             ++ match truthy (ylabel a) with Some s => [set_ylabel ax s] | None => [] end
             ++ (if grid a then [axes_grid ax] else [])
             ++ [set_xlim ax (xlim self); set_ylim ax (ylim self)]
             ++ divide
             ++ (if show_points a
                 then map (fun s => axes_plot ax (VFloat (Fin (s_x s)))
                                      (VFloat (Fin (s_y s))) (VStr (s_color s)) "o") ss
                 else [])
             ++ (if scaled a then [axes_axis ax "scaled"] else [])),
          Ok ax).
Proof.
  intros Hps Hx Hy Hd ax.
  destruct (plot_streamlines_returns self a w ss Hps Hx Hy Hd)
    as (X & Y & U & V & divide & HG & HF & HD & HR).
  exists X, Y, U, V, divide. do 3 (split; [assumption|]).
  rewrite HR. unfold drawn. fold ax. rewrite <- !app_assoc. reflexivity.
Qed.

Lemma X21_witness :
  exists t, plot_streamlines centre_field default_args (mk_world centre_heap [])
            = (mk_world centre_heap t, Ok (subplot_axes 111))
    /\ last t = Some (axes_axis (subplot_axes 111) "scaled")
    /\ In (axes_plot (subplot_axes 111) (VFloat (Fin 0)) (VFloat (Fin 0)) (VStr "c") "o") t.
Proof.
  destruct (X21_plot_streamlines_returns centre_field default_args
              (mk_world centre_heap []) [centre_vortex])
    as (X & Y & U & V & divide & HG & HF & HD & HR);
    [apply centre_points | cbn; lia | cbn; lia | discriminate |].
  cbn [show_divide default_args] in HD. subst divide.
  eexists. split; [exact HR|].
  cbn. split; [reflexivity|]. do 7 right. left. reflexivity.
Defined.

(** X22.  With [show_divide] true the stream function is evaluated only
    after the streamlines, labels and limits have been drawn.  When the
    first singularity that is not a doublet is a source the method raises
    [AttributeError], when it is a vortex (on a grid of more or fewer than
    one point) [TypeError]: the calls up to [set_ylim] have been made, and
    no contour, no marker and no [axis('scaled')] follows; nothing is
    returned. *)
Theorem X22_divide_line_cuts_the_plot_short (self : FlowField2D) (a : plot_args) (w : world)
    (ds : list singularity) (s : singularity) (rest : list singularity) :
  deref (w_heap w) (points self) = map build (ds ++ s :: rest) ->
  Forall (fun d => s_class d = PointDoublet) ds ->
  (0 <= nx self)%Z -> (0 <= ny self)%Z ->
  show_divide a = true ->
  let ax := match axes a with Some ax => ax | None => subplot_axes 111 end in
  exists X Y U V,
    FlowField2D_grid self = Ok (X, Y)
    /\ FlowField2D_flow (w_heap w) self = Ok (VArray U, VArray V)
    /\ let cut :=
         mk_world (w_heap w)
           (w_trace w
            ++ match axes a with Some _ => [] | None => [plt_subplot 111] end
            ++ [streamplot ax (VArray X) (VArray Y) (VArray U) (VArray V)
                  (density a) (linewidth a) (arrowsize a) (arrowstyle a)]
            ++ match truthy (title a) with Some s => [set_title ax s] | None => [] end
            ++ match truthy (xlabel a) with Some s => [set_xlabel ax s] | None => [] end
            ++ match truthy (ylabel a) with Some s => [set_ylabel ax s] | None => [] end
            ++ (if grid a then [axes_grid ax] else [])
            ++ [set_xlim ax (xlim self); set_ylim ax (ylim self)]) in
       (s_class s = PointSource ->
        plot_streamlines self a w = (cut, Raise (AttributeError "yrel")))
       /\ (s_class s = PointVortex ->
           (Z.to_nat (ny self) * Z.to_nat (nx self) <> 1)%nat ->
           plot_streamlines self a w = (cut, Raise TypeError)).
Proof.
  intros Hps Hd Hx Hy Hsd ax.
  destruct (psi_first_unsupported (w_heap w) self ds s rest Hps Hd Hx Hy) as [Hs Hv].
  destruct (grid_shape self Hx Hy) as (X & Y & HG & _).
  destruct (flow_cells (w_heap w) self _ Hps Hx Hy) as (U & V & HF & _).
  exists X, Y, U, V. split; [exact HG|]. split; [exact HF|].
  assert (G : forall e, FlowField2D_psi (w_heap w) self = Raise e ->
            plot_streamlines self a w
            = (mk_world (w_heap w) (w_trace w ++ drawn self a ax X Y U V), Raise e)).
  { intros e He.
    destruct (plot_streamlines_divide_raises self a w _ e Hps Hx Hy Hsd He)
      as (X' & Y' & U' & V' & HG' & HF' & HR).
    rewrite HG in HG'. injection HG' as <- <-. rewrite HF in HF'. injection HF' as <- <-.
    exact HR. }
  unfold drawn in G. fold ax in G. split.
  - intros Hc. apply G, Hs, Hc.
  - intros Hc H1. apply G, Hv; assumption.
Qed.

Lemma X22_witness :
  exists t, plot_streamlines centre_field
              (mk_plot_args 1 "->" None 1 "r" 2 true 1 true true true None (Some "x") (Some "y"))
              (mk_world centre_heap [])
            = (mk_world centre_heap t, Raise TypeError)
    /\ last t = Some (set_ylim (subplot_axes 111) (-1, 1)).
Proof.
  destruct (X22_divide_line_cuts_the_plot_short centre_field
              (mk_plot_args 1 "->" None 1 "r" 2 true 1 true true true None (Some "x") (Some "y"))
              (mk_world centre_heap []) [] centre_vortex [])
    as (X & Y & U & V & HG & HF & _ & HV);
    [apply centre_points | constructor | cbn; lia | cbn; lia | reflexivity |].
  eexists. split; [apply HV; [reflexivity | cbn; lia]|]. reflexivity.
Defined.

(** X23.  With a negative [nx] or [ny] nothing is drawn: the grid is the
    first thing [plot_streamlines] evaluates, [linspace] raises
    [ValueError], and the only matplotlib call made before that is
    [plt.subplot(111)], when no axes were passed in. *)
Theorem X23_nothing_drawn_on_negative_counts (self : FlowField2D) (a : plot_args)
    (w : world) :
  (nx self < 0)%Z \/ (ny self < 0)%Z ->
  plot_streamlines self a w
  = (mk_world (w_heap w)
       (w_trace w ++ match axes a with Some _ => [] | None => [plt_subplot 111] end),
     Raise ValueError).
Proof. apply plot_streamlines_negative. Qed.

Lemma X23_witness :
  plot_streamlines (FlowField2D_init 1%nat (Some 0%nat) 0 0 (-1, 1) (-1, 1) (-3) 3)
    default_args (mk_world centre_heap [])
  = (mk_world centre_heap [plt_subplot 111], Raise ValueError).
Proof.
  apply (X23_nothing_drawn_on_negative_counts
           (FlowField2D_init 1%nat (Some 0%nat) 0 0 (-1, 1) (-1, 1) (-3) 3)
           default_args (mk_world centre_heap [])).
  left. cbn. lia.
Defined.

(** ** The examples *)

Lemma run_new_list {B} (l : list obj) (k : nat -> io B) (w : world) :
  (new_list l ≫= k) w
  = k (snd (alloc (w_heap w) l)) (mk_world (fst (alloc (w_heap w) l)) (w_trace w)).
Proof. reflexivity. Qed.

Lemma deref_alloc (h : gmap nat (list obj)) (l : list obj) :
  deref (fst (alloc h l)) (snd (alloc h l)) = l.
Proof. unfold deref. rewrite alloc_lookup. reflexivity. Qed.

Lemma reals_Fin (shp : list nat) (l : list R) : reals (mk_ndarray shp (map Fin l)) = l.
Proof.
  unfold reals. cbn [data]. induction l as [|r l IH]; [reflexivity|].
  cbn [map flat_map app]. rewrite IH. reflexivity.
Qed.

(** A field on a new list of constructed singularities, drawn with the
    default labels and shown. *)
Lemma example_completes (ss : list singularity) (field : nat -> FlowField2D)
    (divide : bool) (w : world) :
  (forall l, points (field l) = l) ->
  (forall l, (0 <= nx (field l))%Z /\ (0 <= ny (field l))%Z) ->
  (divide = true -> Forall (fun s => s_class s = PointDoublet) ss) ->
  let ax := subplot_axes 111 in
  let h' := fst (alloc (w_heap w) (map build ss)) in
  let self := field (snd (alloc (w_heap w) (map build ss))) in
  exists X Y U V calls,
    FlowField2D_grid self = Ok (X, Y)
    /\ FlowField2D_flow h' self = Ok (VArray U, VArray V)
    /\ (if divide
        then exists P, FlowField2D_psi h' self = Ok (VArray P)
               /\ calls = [contour ax (VArray X) (VArray Y) (VArray P) [0] "r" 2]
        else calls = [])
    /\ (l ← new_list (map build ss);
        plot_streamlines (field l)
          (mk_plot_args 1 "->" None 1 "r" 2 true 1 true divide true None
             (Some "x") (Some "y"));;
        emit plt_show) w
       = (mk_world h'
            (w_trace w
             ++ [plt_subplot 111;
                 streamplot ax (VArray X) (VArray Y) (VArray U) (VArray V) 1 1 1 "->";
                 set_xlabel ax "x"; set_ylabel ax "y"; axes_grid ax;
                 set_xlim ax (xlim self); set_ylim ax (ylim self)]
             ++ calls
             ++ map (fun s => axes_plot ax (VFloat (Fin (s_x s))) (VFloat (Fin (s_y s)))
                                (VStr (s_color s)) "o") ss
             ++ [axes_axis ax "scaled"; plt_show]),
          Ok tt).
Proof.
  intros Hp Hn Hd ax h' self.
  destruct (Hn (snd (alloc (w_heap w) (map build ss)))) as [Hx Hy]. fold self in Hx, Hy.
  destruct (plot_streamlines_returns self
              (mk_plot_args 1 "->" None 1 "r" 2 true 1 true divide true None
                 (Some "x") (Some "y"))
              (mk_world h' (w_trace w)) ss)
    as (X & Y & U & V & calls & HG & HF & HD & HR);
    [cbn [w_heap]; unfold self; rewrite Hp; apply deref_alloc
    | exact Hx | exact Hy | exact Hd |].
  cbn [w_heap w_trace show_divide axes divide_linecolor divide_linewidth] in HF, HD, HR.
  exists X, Y, U, V, calls. split; [exact HG|]. split; [exact HF|]. split; [exact HD|].
  rewrite run_new_list. fold self h'.
  unfold mbind at 1. unfold io_bind. rewrite HR.
  unfold emit, drawn. cbn. rewrite <- !app_assoc. cbn [app]. rewrite <- !app_assoc.
  reflexivity.
Qed.

(** X24.  Five of the six examples run to the end, provided the
    matplotlib calls return: [doublet], [rankine], [source], [vortex] and
    [vortex_sheet] each build one new list of singularities, draw the
    streamlines of their field on [plt.subplot(111)] with the labels x and
    y, the grid and the limits of the field, mark every singularity (one
    doublet; the source and the sink; one source; one vortex; the twenty
    vortices of the sheet) and end with [plt.show()].  Only [doublet] asks
    for the dividing streamline, and its field holds a doublet alone, so
    its contour is drawn; the other four never evaluate the stream
    function. *)
Theorem X24_examples_complete (defaults : nat) (w : world) :
  let ax := subplot_axes 111 in
  let shown (example : io unit) (ss : list singularity) (field : nat -> FlowField2D)
      (divide : bool) :=
    let h' := fst (alloc (w_heap w) (map build ss)) in
    let self := field (snd (alloc (w_heap w) (map build ss))) in
    exists X Y U V calls,
      FlowField2D_grid self = Ok (X, Y)
      /\ FlowField2D_flow h' self = Ok (VArray U, VArray V)
      /\ (if divide
          then exists P, FlowField2D_psi h' self = Ok (VArray P)
                 /\ calls = [contour ax (VArray X) (VArray Y) (VArray P) [0] "r" 2]
          else calls = [])
      /\ example w
         = (mk_world h'
              (w_trace w
               ++ [plt_subplot 111;
                   streamplot ax (VArray X) (VArray Y) (VArray U) (VArray V) 1 1 1 "->";
                   set_xlabel ax "x"; set_ylabel ax "y"; axes_grid ax;
                   set_xlim ax (xlim self); set_ylim ax (ylim self)]
               ++ calls
               ++ map (fun s => axes_plot ax (VFloat (Fin (s_x s))) (VFloat (Fin (s_y s)))
                                  (VStr (s_color s)) "o") ss
               ++ [axes_axis ax "scaled"; plt_show]),
            Ok tt) in
  shown (ex_potential_2d.doublet defaults)
    [mk_singularity PointDoublet 0 0 1 "g"]
    (fun l => FlowField2D_init defaults (Some l) 1 0 (-1, 1) (-1, 1) 300 300) true
  /\ shown (ex_potential_2d.rankine defaults)
       [mk_singularity PointSource 0 0 1 "r"; mk_singularity PointSource 1 0 (-1) "r"]
       (fun l => FlowField2D_init defaults (Some l) 0 0 (-1, 2) (-1, 1) 100 100) false
  /\ shown (ex_potential_2d.source defaults)
       [mk_singularity PointSource 0 0 1 "r"]
       (fun l => FlowField2D_init defaults (Some l) 0 0 (-1, 1) (-1, 1) 100 100) false
  /\ shown (ex_potential_2d.vortex defaults)
       [mk_singularity PointVortex 0 0 1 "c"]
       (fun l => FlowField2D_init defaults (Some l) 0 0 (-1, 1) (-1, 1) 100 100) false
  /\ shown (ex_potential_2d.vortex_sheet defaults)
       (map (fun xi => mk_singularity PointVortex xi 0 1 "c") (samples (-1) 1 20))
       (fun l => FlowField2D_init defaults (Some l) 0 0 (-1, 1) (-1, 1) 100 100) false.
Proof.
  intros ax shown. subst shown. cbv beta.
  assert (N : forall (u al : R) (xl yl : R * R) (n m : Z), (0 <= n)%Z -> (0 <= m)%Z ->
            forall l : nat,
              (0 <= nx (FlowField2D_init defaults (Some l) u al xl yl n m))%Z
              /\ (0 <= ny (FlowField2D_init defaults (Some l) u al xl yl n m))%Z)
    by (intros; split; assumption).
  split; [|split; [|split; [|split]]].
  - apply (example_completes [mk_singularity PointDoublet 0 0 1 "g"]
             (fun l => FlowField2D_init defaults (Some l) 1 0 (-1, 1) (-1, 1) 300 300) true w);
      [reflexivity | apply N; lia | repeat constructor].
  - apply (example_completes
             [mk_singularity PointSource 0 0 1 "r"; mk_singularity PointSource 1 0 (-1) "r"]
             (fun l => FlowField2D_init defaults (Some l) 0 0 (-1, 2) (-1, 1) 100 100) false w);
      [reflexivity | apply N; lia | discriminate].
  - apply (example_completes [mk_singularity PointSource 0 0 1 "r"]
             (fun l => FlowField2D_init defaults (Some l) 0 0 (-1, 1) (-1, 1) 100 100) false w);
      [reflexivity | apply N; lia | discriminate].
  - apply (example_completes [mk_singularity PointVortex 0 0 1 "c"]
             (fun l => FlowField2D_init defaults (Some l) 0 0 (-1, 1) (-1, 1) 100 100) false w);
      [reflexivity | apply N; lia | discriminate].
  - unfold ex_potential_2d.vortex_sheet.
    rewrite (run_eval_ok (fun _ => linspace (-1) 1 20) _ _ _ (linspace_ok (-1) 1 20 ltac:(lia))).
    rewrite reals_Fin.
    replace (map (fun xi => PointVortex_init xi 0 1 "c") (samples (-1) 1 20))
      with (map build (map (fun xi => mk_singularity PointVortex xi 0 1 "c")
                         (samples (-1) 1 20)))
      by (rewrite map_map; reflexivity).
    apply (example_completes
             (map (fun xi => mk_singularity PointVortex xi 0 1 "c") (samples (-1) 1 20))
             (fun l => FlowField2D_init defaults (Some l) 0 0 (-1, 1) (-1, 1) 100 100) false w);
      [reflexivity | apply N; lia | discriminate].
Qed.

(** X25.  The [simple_freestream] example cannot complete: it asks for the
    dividing streamline of a field that holds a source, so after the
    streamlines, the labels, the grid and the limits have been drawn the
    stream function raises [AttributeError] (for [yrel]); no marker is
    drawn and [plt.show()] is never reached. *)
Theorem X25_simple_freestream_raises (defaults : nat) (w : world) :
  let ax := subplot_axes 111 in
  let sources := [PointSource_init 0 0 1 "r"; PointSource_init 1 0 (-1) "r"] in
  let h' := fst (alloc (w_heap w) sources) in
  let self := FlowField2D_init defaults (Some (snd (alloc (w_heap w) sources)))
                1 0 (-1, 2) (-1, 1) 200 200 in
  exists X Y U V,
    FlowField2D_grid self = Ok (X, Y)
    /\ FlowField2D_flow h' self = Ok (VArray U, VArray V)
    /\ ex_potential_2d.simple_freestream defaults w
       = (mk_world h'
            (w_trace w
             ++ [plt_subplot 111;
                 streamplot ax (VArray X) (VArray Y) (VArray U) (VArray V) 1 1 1 "->";
                 set_xlabel ax "x"; set_ylabel ax "y"; axes_grid ax;
                 set_xlim ax (-1, 2); set_ylim ax (-1, 1)]),
          Raise (AttributeError "yrel")).
Proof.
  intros ax sources h' self.
  pose (ss := [mk_singularity PointSource 0 0 1 "r"; mk_singularity PointSource 1 0 (-1) "r"]).
  assert (Hps : deref h' (points self) = map build ss) by apply deref_alloc.
  destruct (psi_first_unsupported h' self [] (mk_singularity PointSource 0 0 1 "r")
              [mk_singularity PointSource 1 0 (-1) "r"] Hps)
    as [HP _]; [constructor | cbn; lia | cbn; lia |].
  destruct (plot_streamlines_divide_raises self
              (mk_plot_args 1 "->" None 1 "r" 2 true 1 true true true None
                 (Some "x") (Some "y"))
              (mk_world h' (w_trace w)) ss (AttributeError "yrel"))
    as (X & Y & U & V & HG & HF & HR);
    [exact Hps | cbn; lia | cbn; lia | reflexivity | apply HP; reflexivity |].
  exists X, Y, U, V. split; [exact HG|]. split; [exact HF|].
  unfold ex_potential_2d.simple_freestream. rewrite run_new_list.
  fold sources h' self. unfold mbind at 1. unfold io_bind. rewrite HR. reflexivity.
Qed.

(** ** The loop over the examples *)






(** ** The vortex: velocity and stream function together *)

(** The derivative of [k * ln (c + (t - t0)^2)] in [t]. *)
Lemma log_distance_derivative (k c t0 t : R) :
  0 < c + (t - t0) * (t - t0) ->
  derivable_pt_lim (fun b => k * ln (c + (b - t0) * (b - t0))) t
    (k * 2 * (t - t0) / (c + (t - t0) * (t - t0))).
Proof.
  intros Hpos.
  pose (q := plus_fct (fct_cte c)
              (mult_fct (minus_fct Ranalysis1.id (fct_cte t0))
                        (minus_fct Ranalysis1.id (fct_cte t0)))).
  assert (D1 : derivable_pt_lim (minus_fct Ranalysis1.id (fct_cte t0)) t (1 - 0))
    by (apply derivable_pt_lim_minus;
        [apply derivable_pt_lim_id | apply derivable_pt_lim_const]).
  pose proof (derivable_pt_lim_plus _ _ t _ _ (derivable_pt_lim_const c t)
                (derivable_pt_lim_mult _ _ t _ _ D1 D1)) as Hq.
  fold q in Hq.
  assert (Hl : derivable_pt_lim ln (q t) (/ q t)) by (apply derivable_pt_lim_ln; exact Hpos).
  pose proof (derivable_pt_lim_scal _ k _ _ (derivable_pt_lim_comp _ _ _ _ _ Hq Hl)) as D.
  replace (k * 2 * (t - t0) / (c + (t - t0) * (t - t0)))
    with (k * (/ q t * (0 + ((1 - 0) * minus_fct Ranalysis1.id (fct_cte t0) t
                             + minus_fct Ranalysis1.id (fct_cte t0) t * (1 - 0))))).
  - exact D.
  - unfold q, plus_fct, mult_fct, minus_fct, fct_cte, Ranalysis1.id. field. lra.
Qed.

Lemma off_positive (x0 y0 x y : R) :
  (x, y) <> (x0, y0) -> 0 < (x - x0) * (x - x0) + (y - y0) * (y - y0).
Proof.
  intros H. apply off_singularity in H.
  pose proof (Rle_0_sqr (x - x0)) as Hx. pose proof (Rle_0_sqr (y - y0)) as Hy.
  unfold Rsqr in Hx, Hy.
  destruct (Rle_lt_or_eq_dec 0 ((x - x0) * (x - x0) + (y - y0) * (y - y0))) as [L|E];
    [lra | exact L | exfalso; apply H; symmetry; exact E].
Qed.

(** X27.  The two methods of a vortex describe one flow: off the vortex,
    the velocity that [compute_flow] returns is the derivative of the
    stream function that [compute_psi] returns, [u] its derivative in [y]
    and [v] the opposite of its derivative in [x]. *)
Theorem X27_vortex_velocity_derives_from_psi (g x0 y0 : R) (color : string) (x y : R) :
  (x, y) <> (x0, y0) ->
  let self := PointVortex_init x0 y0 g color in
  exists (psi : R -> R -> R) (u v : R),
    (forall a b, (a, b) <> (x0, y0) ->
       PointVortex_compute_psi self (VFloat (Fin a)) (VFloat (Fin b))
       = Ok (VFloat (Fin (psi a b))))
    /\ PointVortex_compute_flow self (VFloat (Fin x)) (VFloat (Fin y))
       = Ok (VFloat (Fin u), VFloat (Fin v))
    /\ derivable_pt_lim (fun b => psi x b) y u
    /\ derivable_pt_lim (fun a => psi a y) x (- v).
Proof.
  intros H self.
  exists (fun a b => g / 4 / PI * ln ((a - x0) * (a - x0) + (b - y0) * (b - y0))).
  destruct (vortex_u_real g x0 y0 x y H) as [Hu Hv].
  eexists _, _. split; [|split; [|split]].
  - intros a b Hab. apply PointVortex_compute_psi_float, Hab.
  - subst self. rewrite PointVortex_compute_flow_float by (apply off_presented; exact H).
    rewrite Hu, Hv. reflexivity.
  - pose proof (off_singularity _ _ _ _ H) as Hr. pose proof PI_neq0 as Hpi.
    pose proof (off_positive _ _ _ _ H) as Hpos.
    assert (Hr2 : (x - x0) ^ 2 + (y - y0) ^ 2 <> 0) by (intros E; apply Hr; rewrite <- E; ring).
    replace (g / (2 * PI) * (y - y0) / ((x - x0) ^ 2 + (y - y0) ^ 2))
      with (g / 4 / PI * 2 * (y - y0) / ((x - x0) * (x - x0) + (y - y0) * (y - y0)))
      by (field; repeat split; assumption).
    apply log_distance_derivative. exact Hpos.
  - pose proof (off_singularity _ _ _ _ H) as Hr. pose proof PI_neq0 as Hpi.
    assert (Hpos : 0 < (y - y0) * (y - y0) + (x - x0) * (x - x0))
      by (pose proof (off_positive _ _ _ _ H); lra).
    assert (Hr2 : (x - x0) ^ 2 + (y - y0) ^ 2 <> 0) by (intros E; apply Hr; rewrite <- E; ring).
    assert (Hr3 : (y - y0) * (y - y0) + (x - x0) * (x - x0) <> 0) by (intros E; apply Hr; rewrite <- E; ring).
    replace (- (- g / (2 * PI) * (x - x0) / ((x - x0) ^ 2 + (y - y0) ^ 2)))
      with (g / 4 / PI * 2 * (x - x0) / ((y - y0) * (y - y0) + (x - x0) * (x - x0)))
      by (field; repeat split; assumption).
    pose proof (log_distance_derivative (g / 4 / PI) ((y - y0) * (y - y0)) x0 x Hpos) as D.
    intros eps Heps. destruct (D eps Heps) as [delta Hd]. exists delta.
    intros h Hh Hlt. specialize (Hd h Hh Hlt).
    replace ((x + h - x0) * (x + h - x0) + (y - y0) * (y - y0))
      with ((y - y0) * (y - y0) + (x + h - x0) * (x + h - x0)) by ring.
    replace ((x - x0) * (x - x0) + (y - y0) * (y - y0))
      with ((y - y0) * (y - y0) + (x - x0) * (x - x0)) by ring.
    exact Hd.
Qed.

Lemma X27_witness :
  exists (psi : R -> R -> R) (u v : R),
    (forall a b, (a, b) <> (0, 0) ->
       PointVortex_compute_psi (PointVortex_init 0 0 1 "c") (VFloat (Fin a)) (VFloat (Fin b))
       = Ok (VFloat (Fin (psi a b))))
    /\ PointVortex_compute_flow (PointVortex_init 0 0 1 "c") (VFloat (Fin 1)) (VFloat (Fin 0))
       = Ok (VFloat (Fin u), VFloat (Fin v))
    /\ derivable_pt_lim (fun b => psi 1 b) 0 u
    /\ derivable_pt_lim (fun a => psi a 0) 1 (- v).
Proof.
  apply (X27_vortex_velocity_derives_from_psi 1 0 0 "c" 1 0).
  intros E. injection E. lra.
Defined.

(** ** The doublet: velocity and stream function together *)

Lemma derivable_pt_lim_eq (f g : R -> R) (x l : R) :
  (forall z, f z = g z) -> derivable_pt_lim f x l -> derivable_pt_lim g x l.
Proof.
  intros E D eps Heps. destruct (D eps Heps) as [delta Hd]. exists delta.
  intros h Hh Hlt. rewrite <- !E. apply Hd; assumption.
Qed.

(** The derivative of [(a (t - t0) + b) / (c + (t - t0)^2)] in [t]. *)
Lemma quotient_derivative (a b c t0 t : R) :
  c + (t - t0) * (t - t0) <> 0 ->
  derivable_pt_lim (fun s => (a * (s - t0) + b) / (c + (s - t0) * (s - t0))) t
    ((a * (c + (t - t0) * (t - t0)) - (a * (t - t0) + b) * (2 * (t - t0)))
     / (c + (t - t0) * (t - t0)) ^ 2).
Proof.
  intros Hne.
  pose (d := minus_fct Ranalysis1.id (fct_cte t0)).
  pose (p := plus_fct (mult_real_fct a d) (fct_cte b)).
  pose (q := plus_fct (fct_cte c) (mult_fct d d)).
  assert (D1 : derivable_pt_lim d t (1 - 0))
    by (apply derivable_pt_lim_minus;
        [apply derivable_pt_lim_id | apply derivable_pt_lim_const]).
  pose proof (derivable_pt_lim_plus _ _ t _ _ (derivable_pt_lim_scal _ a _ _ D1)
                (derivable_pt_lim_const b t)) as Dp.
  pose proof (derivable_pt_lim_plus _ _ t _ _ (derivable_pt_lim_const c t)
                (derivable_pt_lim_mult _ _ t _ _ D1 D1)) as Dq.
  fold p in Dp. fold q in Dq.
  assert (Hq : q t <> 0) by exact Hne.
  pose proof (derivable_pt_lim_div p q t _ _ Dp Dq Hq) as D.
  apply (derivable_pt_lim_eq (div_fct p q)); [reflexivity|].
  replace ((a * (c + (t - t0) * (t - t0)) - (a * (t - t0) + b) * (2 * (t - t0)))
           / (c + (t - t0) * (t - t0)) ^ 2)
    with (((a * (1 - 0) + 0) * q t - (0 + ((1 - 0) * d t + d t * (1 - 0))) * p t) / (q t)²).
  - exact D.
  - unfold Rsqr, p, q, d, plus_fct, mult_fct, mult_real_fct, minus_fct, fct_cte, Ranalysis1.id.
    field. exact Hne.
Qed.

(** X28.  For a doublet the two methods agree on [v] and, in general, not
    on [u]: off the doublet, [v] is the opposite of the derivative in [x] of
    the stream function that [compute_psi] returns, while [u] is its
    derivative in [y] exactly when the strength is zero, the doublet lies on
    the x axis ([y0 = 0]) or the point lies at [y = y0 / 2]. *)
Theorem X28_doublet_velocity_and_psi (mu x0 y0 : R) (color : string) (x y : R) :
  (x, y) <> (x0, y0) ->
  let self := PointDoublet_init x0 y0 mu color in
  exists (psi : R -> R -> R) (u v : R),
    (forall a b, (a, b) <> (x0, y0) ->
       PointDoublet_compute_psi self (VFloat (Fin a)) (VFloat (Fin b))
       = Ok (VFloat (Fin (psi a b))))
    /\ PointDoublet_compute_flow self (VFloat (Fin x)) (VFloat (Fin y))
       = Ok (VFloat (Fin u), VFloat (Fin v))
    /\ derivable_pt_lim (fun a => psi a y) x (- v)
    /\ (derivable_pt_lim (fun b => psi x b) y u <-> mu = 0 \/ y0 = 0 \/ y0 = 2 * y).
Proof.
  intros H self.
  pose proof (off_singularity _ _ _ _ H) as Hr. pose proof PI_neq0 as Hpi.
  assert (Hr2 : (x - x0) ^ 2 + (y - y0) ^ 2 <> 0) by (intros E; apply Hr; rewrite <- E; ring).
  assert (Hr3 : (y - y0) * (y - y0) + (x - x0) * (x - x0) <> 0)
    by (intros E; apply Hr; rewrite <- E; ring).
  exists (fun a b => - mu / (2 * PI) * (b - y0) / ((a - x0) ^ 2 + (b - y0) ^ 2)).
  destruct (doublet_real mu x0 y0 x y H) as [Hv _].
  pose proof (doublet_u_real mu x0 y0 x y H) as Hu.
  eexists _, _. split; [|split; [|split]].
  - intros a b Hab. subst self.
    rewrite PointDoublet_compute_psi_float by (apply off_presented; exact Hab).
    destruct (doublet_real mu x0 y0 a b Hab) as [_ ->]. reflexivity.
  - subst self. rewrite PointDoublet_compute_flow_float by (apply off_presented; exact H).
    rewrite Hu, Hv. reflexivity.
  - pose proof (quotient_derivative 0 (- mu / (2 * PI) * (y - y0)) ((y - y0) * (y - y0))
                  x0 x Hr3) as D.
    apply (derivable_pt_lim_eq _ (fun a => - mu / (2 * PI) * (y - y0)
                                           / ((a - x0) ^ 2 + (y - y0) ^ 2))) in D.
    + replace (- (- mu / (2 * PI) * 2 * (x - x0) * (y - y0)
                  / ((x - x0) ^ 2 + (y - y0) ^ 2) ^ 2))
        with ((0 * ((y - y0) * (y - y0) + (x - x0) * (x - x0))
               - (0 * (x - x0) + - mu / (2 * PI) * (y - y0)) * (2 * (x - x0)))
              / ((y - y0) * (y - y0) + (x - x0) * (x - x0)) ^ 2)
        by (field; repeat split; assumption).
      exact D.
    + intros z. f_equal; ring.
  - assert (D : derivable_pt_lim
                  (fun b => - mu / (2 * PI) * (b - y0) / ((x - x0) ^ 2 + (b - y0) ^ 2)) y
                  (- mu / (2 * PI) * ((x - x0) ^ 2 - (y - y0) ^ 2)
                   / ((x - x0) ^ 2 + (y - y0) ^ 2) ^ 2)).
    { pose proof (quotient_derivative (- mu / (2 * PI)) 0 ((x - x0) * (x - x0)) y0 y Hr) as D.
      apply (derivable_pt_lim_eq _ (fun b => - mu / (2 * PI) * (b - y0)
                                             / ((x - x0) ^ 2 + (b - y0) ^ 2))) in D.
      - replace (- mu / (2 * PI) * ((x - x0) ^ 2 - (y - y0) ^ 2)
                 / ((x - x0) ^ 2 + (y - y0) ^ 2) ^ 2)
          with ((- mu / (2 * PI) * ((x - x0) * (x - x0) + (y - y0) * (y - y0))
                 - (- mu / (2 * PI) * (y - y0) + 0) * (2 * (y - y0)))
                / ((x - x0) * (x - x0) + (y - y0) * (y - y0)) ^ 2)
          by (field; repeat split; assumption).
        exact D.
      - intros z. f_equal; ring. }
    assert (Hq : ((x - x0) ^ 2 + (y - y0) ^ 2) ^ 2 <> 0) by (apply pow_nonzero; exact Hr2).
    split.
    + intros Du. pose proof (uniqueness_limite _ _ _ _ Du D) as E.
      apply (f_equal (fun r => r * ((x - x0) ^ 2 + (y - y0) ^ 2) ^ 2 * (2 * PI))) in E.
      field_simplify in E; [|split; assumption|split; assumption].
      assert (E' : mu * (y0 * (y0 - 2 * y)) = 0) by nra.
      apply Rmult_integral in E' as [?|E']; [left; assumption|].
      apply Rmult_integral in E' as [?|?]; [right; left; assumption | right; right; lra].
    + intros Hc.
      replace (- mu / (2 * PI) * ((x - x0) ^ 2 - y ^ 2) / ((x - x0) ^ 2 + (y - y0) ^ 2) ^ 2)
        with (- mu / (2 * PI) * ((x - x0) ^ 2 - (y - y0) ^ 2)
              / ((x - x0) ^ 2 + (y - y0) ^ 2) ^ 2); [exact D|].
      assert (N : - mu / (2 * PI) * ((x - x0) ^ 2 - (y - y0) ^ 2)
                  = - mu / (2 * PI) * ((x - x0) ^ 2 - y ^ 2))
        by (destruct Hc as [Hc|[Hc|Hc]]; rewrite Hc; field; exact Hpi).
      rewrite N. reflexivity.
Qed.

Lemma X28_witness :
  exists (psi : R -> R -> R) (u v : R),
    (forall a b, (a, b) <> (0, 0) ->
       PointDoublet_compute_psi (PointDoublet_init 0 0 1 "g") (VFloat (Fin a)) (VFloat (Fin b))
       = Ok (VFloat (Fin (psi a b))))
    /\ PointDoublet_compute_flow (PointDoublet_init 0 0 1 "g") (VFloat (Fin 1)) (VFloat (Fin 1))
       = Ok (VFloat (Fin u), VFloat (Fin v))
    /\ derivable_pt_lim (fun a => psi a 1) 1 (- v)
    /\ (derivable_pt_lim (fun b => psi 1 b) 1 u <-> 1 = 0 \/ 0 = 0 \/ 0 = 2 * 1).
Proof.
  apply (X28_doublet_velocity_and_psi 1 0 0 "g" 1 1).
  intros E. injection E. lra.
Defined.

(** ** The stream function of fields that hold a source or a vortex (C5, C7) *)

Lemma singleton_points (l : list obj) (defaults : nat) (u a : R) (xl yl : R * R) (n m : Z) :
  deref {[ 0%nat := l ]} (points (FlowField2D_init defaults (Some 0%nat) u a xl yl n m)) = l.
Proof. unfold deref. cbn [points FlowField2D_init]. rewrite lookup_singleton_eq. reflexivity. Qed.

(** C5 (defect in the code).  The stream function of a field is not the
    freestream term plus the sum of the singularities' stream functions as
    soon as the field holds a source or a vortex: [psi] raises and returns
    no array.  For the field of the rankine example, a source and a sink on
    the 100 x 100 grid over [-1, 2] x [-1, 1], it raises [AttributeError]:
    [compute_psi] of the first source reads [self.yrel], which is never
    assigned.  For the field of the vortex example, one vortex on the
    default grid, it raises [TypeError]: [compute_psi] hands the grid-shaped
    array to [math.log].  The velocity of both fields is returned. *)
Theorem C5_psi_raises_for_sources_and_vortices :
  let rankine_points := [PointSource_init 0 0 1 "r"; PointSource_init 1 0 (-1) "r"] in
  let rankine_field := FlowField2D_init 1%nat (Some 0%nat) 0 0 (-1, 2) (-1, 1) 100 100 in
  let vortex_points := [PointVortex_init 0 0 1 "c"] in
  let vortex_field := FlowField2D_defaults 1%nat (Some 0%nat) in
  (exists U V, FlowField2D_flow {[ 0%nat := rankine_points ]} rankine_field
               = Ok (VArray U, VArray V))
  /\ FlowField2D_psi {[ 0%nat := rankine_points ]} rankine_field
     = Raise (AttributeError "yrel")
  /\ (exists U V, FlowField2D_flow {[ 0%nat := vortex_points ]} vortex_field
                  = Ok (VArray U, VArray V))
  /\ FlowField2D_psi {[ 0%nat := vortex_points ]} vortex_field = Raise TypeError.
Proof.
  intros rankine_points rankine_field vortex_points vortex_field.
  pose (source := mk_singularity PointSource 0 0 1 "r").
  pose (sink := mk_singularity PointSource 1 0 (-1) "r").
  assert (HR : deref {[ 0%nat := rankine_points ]} (points rankine_field)
               = map build ([] ++ source :: [sink])) by apply singleton_points.
  assert (HV : deref {[ 0%nat := vortex_points ]} (points vortex_field)
               = map build ([] ++ centre_vortex :: [])) by apply singleton_points.
  split; [|split; [|split]].
  - destruct (flow_cells _ rankine_field _ HR) as (U & V & HF & _); [cbn; lia | cbn; lia |].
    exists U, V. exact HF.
  - destruct (psi_first_unsupported _ rankine_field [] source [sink] HR) as [H _];
      [constructor | cbn; lia | cbn; lia |].
    apply H. reflexivity.
  - destruct (flow_cells _ vortex_field _ HV) as (U & V & HF & _); [cbn; lia | cbn; lia |].
    exists U, V. exact HF.
  - destruct (psi_first_unsupported _ vortex_field [] centre_vortex [] HV) as [_ H];
      [constructor | cbn; lia | cbn; lia |].
    apply H; [reflexivity | cbn; lia].
Qed.

(** C7 (defect in the code).  Two fields that differ only in the order of
    their two singularities, [[a, b]] against [[b, a]], on a grid with
    non-negative counts.  The velocity half holds: both fields return, and
    return the same two arrays; so does the stream function when both
    singularities are doublets.  With a source or a vortex in the pair
    (and a grid of more or fewer than one point) neither order returns a
    stream function, and with a source [a] and a vortex [b] the two orders
    do not even fail alike: [[a, b]] raises [AttributeError], [[b, a]]
    raises [TypeError]. *)
Theorem C7_psi_not_returned_in_either_order (h1 h2 : gmap nat (list obj))
    (f1 f2 : FlowField2D) (a b : singularity) :
  deref h1 (points f1) = map build [a; b] -> deref h2 (points f2) = map build [b; a] ->
  uinf f1 = uinf f2 -> alpha f1 = alpha f2 ->
  xlim f1 = xlim f2 -> ylim f1 = ylim f2 -> nx f1 = nx f2 -> ny f1 = ny f2 ->
  (0 <= nx f1)%Z -> (0 <= ny f1)%Z ->
  (exists U V, FlowField2D_flow h1 f1 = Ok (VArray U, VArray V)
               /\ FlowField2D_flow h2 f2 = Ok (VArray U, VArray V))
  /\ (s_class a = PointDoublet -> s_class b = PointDoublet ->
      exists P, FlowField2D_psi h1 f1 = Ok (VArray P)
                /\ FlowField2D_psi h2 f2 = Ok (VArray P))
  /\ (psi_unsupported a \/ psi_unsupported b ->
      (Z.to_nat (ny f1) * Z.to_nat (nx f1) <> 1)%nat ->
      exists e1 e2, FlowField2D_psi h1 f1 = Raise e1 /\ FlowField2D_psi h2 f2 = Raise e2)
  /\ (s_class a = PointSource -> s_class b = PointVortex ->
      (Z.to_nat (ny f1) * Z.to_nat (nx f1) <> 1)%nat ->
      FlowField2D_psi h1 f1 = Raise (AttributeError "yrel")
      /\ FlowField2D_psi h2 f2 = Raise TypeError).
Proof.
  intros H1 H2 Hu Ha Hxl Hyl Hnx Hny Hx Hy.
  assert (Hx2 : (0 <= nx f2)%Z) by (rewrite <- Hnx; exact Hx).
  assert (Hy2 : (0 <= ny f2)%Z) by (rewrite <- Hny; exact Hy).
  split; [|split; [|split]].
  - destruct (flow_cells h1 f1 _ H1 Hx Hy) as (U & V & HF & _).
    exists U, V. split; [exact HF|].
    apply (flow_reordered h1 h2 f1 f2 (build a) (build b)); assumption.
  - intros Ca Cb.
    destruct (psi_cells h1 f1 _ H1) as (P & HP & _);
      [repeat constructor; assumption | exact Hx | exact Hy |].
    exists P. split; [exact HP|].
    apply (psi_reordered h1 h2 f1 f2 (build a) (build b)); assumption.
  - intros Hab Hc.
    destruct (psi_raises h1 f1 _ H1) as [e1 E1];
      [destruct Hab; [apply Exists_cons_hd | apply Exists_cons_tl, Exists_cons_hd]; assumption
      | exact Hc |].
    destruct (psi_raises h2 f2 _ H2) as [e2 E2];
      [destruct Hab; [apply Exists_cons_tl, Exists_cons_hd | apply Exists_cons_hd]; assumption
      | rewrite <- Hnx, <- Hny; exact Hc |].
    exists e1, e2. split; assumption.
  - intros Ca Cb Hc. split.
    + destruct (psi_first_unsupported h1 f1 [] a [b] H1) as [H _];
        [constructor | exact Hx | exact Hy |].
      apply H, Ca.
    + destruct (psi_first_unsupported h2 f2 [] b [a] H2) as [_ H];
        [constructor | exact Hx2 | exact Hy2 |].
      apply H; [exact Cb | rewrite <- Hnx, <- Hny; exact Hc].
Qed.

(** C7, witness: a source and a vortex in both orders on the default grid,
    where the velocity is returned and the stream function is not; and two
    doublets in both orders, where both are returned. *)
Lemma C7_witness :
  let source := mk_singularity PointSource 0 0 1 "r" in
  let h : gmap nat (list obj) :=
    <[ 1%nat := [build centre_vortex; build source] ]>
      {[ 0%nat := [build source; build centre_vortex] ]} in
  let f1 := FlowField2D_defaults 2%nat (Some 0%nat) in
  let f2 := FlowField2D_defaults 2%nat (Some 1%nat) in
  ((exists U V, FlowField2D_flow h f1 = Ok (VArray U, VArray V)
                /\ FlowField2D_flow h f2 = Ok (VArray U, VArray V))
   /\ FlowField2D_psi h f1 = Raise (AttributeError "yrel")
   /\ FlowField2D_psi h f2 = Raise TypeError)
  /\ (exists U V, FlowField2D_flow pair_heap pair_field_ab = Ok (VArray U, VArray V)
                  /\ FlowField2D_flow pair_heap pair_field_ba = Ok (VArray U, VArray V))
  /\ (exists P, FlowField2D_psi pair_heap pair_field_ab = Ok (VArray P)
                /\ FlowField2D_psi pair_heap pair_field_ba = Ok (VArray P)).
Proof.
  intros source h f1 f2.
  assert (H1 : deref h (points f1) = map build [source; centre_vortex]).
  { unfold deref, h. cbn [points f1 FlowField2D_defaults FlowField2D_init].
    rewrite lookup_insert_ne by discriminate. rewrite lookup_singleton_eq. reflexivity. }
  assert (H2 : deref h (points f2) = map build [centre_vortex; source]).
  { unfold deref, h. cbn [points f2 FlowField2D_defaults FlowField2D_init].
    rewrite lookup_insert_eq. reflexivity. }
  destruct (C7_psi_not_returned_in_either_order h h f1 f2 source centre_vortex H1 H2)
    as (HF & _ & _ & HP);
    [reflexivity | reflexivity | reflexivity | reflexivity | reflexivity | reflexivity
    | cbn; lia | cbn; lia |].
  destruct (C7_psi_not_returned_in_either_order pair_heap pair_heap pair_field_ab
              pair_field_ba corner_doublet offset_doublet pair_points_ab pair_points_ba)
    as (HF' & HP' & _ & _);
    [reflexivity | reflexivity | reflexivity | reflexivity | reflexivity | reflexivity
    | cbn; lia | cbn; lia |].
  split; [split; [exact HF|]|split; [exact HF'|]].
  - apply HP; [reflexivity | reflexivity | cbn; lia].
  - apply HP'; reflexivity.
Defined.
